(** * Drawpile server: session history and server command codec

    A shallow embedding of [src/libserver/sessionhistory.cpp] and of the
    [ServerCommand] / [ServerReply] parsers and builders of
    [src/libshared/net/servercmd.cpp], with the properties of the
    specification and further properties of the code stated over it.

    Conventions of the embedding:
    - [size_t] and [uint] values are integers in [Z] and every unsigned
      operation of the source writes its wrap-around out ([wrap_size_t],
      [wrap_uint]);
    - [long long] and [int] values are integers in [Z]; signed overflow is
      undefined behaviour in C++, so the model covers the executions in
      which indices and counters stay inside their type;
    - member functions that mutate the object are computations of the state
      monad [ST] over the record of the object's members;
    - the pure virtual hooks of [SessionHistory], the C reset stream
      consumer and the constants of generated headers are the methods of
      the class [Env]; readings of the wall clock are arguments. *)

From Stdlib Require Import ZArith Lia Bool.
From Stdlib Require Import HexadecimalString HexadecimalN HexadecimalPos.
From stdpp Require Import base option list strings gmap.

#[local] Set Warnings "-register-all".
#[local] Open Scope Z_scope.

(** ** Machine integers *)

Definition size_t_modulus : Z := 2 ^ 64.
Definition uint_modulus : Z := 2 ^ 32.
Definition INT_MAX : Z := 2 ^ 31 - 1.

(** Unsigned arithmetic on [size_t] is arithmetic modulo [2^64]. *)
Definition wrap_size_t (z : Z) : Z := z mod size_t_modulus.

(** The conversion [uint(x)] keeps the low 32 bits. *)
Definition wrap_uint (z : Z) : Z := z mod uint_modulus.

Definition is_size_t (z : Z) : Prop := 0 <= z < size_t_modulus.
Definition is_uint (z : Z) : Prop := 0 <= z < uint_modulus.

(** ** Messages

    [net::Message] is opaque to the server: what the history reads from it
    are its accessors. [payload] is the byte view of the two message kinds
    that carry one ([DP_msg_reset_stream_data],
    [DP_msg_server_command_msg]). *)
Module Message.
Record t : Type := mk {
  isNull : bool;
  type : Z;
  contextId : Z;
  length : Z;
  isControl : bool;
  isServerMeta : bool;
  payload : list Byte.byte;
}.

Definition setContextId (ctx : Z) (m : t) : t :=
  mk (isNull m) (type m) ctx (length m) (isControl m) (isServerMeta m)
     (payload m).

(** [net::Message::null()] *)
Definition null : t := mk true 0 0 0 false false [].
End Message.

Abbreviation MessageList := (list Message.t).

(** ** Result codes of [libserver/sessionhistory.h] *)

Variant ResetStreamState : Set := RSNone | RSStreaming | RSPrepared.

Module StreamResetStartResult.
Variant t : Set := Ok | AlreadyActive | OutOfSpace | WriteError.
End StreamResetStartResult.

Module StreamResetAddResult.
Variant t : Set :=
  Ok | NotActive | InvalidUser | BadType | DisallowedType | OutOfSpace
  | ConsumerError.
End StreamResetAddResult.

Module StreamResetPrepareResult.
Variant t : Set :=
  Ok | NotActive | InvalidUser | OutOfSpace | InvalidMessageCount
  | ConsumerError.
End StreamResetPrepareResult.

Module StreamResetAbortResult.
Variant t : Set := Ok | NotActive | InvalidUser.
End StreamResetAbortResult.

Module ThumbnailStartResult.
Variant t : Set := Ok | InvalidUser | AlreadyGenerating.
End ThumbnailStartResult.

Module ThumbnailFinishResult.
Variant t : Set := Ok | InvalidUser | InvalidCorrelator | NoData | WriteError.
End ThumbnailFinishResult.

Module CheckInviteResult.
Variant t : Set :=
  NoClientKey | NotFound | AlreadyInvited | AlreadyInvitedNameChanged
  | InviteOk | InviteUsed | MaxUsesReached.
End CheckInviteResult.

#[global] Instance ResetStreamState_eq_dec : EqDecision ResetStreamState.
Proof. solve_decision. Defined.
#[global] Instance StreamResetStartResult_eq_dec :
  EqDecision StreamResetStartResult.t.
Proof. solve_decision. Defined.
#[global] Instance StreamResetAddResult_eq_dec :
  EqDecision StreamResetAddResult.t.
Proof. solve_decision. Defined.
#[global] Instance StreamResetPrepareResult_eq_dec :
  EqDecision StreamResetPrepareResult.t.
Proof. solve_decision. Defined.

(** ** Invites *)

Record InviteUse : Type := mkInviteUse {
  iu_name : string;
  iu_at : string;
}.

Record Invite : Type := mkInvite {
  secret : string;
  creator : string;
  at_ : string;
  maxUses : Z;
  trust : bool;
  op : bool;
  uses : gmap string InviteUse;
}.

Definition Invite_set_uses (u : gmap string InviteUse) (i : Invite) : Invite :=
  mkInvite (secret i) (creator i) (at_ i) (maxUses i) (trust i) (op i) u.

(** The outcome of [resolveResetStream]: its return value and the three
    reference parameters it may fill in ([ro_error] is [None] when it leaves
    the caller's error string alone). *)
Record ResolveOutcome : Type := mkResolveOutcome {
  ro_ok : bool;
  ro_messageCount : Z;
  ro_sizeInBytes : Z;
  ro_error : option string;
}.

(** ** The environment of a session history

    [W] is the state behind the virtual hooks that a concrete history
    (in memory or on disk) implements; [C] is the state of a
    [DP_ResetStreamConsumer]. *)
Class Env (W C : Type) : Type := {
  (** policy knob, [size_t overrideSizeLimit() const] *)
  overrideSizeLimit : W -> Z;
  (** log persistence *)
  historyAdd : Message.t -> W -> W;
  historyReset : MessageList -> W -> W;
  (** life cycle of the pending log *)
  openResetStream : MessageList -> W -> StreamResetStartResult.t * W;
  addResetStreamMessage : Message.t -> W -> StreamResetAddResult.t * W;
  prepareResetStream : W -> StreamResetPrepareResult.t * W;
  resolveResetStream : Z -> W -> ResolveOutcome * W;
  discardResetStream : W -> W;
  (** thumbnail storage *)
  setThumbnail : list Byte.byte -> W -> bool * W;
  (** [dpmsg/reset_stream.h]: allocation may fail and return [NULL] *)
  DP_reset_stream_consumer_new : W -> option C * W;
  (** the inner messages that a chunk of bytes completes, and whether the
      decoder itself stayed free of faults *)
  consumer_decode : list Byte.byte -> C -> (MessageList * bool) * C;
  (** the inner messages still buffered when the stream is finished, and
      whether finishing succeeded; the argument may be [NULL] *)
  consumer_finish : option C -> MessageList * bool;
  (** generated message type tags *)
  DP_MSG_CHAT : Z;
  DP_MSG_RESET_STREAM : Z;
  (** the extra allowance of the emergency tier *)
  emergencySpace : Z;
  (** messages built by [net::makeSoftResetMessage],
      [ServerReply::makeStreamedResetStart] and [ServerReply::makeCaughtUp] *)
  makeSoftResetMessage : Z -> Message.t;
  makeStreamedResetStart : Z -> string -> Message.t;
  makeCaughtUp : Z -> Message.t;
}.


(** ** History indices and the constants of the session header

    [HistoryIndex] is a class of its own; the history reads it through its
    accessors. *)
Module HistoryIndex.
Record t : Type := mk {
  isValid : bool;
  sessionId : string;
  startId : Z;
  historyPos : Z;
}.
End HistoryIndex.

(** The limits that [libserver/sessionhistory.h] fixes for a deployment. *)
Class Limits : Type := {
  MAX_INVITES : Z;
  MAX_INVITE_USES : Z;
  MIN_CATCHUP_KEY : Z;
  MAX_CATCHUP_KEY : Z;
}.

(** [qBound(min, val, max)] of [QtGlobal]. *)
Definition qBound (min val max : Z) : Z := Z.max min (Z.min max val).
(** ** The session history object *)

Module SessionHistory.
Section WithEnv.
Context {W C : Type} `{!Env W C}.

(** The data members of [SessionHistory] that the modelled member
    functions read or write. [correlatorIndex] is the function-local
    [static uint32_t] of [startThumbnailGeneration]; [backend] is the state
    reached through the virtual hooks. *)
Record t : Type := mk {
  m_id : string;
  m_lastResetTime : Z;
  m_firstIndex : Z;
  m_lastIndex : Z;
  m_sizeInBytes : Z;
  m_baseSizeLimit : Z;
  m_autoResetBaseSize : Z;
  m_resetStreamState : ResetStreamState;
  m_resetStreamCtxId : Z;
  m_resetStreamSize : Z;
  m_resetStreamStartIndex : Z;
  m_resetStreamMessageCount : Z;
  m_resetStreamAddError : StreamResetAddResult.t;
  m_resetStreamConsumer : option C;
  m_invites : gmap string Invite;
  m_thumbnailCtxId : Z;
  m_thumbnailCorrelator : string;
  correlatorIndex : Z;
  backend : W;
}.

Definition set_lastResetTime (v : Z) (s : t) : t :=
  mk (m_id s) v (m_firstIndex s) (m_lastIndex s) (m_sizeInBytes s)
     (m_baseSizeLimit s) (m_autoResetBaseSize s) (m_resetStreamState s)
     (m_resetStreamCtxId s) (m_resetStreamSize s) (m_resetStreamStartIndex s)
     (m_resetStreamMessageCount s) (m_resetStreamAddError s)
     (m_resetStreamConsumer s) (m_invites s) (m_thumbnailCtxId s)
     (m_thumbnailCorrelator s) (correlatorIndex s) (backend s).

Definition set_firstIndex (v : Z) (s : t) : t :=
  mk (m_id s) (m_lastResetTime s) v (m_lastIndex s) (m_sizeInBytes s)
     (m_baseSizeLimit s) (m_autoResetBaseSize s) (m_resetStreamState s)
     (m_resetStreamCtxId s) (m_resetStreamSize s) (m_resetStreamStartIndex s)
     (m_resetStreamMessageCount s) (m_resetStreamAddError s)
     (m_resetStreamConsumer s) (m_invites s) (m_thumbnailCtxId s)
     (m_thumbnailCorrelator s) (correlatorIndex s) (backend s).

Definition set_lastIndex (v : Z) (s : t) : t :=
  mk (m_id s) (m_lastResetTime s) (m_firstIndex s) v (m_sizeInBytes s)
     (m_baseSizeLimit s) (m_autoResetBaseSize s) (m_resetStreamState s)
     (m_resetStreamCtxId s) (m_resetStreamSize s) (m_resetStreamStartIndex s)
     (m_resetStreamMessageCount s) (m_resetStreamAddError s)
     (m_resetStreamConsumer s) (m_invites s) (m_thumbnailCtxId s)
     (m_thumbnailCorrelator s) (correlatorIndex s) (backend s).

Definition set_sizeInBytes (v : Z) (s : t) : t :=
  mk (m_id s) (m_lastResetTime s) (m_firstIndex s) (m_lastIndex s) v
     (m_baseSizeLimit s) (m_autoResetBaseSize s) (m_resetStreamState s)
     (m_resetStreamCtxId s) (m_resetStreamSize s) (m_resetStreamStartIndex s)
     (m_resetStreamMessageCount s) (m_resetStreamAddError s)
     (m_resetStreamConsumer s) (m_invites s) (m_thumbnailCtxId s)
     (m_thumbnailCorrelator s) (correlatorIndex s) (backend s).

Definition set_baseSizeLimit (v : Z) (s : t) : t :=
  mk (m_id s) (m_lastResetTime s) (m_firstIndex s) (m_lastIndex s)
     (m_sizeInBytes s) v (m_autoResetBaseSize s) (m_resetStreamState s)
     (m_resetStreamCtxId s) (m_resetStreamSize s) (m_resetStreamStartIndex s)
     (m_resetStreamMessageCount s) (m_resetStreamAddError s)
     (m_resetStreamConsumer s) (m_invites s) (m_thumbnailCtxId s)
     (m_thumbnailCorrelator s) (correlatorIndex s) (backend s).

Definition set_autoResetBaseSize (v : Z) (s : t) : t :=
  mk (m_id s) (m_lastResetTime s) (m_firstIndex s) (m_lastIndex s)
     (m_sizeInBytes s) (m_baseSizeLimit s) v (m_resetStreamState s)
     (m_resetStreamCtxId s) (m_resetStreamSize s) (m_resetStreamStartIndex s)
     (m_resetStreamMessageCount s) (m_resetStreamAddError s)
     (m_resetStreamConsumer s) (m_invites s) (m_thumbnailCtxId s)
     (m_thumbnailCorrelator s) (correlatorIndex s) (backend s).

Definition set_resetStreamState (v : ResetStreamState) (s : t) : t :=
  mk (m_id s) (m_lastResetTime s) (m_firstIndex s) (m_lastIndex s)
     (m_sizeInBytes s) (m_baseSizeLimit s) (m_autoResetBaseSize s) v
     (m_resetStreamCtxId s) (m_resetStreamSize s) (m_resetStreamStartIndex s)
     (m_resetStreamMessageCount s) (m_resetStreamAddError s)
     (m_resetStreamConsumer s) (m_invites s) (m_thumbnailCtxId s)
     (m_thumbnailCorrelator s) (correlatorIndex s) (backend s).

Definition set_resetStreamCtxId (v : Z) (s : t) : t :=
  mk (m_id s) (m_lastResetTime s) (m_firstIndex s) (m_lastIndex s)
     (m_sizeInBytes s) (m_baseSizeLimit s) (m_autoResetBaseSize s)
     (m_resetStreamState s) v (m_resetStreamSize s) (m_resetStreamStartIndex s)
     (m_resetStreamMessageCount s) (m_resetStreamAddError s)
     (m_resetStreamConsumer s) (m_invites s) (m_thumbnailCtxId s)
     (m_thumbnailCorrelator s) (correlatorIndex s) (backend s).

Definition set_resetStreamSize (v : Z) (s : t) : t :=
  mk (m_id s) (m_lastResetTime s) (m_firstIndex s) (m_lastIndex s)
     (m_sizeInBytes s) (m_baseSizeLimit s) (m_autoResetBaseSize s)
     (m_resetStreamState s) (m_resetStreamCtxId s) v (m_resetStreamStartIndex s)
     (m_resetStreamMessageCount s) (m_resetStreamAddError s)
     (m_resetStreamConsumer s) (m_invites s) (m_thumbnailCtxId s)
     (m_thumbnailCorrelator s) (correlatorIndex s) (backend s).

Definition set_resetStreamStartIndex (v : Z) (s : t) : t :=
  mk (m_id s) (m_lastResetTime s) (m_firstIndex s) (m_lastIndex s)
     (m_sizeInBytes s) (m_baseSizeLimit s) (m_autoResetBaseSize s)
     (m_resetStreamState s) (m_resetStreamCtxId s) (m_resetStreamSize s) v
     (m_resetStreamMessageCount s) (m_resetStreamAddError s)
     (m_resetStreamConsumer s) (m_invites s) (m_thumbnailCtxId s)
     (m_thumbnailCorrelator s) (correlatorIndex s) (backend s).

Definition set_resetStreamMessageCount (v : Z) (s : t) : t :=
  mk (m_id s) (m_lastResetTime s) (m_firstIndex s) (m_lastIndex s)
     (m_sizeInBytes s) (m_baseSizeLimit s) (m_autoResetBaseSize s)
     (m_resetStreamState s) (m_resetStreamCtxId s) (m_resetStreamSize s)
     (m_resetStreamStartIndex s) v (m_resetStreamAddError s)
     (m_resetStreamConsumer s) (m_invites s) (m_thumbnailCtxId s)
     (m_thumbnailCorrelator s) (correlatorIndex s) (backend s).

Definition set_resetStreamAddError (v : StreamResetAddResult.t) (s : t) : t :=
  mk (m_id s) (m_lastResetTime s) (m_firstIndex s) (m_lastIndex s)
     (m_sizeInBytes s) (m_baseSizeLimit s) (m_autoResetBaseSize s)
     (m_resetStreamState s) (m_resetStreamCtxId s) (m_resetStreamSize s)
     (m_resetStreamStartIndex s) (m_resetStreamMessageCount s) v
     (m_resetStreamConsumer s) (m_invites s) (m_thumbnailCtxId s)
     (m_thumbnailCorrelator s) (correlatorIndex s) (backend s).

Definition set_resetStreamConsumer (v : option C) (s : t) : t :=
  mk (m_id s) (m_lastResetTime s) (m_firstIndex s) (m_lastIndex s)
     (m_sizeInBytes s) (m_baseSizeLimit s) (m_autoResetBaseSize s)
     (m_resetStreamState s) (m_resetStreamCtxId s) (m_resetStreamSize s)
     (m_resetStreamStartIndex s) (m_resetStreamMessageCount s)
     (m_resetStreamAddError s) v (m_invites s) (m_thumbnailCtxId s)
     (m_thumbnailCorrelator s) (correlatorIndex s) (backend s).

Definition set_invites (v : gmap string Invite) (s : t) : t :=
  mk (m_id s) (m_lastResetTime s) (m_firstIndex s) (m_lastIndex s)
     (m_sizeInBytes s) (m_baseSizeLimit s) (m_autoResetBaseSize s)
     (m_resetStreamState s) (m_resetStreamCtxId s) (m_resetStreamSize s)
     (m_resetStreamStartIndex s) (m_resetStreamMessageCount s)
     (m_resetStreamAddError s) (m_resetStreamConsumer s) v
     (m_thumbnailCtxId s) (m_thumbnailCorrelator s) (correlatorIndex s)
     (backend s).

Definition set_thumbnailCtxId (v : Z) (s : t) : t :=
  mk (m_id s) (m_lastResetTime s) (m_firstIndex s) (m_lastIndex s)
     (m_sizeInBytes s) (m_baseSizeLimit s) (m_autoResetBaseSize s)
     (m_resetStreamState s) (m_resetStreamCtxId s) (m_resetStreamSize s)
     (m_resetStreamStartIndex s) (m_resetStreamMessageCount s)
     (m_resetStreamAddError s) (m_resetStreamConsumer s) (m_invites s) v
     (m_thumbnailCorrelator s) (correlatorIndex s) (backend s).

Definition set_thumbnailCorrelator (v : string) (s : t) : t :=
  mk (m_id s) (m_lastResetTime s) (m_firstIndex s) (m_lastIndex s)
     (m_sizeInBytes s) (m_baseSizeLimit s) (m_autoResetBaseSize s)
     (m_resetStreamState s) (m_resetStreamCtxId s) (m_resetStreamSize s)
     (m_resetStreamStartIndex s) (m_resetStreamMessageCount s)
     (m_resetStreamAddError s) (m_resetStreamConsumer s) (m_invites s)
     (m_thumbnailCtxId s) v (correlatorIndex s) (backend s).

Definition set_correlatorIndex (v : Z) (s : t) : t :=
  mk (m_id s) (m_lastResetTime s) (m_firstIndex s) (m_lastIndex s)
     (m_sizeInBytes s) (m_baseSizeLimit s) (m_autoResetBaseSize s)
     (m_resetStreamState s) (m_resetStreamCtxId s) (m_resetStreamSize s)
     (m_resetStreamStartIndex s) (m_resetStreamMessageCount s)
     (m_resetStreamAddError s) (m_resetStreamConsumer s) (m_invites s)
     (m_thumbnailCtxId s) (m_thumbnailCorrelator s) v (backend s).

Definition set_backend (v : W) (s : t) : t :=
  mk (m_id s) (m_lastResetTime s) (m_firstIndex s) (m_lastIndex s)
     (m_sizeInBytes s) (m_baseSizeLimit s) (m_autoResetBaseSize s)
     (m_resetStreamState s) (m_resetStreamCtxId s) (m_resetStreamSize s)
     (m_resetStreamStartIndex s) (m_resetStreamMessageCount s)
     (m_resetStreamAddError s) (m_resetStreamConsumer s) (m_invites s)
     (m_thumbnailCtxId s) (m_thumbnailCorrelator s) (correlatorIndex s) v.

(** *** The state monad of member functions *)

Definition ST (A : Type) : Type := t -> A * t.

#[export] Instance ST_ret : MRet ST := fun A (a : A) s => (a, s).
#[export] Instance ST_bind : MBind ST :=
  fun A B (f : A -> ST B) (m : ST A) s => let (a, s') := m s in f a s'.

Definition gets {A : Type} (f : t -> A) : ST A := fun s => (f s, s).
Definition modify (f : t -> t) : ST unit := fun s => (tt, f s).

(** A hook that only changes the state behind it. *)
Definition hook_ (f : W -> W) : ST unit :=
  modify (fun s => set_backend (f (backend s)) s).

(** A hook that answers and may change the state behind it. *)
Definition hook {A : Type} (f : W -> A * W) : ST A :=
  fun s => ((f (backend s)).1, set_backend (f (backend s)).2 s).

(** *** Size accounting *)

Definition currentSizeLimit : ST Z :=
  overrideLimit ← gets (fun s => overrideSizeLimit (backend s));
  if overrideLimit =? 0 then gets m_baseSizeLimit else mret overrideLimit.

Definition hasSpaceFor (bytes extra : Z) : ST bool :=
  sizeLimit ← currentSizeLimit;
  sizeInBytes ← gets m_sizeInBytes;
  mret ((sizeLimit <=? 0)
        || (wrap_size_t (sizeInBytes + bytes)
            <=? wrap_size_t (sizeLimit + extra))).

(** Modelled from the spec: the two inline helpers of
    [libserver/sessionhistory.h], which is not among the sources. The
    regular tier allows up to [currentSizeLimit] bytes; the emergency tier
    extends the ceiling by the extra allowance [emergencySpace]. *)
Definition hasRegularSpaceFor (bytes : Z) : ST bool := hasSpaceFor bytes 0.
Definition hasEmergencySpaceFor (bytes : Z) : ST bool :=
  hasSpaceFor bytes emergencySpace.

Definition clampSizeLimit (sizeLimit : Z) : Z := Z.min sizeLimit INT_MAX.

Definition setBaseSizeLimit (baseSizeLimit : Z) : ST unit :=
  modify (set_baseSizeLimit (clampSizeLimit baseSizeLimit)).

Definition addMessageInternal (msg : Message.t) (bytes : Z) : ST unit :=
  modify (fun s => set_sizeInBytes (wrap_size_t (m_sizeInBytes s + bytes)) s);;
  modify (fun s => set_lastIndex (m_lastIndex s + 1) s);;
  hook_ (historyAdd msg).

(** [emit newMessagesAvailable()] has no effect on the members. *)
Definition addMessage (msg : Message.t) : ST bool :=
  let bytes := Message.length msg in
  ok ← hasRegularSpaceFor bytes;
  if ok : bool then addMessageInternal msg bytes;; mret true else mret false.

Definition addEmergencyMessage (msg : Message.t) : ST bool :=
  let bytes := wrap_uint (Message.length msg) in
  ok ← hasEmergencySpaceFor bytes;
  if ok : bool then addMessageInternal msg bytes;; mret true else mret false.


(** *** Atomic reset and streamed reset *)

Definition resetAutoResetThresholdBase : ST unit :=
  modify (fun s => set_autoResetBaseSize (m_sizeInBytes s) s).

(** [DP_reset_stream_consumer_free_discard] releases the consumer; the
    member is then set to [nullptr]. *)
Definition abortActiveStreamedReset : ST unit :=
  hook_ discardResetStream;;
  modify (set_resetStreamState RSNone);;
  modify (set_resetStreamCtxId 0);;
  modify (set_resetStreamConsumer None).

Definition abortStreamedReset (ctxId : Z) : ST StreamResetAbortResult.t :=
  st ← gets m_resetStreamState;
  match st with
  | RSStreaming =>
      ctx ← gets m_resetStreamCtxId;
      if (ctxId <? 0) || (ctxId =? ctx)
      then abortActiveStreamedReset;; mret StreamResetAbortResult.Ok
      else mret StreamResetAbortResult.InvalidUser
  | _ => mret StreamResetAbortResult.NotActive
  end.

(** [newSize += msg.length()] over the list, in [size_t]. *)
Definition sumLengths (newHistory : MessageList) : Z :=
  foldl (fun newSize msg => wrap_size_t (newSize + Message.length msg))
        0 newHistory.

(** [now] is the reading of [QDateTime::currentMSecsSinceEpoch()]; the
    call [abortStreamedReset()] uses the default argument [-1]. *)
Definition reset (newHistory : MessageList) (now : Z) : ST bool :=
  let newSize := sumLengths newHistory in
  sizeLimit ← currentSizeLimit;
  if (0 <? sizeLimit) && (sizeLimit <? newSize) then mret false
  else
    abortStreamedReset (-1);;
    modify (set_sizeInBytes newSize);;
    modify (set_lastResetTime now);;
    modify (fun s => set_firstIndex (m_lastIndex s + 1) s);;
    modify (fun s =>
      set_lastIndex (m_lastIndex s + Z.of_nat (length newHistory)) s);;
    resetAutoResetThresholdBase;;
    hook_ (historyReset newHistory);;
    mret true.

Definition startStreamedReset (ctxId : Z) (correlator : string)
    (serverSideStateMessages : MessageList) : ST StreamResetStartResult.t :=
  st ← gets m_resetStreamState;
  match st with
  | RSNone =>
      let softResetMsg := makeSoftResetMessage 0 in
      let resetStartMsg := makeStreamedResetStart ctxId correlator in
      let softResetBytes := Message.length softResetMsg in
      let resetStartBytes := Message.length resetStartMsg in
      ok ← hasRegularSpaceFor (wrap_size_t (softResetBytes + resetStartBytes));
      if negb ok then mret StreamResetStartResult.OutOfSpace
      else
        addMessageInternal softResetMsg softResetBytes;;
        addMessageInternal resetStartMsg resetStartBytes;;
        result ← hook (openResetStream serverSideStateMessages);
        match result with
        | StreamResetStartResult.Ok =>
            modify (set_resetStreamState RSStreaming);;
            modify (set_resetStreamCtxId ctxId);;
            modify (set_resetStreamSize 0);;
            modify (fun s => set_resetStreamStartIndex (m_lastIndex s + 1) s);;
            modify (set_resetStreamMessageCount 0)
        | _ => mret tt
        end;;
        mret result
  | _ => mret StreamResetStartResult.AlreadyActive
  end.

Definition receiveResetStreamMessage (msg : Message.t) : ST bool :=
  if Message.isControl msg
     || (Message.isServerMeta msg && negb (Message.type msg =? DP_MSG_CHAT))
  then
    modify (set_resetStreamAddError StreamResetAddResult.DisallowedType);;
    mret false
  else
    newSize ← gets (fun s =>
      wrap_size_t (m_resetStreamSize s + Message.length msg));
    sizeLimit ← currentSizeLimit;
    if (0 <? sizeLimit) && (sizeLimit <? newSize) then
      modify (set_resetStreamAddError StreamResetAddResult.OutOfSpace);;
      mret false
    else
      modify (set_resetStreamSize newSize);;
      ctx ← gets m_resetStreamCtxId;
      let msg' :=
        if negb (Message.contextId msg =? ctx)
        then Message.setContextId ctx msg else msg in
      result ← hook (addResetStreamMessage msg');
      match result with
      | StreamResetAddResult.Ok =>
          modify (fun s =>
            set_resetStreamMessageCount (m_resetStreamMessageCount s + 1) s);;
          mret true
      | _ => modify (set_resetStreamAddError result);; mret false
      end.

(** Modelled from the spec: the reset stream consumer of
    [dpmsg/reset_stream.h] is not among the sources. It emits the decoded
    inner messages one by one through the callback, and when the callback
    rejects a message the consumer stops. *)
Fixpoint consumer_emit (msgs : MessageList) : ST bool :=
  match msgs with
  | [] => mret true
  | msg :: rest =>
      accepted ← receiveResetStreamMessage msg;
      if accepted : bool then consumer_emit rest else mret false
  end.

(** Modelled from the spec: [DP_reset_stream_consumer_push] accumulates the
    bytes and emits what they complete; it fails when the callback rejected
    a message or the decoder met a fault. The consumer keeps its address
    and changes its state. *)
Definition DP_reset_stream_consumer_push (c : C) (data : list Byte.byte)
    : ST bool :=
  let decoded := consumer_decode data c in
  accepted ← consumer_emit decoded.1.1;
  modify (set_resetStreamConsumer (Some decoded.2));;
  mret (accepted && decoded.1.2).

(** Modelled from the spec: [DP_reset_stream_consumer_free_finish] drains
    the consumer through the same callback and releases it. *)
Definition DP_reset_stream_consumer_free_finish (c : option C) : ST bool :=
  let drained := consumer_finish c in
  accepted ← consumer_emit drained.1;
  mret (accepted && drained.2).

Definition addStreamResetMessage (ctxId : Z) (msg : Message.t)
    : ST StreamResetAddResult.t :=
  st ← gets m_resetStreamState;
  match st with
  | RSStreaming =>
      ctx ← gets m_resetStreamCtxId;
      if negb (ctx =? ctxId) then mret StreamResetAddResult.InvalidUser
      else if negb (Message.type msg =? DP_MSG_RESET_STREAM)
      then mret StreamResetAddResult.BadType
      else
        let data := Message.payload msg in
        if negb (Z.of_nat (length data) =? 0) then
          existing ← gets m_resetStreamConsumer;
          consumer ← match existing with
                      | Some c => mret (Some c)
                      | None =>
                          c ← hook DP_reset_stream_consumer_new;
                          modify (set_resetStreamConsumer c);;
                          mret c
                      end;
          match consumer with
          | None =>
              abortActiveStreamedReset;;
              mret StreamResetAddResult.ConsumerError
          | Some c =>
              modify
                (set_resetStreamAddError StreamResetAddResult.ConsumerError);;
              pushed ← DP_reset_stream_consumer_push c data;
              if negb pushed then gets m_resetStreamAddError
              else mret StreamResetAddResult.Ok
          end
        else mret StreamResetAddResult.Ok
  | _ => mret StreamResetAddResult.NotActive
  end.

Definition prepareStreamedReset (ctxId expectedMessageCount : Z)
    : ST StreamResetPrepareResult.t :=
  st ← gets m_resetStreamState;
  match st with
  | RSStreaming =>
      ctx ← gets m_resetStreamCtxId;
      if negb (ctx =? ctxId) then mret StreamResetPrepareResult.InvalidUser
      else
        modify (set_resetStreamAddError StreamResetAddResult.ConsumerError);;
        consumer ← gets m_resetStreamConsumer;
        freeOk ← DP_reset_stream_consumer_free_finish consumer;
        modify (set_resetStreamConsumer None);;
        if negb freeOk then
          err ← gets m_resetStreamAddError;
          match err with
          | StreamResetAddResult.OutOfSpace =>
              mret StreamResetPrepareResult.OutOfSpace
          | _ => mret StreamResetPrepareResult.ConsumerError
          end
        else
          count ← gets m_resetStreamMessageCount;
          if negb (count =? expectedMessageCount)
             || (expectedMessageCount =? 0)
          then
            abortActiveStreamedReset;;
            mret StreamResetPrepareResult.InvalidMessageCount
          else
            added ← hook (addResetStreamMessage (makeCaughtUp 0));
            match added with
            | StreamResetAddResult.Ok =>
                result ← hook prepareResetStream;
                match result with
                | StreamResetPrepareResult.Ok =>
                    modify (set_resetStreamState RSPrepared)
                | _ => modify (set_resetStreamState RSNone)
                end;;
                modify (set_resetStreamCtxId 0);;
                mret result
            | StreamResetAddResult.OutOfSpace =>
                mret StreamResetPrepareResult.OutOfSpace
            | _ => mret StreamResetPrepareResult.ConsumerError
            end
  | _ => mret StreamResetPrepareResult.NotActive
  end.

(** The reference parameters [outOffset] and [outError] come in with the
    caller's values and go out in the result, after the return value. *)
Definition resolveStreamedReset (outOffset : Z) (outError : string)
    : ST (bool * Z * string) :=
  st ← gets m_resetStreamState;
  match st with
  | RSPrepared =>
      newFirstIndex ← gets (fun s => m_lastIndex s + 1);
      o ← hook (resolveResetStream newFirstIndex);
      modify (set_resetStreamState RSNone);;
      modify (set_resetStreamCtxId 0);;
      if negb (ro_ok o)
      then mret (false, outOffset, default outError (ro_error o))
      else
        modify (set_sizeInBytes (ro_sizeInBytes o));;
        modify (set_firstIndex newFirstIndex);;
        modify (fun s => set_lastIndex (m_lastIndex s + ro_messageCount o) s);;
        modify (fun s => set_autoResetBaseSize (m_resetStreamSize s) s);;
        mret (true, ro_messageCount o, default outError (ro_error o))
  | _ => mret (false, outOffset, "reset stream is not prepared"%string)
  end.

(** *** Invites *)

(** [QString::isEmpty] *)
Definition isEmpty (q : string) : bool := String.eqb q "".

(** Modelled from the spec: [Invite::hasUsesRemaining] is an inline member
    of the header, which is not among the sources; the capacity test is
    [uses.size < maxUses]. *)
Definition hasUsesRemaining (invite : Invite) : bool :=
  Z.of_nat (size (uses invite)) <? maxUses invite.

(** The optional out-pointers [outInvite] and [outInviteUse] alias entries
    of [m_invites] and change nothing in it; the model is the call that
    passes [nullptr] for both. [nowIso] is the reading of
    [QDateTime::currentDateTimeUtc().toString(Qt::ISODate)]. *)
Definition checkInviteFor (clientKey name secret : string) (use : bool)
    (nowIso : string) : ST CheckInviteResult.t :=
  if isEmpty clientKey then mret CheckInviteResult.NoClientKey
  else if negb (isEmpty secret) then
    invites ← gets m_invites;
    match invites !! secret with
    | Some invite =>
        match uses invite !! clientKey with
        | Some u =>
            if negb use || String.eqb (iu_name u) name
            then mret CheckInviteResult.AlreadyInvited
            else
              modify (set_invites
                (<[secret :=
                    Invite_set_uses
                      (<[clientKey := mkInviteUse name (iu_at u)]>
                         (uses invite))
                      invite]> invites));;
              mret CheckInviteResult.AlreadyInvitedNameChanged
        | None =>
            if hasUsesRemaining invite then
              if use then
                modify (set_invites
                  (<[secret :=
                      Invite_set_uses
                        (<[clientKey := mkInviteUse name nowIso]>
                           (uses invite))
                        invite]> invites));;
                mret CheckInviteResult.InviteUsed
              else mret CheckInviteResult.InviteOk
            else mret CheckInviteResult.MaxUsesReached
        end
    | None => mret CheckInviteResult.NotFound
    end
  else mret CheckInviteResult.NotFound.

(** What [checkInvite] reads from the [Client]: [sid()] is the client key
    and [username()] the name. The result carries [*outClientKey]. *)
Record Client : Type := mkClient {
  sid : string;
  username : string;
}.

Definition checkInvite (client : Client) (secret : string) (use : bool)
    (nowIso : string) : ST (CheckInviteResult.t * string) :=
  let clientKey := sid client in
  r ← checkInviteFor clientKey (username client) secret use nowIso;
  mret (r, clientKey).

(** *** Thumbnail handshake *)

(** [QString::number(n, 16)] of a value that is not negative: lower case
    digits, no prefix, no leading zero. *)
Definition QString_number_hex (n : Z) : string :=
  HexadecimalString.NilZero.string_of_uint (N.to_hex_uint (Z.to_N n)).

(** [QString::toUtf8]: strings hold their UTF-8 bytes. *)
Definition toUtf8 (q : string) : list Byte.byte := String.list_byte_of_string q.

(** [QByteArray::startsWith] *)
Fixpoint startsWith (data prefix : list Byte.byte) : bool :=
  match prefix, data with
  | [], _ => true
  | p :: prefix', d :: data' => Byte.eqb d p && startsWith data' prefix'
  | _ :: _, [] => false
  end.

(** [now] is the reading of [QDateTime::currentMSecsSinceEpoch()]. The
    result carries the reference parameter [outCorrelator]. The template
    [%1:%2] has its two places filled by strings of hexadecimal digits. *)
Definition startThumbnailGeneration (contextId : Z) (outCorrelator : string)
    (now : Z) : ST (ThumbnailStartResult.t * string) :=
  if contextId =? 0 then mret (ThumbnailStartResult.InvalidUser, outCorrelator)
  else
    ctx ← gets m_thumbnailCtxId;
    if contextId =? ctx
    then mret (ThumbnailStartResult.AlreadyGenerating, outCorrelator)
    else
      modify (set_thumbnailCtxId contextId);;
      index ← gets correlatorIndex;
      modify (set_correlatorIndex (wrap_uint (index + 1)));;
      modify (set_thumbnailCorrelator
        (QString_number_hex index +:+ ":" +:+ QString_number_hex now));;
      correlator ← gets m_thumbnailCorrelator;
      mret (ThumbnailStartResult.Ok, correlator).

Definition finishThumbnailGeneration (contextId : Z) (data : list Byte.byte)
    : ST ThumbnailFinishResult.t :=
  ctx ← gets m_thumbnailCtxId;
  if negb (ctx =? contextId) then mret ThumbnailFinishResult.InvalidUser
  else
    correlatorBytes ← gets (fun s => toUtf8 (m_thumbnailCorrelator s));
    if negb (startsWith data correlatorBytes)
    then mret ThumbnailFinishResult.InvalidCorrelator
    else
      modify (set_thumbnailCtxId 0);;
      modify (set_thumbnailCorrelator "");;
      let dataSize := Z.of_nat (length data) in
      let correlatorSize := Z.of_nat (length correlatorBytes) in
      if dataSize <=? correlatorSize then mret ThumbnailFinishResult.NoData
      else
        written ← hook (setThumbnail (drop (length correlatorBytes) data));
        if negb written then mret ThumbnailFinishResult.WriteError
        else mret ThumbnailFinishResult.Ok.

Definition cancelThumbnailGeneration (contextId : Z) (correlator : string)
    : ST bool :=
  ctx ← gets m_thumbnailCtxId;
  stored ← gets m_thumbnailCorrelator;
  if ((contextId =? 0) || (contextId =? ctx))
     && (isEmpty correlator || String.eqb correlator stored)
  then
    modify (set_thumbnailCtxId 0);;
    modify (set_thumbnailCorrelator "");;
    mret true
  else mret false.


(** *** Sequences of streamed reset steps

    The calls that a session makes on its history during a streamed reset,
    as data, so that properties can be stated for every sequence of them. *)

Variant StreamOp : Type :=
| OpStart (ctxId : Z) (correlator : string)
          (serverSideStateMessages : MessageList)
| OpAdd (ctxId : Z) (msg : Message.t)
| OpPrepare (ctxId expectedMessageCount : Z)
| OpAbort (ctxId : Z).

Variant StreamResult : Type :=
| Started (r : StreamResetStartResult.t)
| Added (r : StreamResetAddResult.t)
| Prepared (r : StreamResetPrepareResult.t)
| Aborted (r : StreamResetAbortResult.t).

(** A step returns an error when its result is not the [Ok] of its type. *)
Definition isError (r : StreamResult) : bool :=
  match r with
  | Started StreamResetStartResult.Ok
  | Added StreamResetAddResult.Ok
  | Prepared StreamResetPrepareResult.Ok
  | Aborted StreamResetAbortResult.Ok => false
  | _ => true
  end.

(** Whether a step puts messages into the live log: only
    [startStreamedReset] does, once it is past its two checks (no stream is
    active, and the soft reset and stream start markers fit in the regular
    space). *)
Definition marksLiveLog (op : StreamOp) (s : t) : bool :=
  match op with
  | OpStart ctxId correlator _ =>
      match m_resetStreamState s with
      | RSNone =>
          (hasRegularSpaceFor
             (wrap_size_t
                (Message.length (makeSoftResetMessage 0)
                 + Message.length (makeStreamedResetStart ctxId correlator)))
             s).1
      | _ => false
      end
  | _ => false
  end.

Definition stepOp (op : StreamOp) : ST StreamResult :=
  match op with
  | OpStart ctxId correlator seed =>
      r ← startStreamedReset ctxId correlator seed; mret (Started r)
  | OpAdd ctxId msg => r ← addStreamResetMessage ctxId msg; mret (Added r)
  | OpPrepare ctxId expected =>
      r ← prepareStreamedReset ctxId expected; mret (Prepared r)
  | OpAbort ctxId => r ← abortStreamedReset ctxId; mret (Aborted r)
  end.

Fixpoint runOps (ops : list StreamOp) : ST (list StreamResult) :=
  match ops with
  | [] => mret []
  | op :: rest =>
      r ← stepOp op;
      rs ← runOps rest;
      mret (r :: rs)
  end.

Definition isStart (op : StreamOp) : bool :=
  match op with OpStart _ _ _ => true | _ => false end.

Definition isStartedOk (r : StreamResult) : bool :=
  match r with Started StreamResetStartResult.Ok => true | _ => false end.

(** How many steps of a sequence are calls of [startStreamedReset], and how
    many results are its [Ok]. *)
Definition countStarts (ops : list StreamOp) : Z :=
  Z.of_nat (length (filter (fun op => isStart op = true) ops)).
Definition countStartedOk (rs : list StreamResult) : Z :=
  Z.of_nat (length (filter (fun r => isStartedOk r = true) rs)).

(** *** Indices of the history, loading *)

Definition canSkipToHistoryIndex (hi : HistoryIndex.t) : ST bool :=
  id ← gets m_id;
  lastResetTime ← gets m_lastResetTime;
  if HistoryIndex.isValid hi
     && String.eqb (HistoryIndex.sessionId hi) id
     && (HistoryIndex.startId hi =? lastResetTime)
  then
    let historyPos := HistoryIndex.historyPos hi in
    firstIndex ← gets m_firstIndex;
    lastIndex ← gets m_lastIndex;
    mret ((firstIndex <=? historyPos) && (historyPos <=? lastIndex))
  else mret false.

(** [Q_ASSERT(m_lastIndex == -1)] is the precondition of the call. *)
Definition historyLoaded (size messageCount : Z) : ST unit :=
  modify (set_sizeInBytes size);;
  modify (set_lastIndex (messageCount - 1));;
  modify (set_autoResetBaseSize size).

(** *** Sequences of appends

    The two ways a session puts a message into the log, as data. *)
Variant AppendOp : Type :=
| Regular (msg : Message.t)
| Emergency (msg : Message.t).

Definition appended (op : AppendOp) : Message.t :=
  match op with Regular msg | Emergency msg => msg end.

Definition appendOp (op : AppendOp) : ST bool :=
  match op with
  | Regular msg => addMessage msg
  | Emergency msg => addEmergencyMessage msg
  end.

Fixpoint appendAll (ops : list AppendOp) : ST (list bool) :=
  match ops with
  | [] => mret []
  | op :: rest =>
      admitted ← appendOp op;
      others ← appendAll rest;
      mret (admitted :: others)
  end.

(** *** Invites: creation and removal *)

Section WithLimits.
Context `{!Limits}.

(** Every member of the invite is assigned, so nothing of the invite that
    comes in stays. *)
Definition resetInvite (invite : Invite) (secret createdBy at_ : string)
    (maxUses : Z) (trust op : bool) : Invite :=
  mkInvite secret createdBy at_ (qBound 1 maxUses MAX_INVITE_USES) trust op ∅.

(** [m_invites[secret]] is the entry under the key, which a missing key
    gets as a value-initialised invite. The result is the invite that the
    returned reference names. *)
Definition setInvite (secret createdBy at_ : string) (maxUses : Z)
    (trust op : bool) : ST Invite :=
  invites ← gets m_invites;
  let entry := default (mkInvite "" "" "" 0 false false ∅) (invites !! secret) in
  let invite := resetInvite entry secret createdBy at_ maxUses trust op in
  modify (set_invites (<[secret := invite]> invites));;
  mret invite.

(** The loop [do secret = Ulid::makeShortIdentifier(); while
    (m_invites.contains(secret))] over the identifiers that the generator
    hands out, in order: the first one that is free. [None] stands for the
    loop still running when these identifiers are used up. *)
Fixpoint generateInviteSecret (identifiers : list string) : ST (option string) :=
  match identifiers with
  | [] => mret None
  | secret :: rest =>
      invites ← gets m_invites;
      if bool_decide (is_Some (invites !! secret))
      then generateInviteSecret rest
      else mret (Some secret)
  end.

(** [nowIso] is the reading of
    [QDateTime::currentDateTimeUtc().toString(Qt::ISODate)]. The outer
    [None] is the loop of [generateInviteSecret] still running; the inner
    one is [nullptr]. *)
Definition createInvite (identifiers : list string) (createdBy : string)
    (maxUses : Z) (trust op : bool) (nowIso : string)
    : ST (option (option Invite)) :=
  invites ← gets m_invites;
  if Z.of_nat (size invites) <? MAX_INVITES then
    generated ← generateInviteSecret identifiers;
    match generated with
    | Some secret =>
        invite ← setInvite secret createdBy nowIso maxUses trust op;
        mret (Some (Some invite))
    | None => mret None
    end
  else mret (Some None).

End WithLimits.

(** [QHash::remove]: whether the key was there. *)
Definition removeInvite (secret : string) : ST bool :=
  invites ← gets m_invites;
  modify (set_invites (delete secret invites));;
  mret (bool_decide (is_Some (invites !! secret))).

(** One turn of the loop of [removeOldestInvite], on the pair of
    [oldestSecret] and [oldestAt]. The comparison of [QString] is the
    order of the code units, which is the order of the bytes for the
    characters of a timestamp. *)
Definition olderOf (oldest : string * string) (invite : Invite)
    : string * string :=
  if isEmpty oldest.1 || String.ltb (at_ invite) oldest.2
  then (secret invite, at_ invite) else oldest.

(** [traversal] is the sequence of invites that the iterator of the hash
    goes through, whose order the hash does not fix. The result carries
    [*outSecret]. *)
Definition removeOldestInvite (traversal : list Invite) : ST (bool * string) :=
  let oldest := foldl olderOf (""%string, ""%string) traversal in
  let oldestSecret := oldest.1 in
  if negb (isEmpty oldestSecret) then
    removed ← removeInvite oldestSecret;
    mret (removed, oldestSecret)
  else mret (false, oldestSecret).

(** [purgeThumbnail] *)
Definition purgeThumbnail : ST unit :=
  written ← hook (setThumbnail []); mret tt.

Section CatchupKey.
Context `{!Limits}.

(** The reference parameter goes in as [nextCatchupKey] and comes out as
    the second component. *)
Definition incrementNextCatchupKey (nextCatchupKey : Z) : Z * Z :=
  let result := nextCatchupKey in
  (result, if result <? MAX_CATCHUP_KEY then result + 1 else MIN_CATCHUP_KEY).

End CatchupKey.

(** *** Authenticated identities

    [m_authOps], [m_authTrusted] and [m_authUsernames] are touched by no
    other member function; the functions on them are modelled on the
    members themselves. [Q_ASSERT(!authId.isEmpty())] is a precondition of
    the inserting calls. *)
Definition setAuthenticatedOperator (authId : string) (op : bool)
    (m_authOps : gset string) : gset string :=
  if op then {[authId]} ∪ m_authOps else m_authOps ∖ {[authId]}.

Definition setAuthenticatedTrust (authId : string) (trusted : bool)
    (m_authTrusted : gset string) : gset string :=
  if trusted then {[authId]} ∪ m_authTrusted else m_authTrusted ∖ {[authId]}.

Definition setAuthenticatedUsername (authId username : string)
    (m_authUsernames : gmap string string) : gmap string string :=
  <[authId := username]> m_authUsernames.

(** [nullptr] is [None]. *)
Definition authenticatedUsernameFor (authId : string)
    (m_authUsernames : gmap string string) : option string :=
  m_authUsernames !! authId.
End WithEnv.
End SessionHistory.

(** ** JSON values and the server command codec *)

Section Json.
Context {double : Type}.

(** [QJsonValue]: the payload of a number is a [double]. An object maps its
    keys to values and two objects with the same entries are equal. *)
Inductive QJsonValue : Type :=
| JNull
| JUndefined
| JBool (b : bool)
| JDouble (d : double)
| JString (q : string)
| JArray (a : list QJsonValue)
| JObject (o : gmap string QJsonValue).

#[local] Abbreviation QJsonArray := (list QJsonValue).
#[local] Abbreviation QJsonObject := (gmap string QJsonValue).

(** A [QJsonDocument] holds an object, an array, or nothing. *)
Variant QJsonDocument : Type :=
| DocNull
| DocArray (a : QJsonArray)
| DocObject (o : QJsonObject).

(** [QJsonDocument::object]: the empty object unless the document holds an
    object. *)
Definition object (doc : QJsonDocument) : QJsonObject :=
  match doc with DocObject o => o | _ => ∅ end.

(** [QJsonObject::value] and the [const] [operator[]]. *)
Definition value (key : string) (o : QJsonObject) : QJsonValue :=
  default JUndefined (o !! key).

(** [QJsonValue::toString], [toArray], [toObject]: the default-constructed
    value unless the type matches. *)
Definition toString (v : QJsonValue) : string :=
  match v with JString q => q | _ => ""%string end.
Definition toArray (v : QJsonValue) : QJsonArray :=
  match v with JArray a => a | _ => [] end.
Definition toObject (v : QJsonValue) : QJsonObject :=
  match v with JObject o => o | _ => ∅ end.

(** [QJsonArray::isEmpty], [QJsonObject::isEmpty] *)
Definition array_isEmpty (a : QJsonArray) : bool :=
  match a with [] => true | _ => false end.
Definition object_isEmpty (o : QJsonObject) : bool :=
  bool_decide (size o = 0%nat).

End Json.

Arguments QJsonValue : clear implicits.
Arguments QJsonDocument : clear implicits.

(** [QJsonArray] and [QJsonObject] *)
Abbreviation QJsonArray double := (list (QJsonValue double)).
Abbreviation QJsonObject double := (gmap string (QJsonValue double)).

(** What the codec takes from Qt and from the generated message headers:
    the compact writer and the parser of [QJsonDocument] ([None] is a parse
    error) and three constants. *)
Class Codec (double : Type) : Type := {
  QJsonDocument_toJson : QJsonDocument double -> list Byte.byte;
  QJsonDocument_fromJson : list Byte.byte -> option (QJsonDocument double);
  DP_MSG_SERVER_COMMAND : Z;
  DP_MESSAGE_HEADER_LENGTH : Z;
  DP_MESSAGE_MAX_PAYLOAD_LENGTH : Z;
}.

(** [ServerReply::ReplyType] *)
Module ReplyType.
Variant t : Set :=
  Unknown | Login | Message | Alert | Error | Result | Log | SessionConf
  | SizeLimitWarning | Status | Reset | ResetRequest | Catchup | CaughtUp
  | BanImpEx | OutOfSpace | StreamStart | StreamProgress | PasswordChange
  | InviteCreated | Thumbnail.
End ReplyType.

#[global] Instance ReplyType_eq_dec : EqDecision ReplyType.t.
Proof. solve_decision. Defined.

Section ServerCmd.
Context {double : Type} `{!Codec double}.

(** Modelled from the spec: [net::makeServerCommandMessage] is defined in
    the message module, which is not among the sources. It wraps the
    compact JSON text of the document in a server command message when the
    text fits in a message payload, and gives the null message otherwise. *)
Definition makeServerCommandMessage (contextId : Z)
    (doc : QJsonDocument double) : Message.t :=
  let bytes := QJsonDocument_toJson doc in
  if Z.of_nat (length bytes) <=? DP_MESSAGE_MAX_PAYLOAD_LENGTH then
    Message.mk false DP_MSG_SERVER_COMMAND contextId
      (DP_MESSAGE_HEADER_LENGTH + Z.of_nat (length bytes)) true false bytes
  else Message.null.

Record ServerCommand : Type := mkServerCommand {
  cmd : string;
  args : QJsonArray double;
  kwargs : QJsonObject double;
}.

Record ServerReply : Type := mkServerReply {
  type : ReplyType.t;
  message : string;
  reply : QJsonObject double;
}.

Definition ServerCommand_toMessage (x : ServerCommand) : Message.t :=
  let data : QJsonObject double := {[ "cmd"%string := JString (cmd x) ]} in
  let data :=
    if negb (array_isEmpty (args x))
    then <["args"%string := JArray (args x)]> data else data in
  let data :=
    if negb (object_isEmpty (kwargs x))
    then <["kwargs"%string := JObject (kwargs x)]> data else data in
  makeServerCommandMessage 0 (DocObject data).

(** The source indexes a local copy of the object with the [operator[]]
    that is not [const], which puts a null value under a key that is
    missing; the copy is dropped, and a null value converts to the same
    empty string, array and object as an undefined one. *)
Definition ServerCommand_fromJson (doc : QJsonDocument double)
    : ServerCommand :=
  let data := object doc in
  mkServerCommand (toString (value "cmd" data)) (toArray (value "args" data))
                  (toObject (value "kwargs" data)).

Definition ServerCommand_fromMessage (msg : Message.t) : ServerCommand :=
  if Message.isNull msg || negb (Message.type msg =? DP_MSG_SERVER_COMMAND)
  then mkServerCommand "" [] ∅
  else
    match QJsonDocument_fromJson (Message.payload msg) with
    | None => mkServerCommand "" [] ∅
    | Some doc => ServerCommand_fromJson doc
    end.

Definition ServerReply_fromJson (doc : QJsonDocument double) : ServerReply :=
  let data := object doc in
  let typestr := toString (value "type" data) in
  let type :=
    if String.eqb typestr "login" then ReplyType.Login
    else if String.eqb typestr "msg" then ReplyType.Message
    else if String.eqb typestr "alert" then ReplyType.Alert
    else if String.eqb typestr "error" then ReplyType.Error
    else if String.eqb typestr "result" then ReplyType.Result
    else if String.eqb typestr "log" then ReplyType.Log
    else if String.eqb typestr "sessionconf" then ReplyType.SessionConf
    else if String.eqb typestr "sizelimit" then ReplyType.SizeLimitWarning
    else if String.eqb typestr "status" then ReplyType.Status
    else if String.eqb typestr "reset" then ReplyType.Reset
    else if String.eqb typestr "autoreset" then ReplyType.ResetRequest
    else if String.eqb typestr "catchup" then ReplyType.Catchup
    else if String.eqb typestr "caughtup" then ReplyType.CaughtUp
    else if String.eqb typestr "banimpex" then ReplyType.BanImpEx
    else if String.eqb typestr "outofspace" then ReplyType.OutOfSpace
    else if String.eqb typestr "sstart" then ReplyType.StreamStart
    else if String.eqb typestr "sprogress" then ReplyType.StreamProgress
    else if String.eqb typestr "passwordchange" then ReplyType.PasswordChange
    else if String.eqb typestr "invitecreated" then ReplyType.InviteCreated
    else if String.eqb typestr "thumbnail" then ReplyType.Thumbnail
    else ReplyType.Unknown in
  mkServerReply type (toString (value "message" data)) data.

Definition ServerReply_fromMessage (msg : Message.t) : ServerReply :=
  if Message.isNull msg || negb (Message.type msg =? DP_MSG_SERVER_COMMAND)
  then mkServerReply ReplyType.Unknown "" ∅
  else
    match QJsonDocument_fromJson (Message.payload msg) with
    | None => mkServerReply ReplyType.Unknown "" ∅
    | Some doc => ServerReply_fromJson doc
    end.

(** The table of the specification: the closed set of known type tags,
    each with its reply type. *)
Definition knownTags : list (string * ReplyType.t) :=
  [ ("login", ReplyType.Login); ("msg", ReplyType.Message);
    ("alert", ReplyType.Alert); ("error", ReplyType.Error);
    ("result", ReplyType.Result); ("log", ReplyType.Log);
    ("sessionconf", ReplyType.SessionConf);
    ("sizelimit", ReplyType.SizeLimitWarning); ("status", ReplyType.Status);
    ("reset", ReplyType.Reset); ("autoreset", ReplyType.ResetRequest);
    ("catchup", ReplyType.Catchup); ("caughtup", ReplyType.CaughtUp);
    ("banimpex", ReplyType.BanImpEx); ("outofspace", ReplyType.OutOfSpace);
    ("sstart", ReplyType.StreamStart); ("sprogress", ReplyType.StreamProgress);
    ("passwordchange", ReplyType.PasswordChange);
    ("invitecreated", ReplyType.InviteCreated);
    ("thumbnail", ReplyType.Thumbnail) ]%string.

(** The reply type that the table gives a tag: [Unknown] for a tag that is
    not in it. *)
Fixpoint tagType (table : list (string * ReplyType.t)) (tag : string)
    : ReplyType.t :=
  match table with
  | [] => ReplyType.Unknown
  | (known, ty) :: rest => if String.eqb tag known then ty else tagType rest tag
  end.

(** The document that [ServerCommand::toMessage] hands to
    [makeServerCommandMessage]. *)
Definition encodedDocument (x : ServerCommand) : QJsonDocument double :=
  let data : QJsonObject double := {[ "cmd"%string := JString (cmd x) ]} in
  let data :=
    if negb (array_isEmpty (args x))
    then <["args"%string := JArray (args x)]> data else data in
  let data :=
    if negb (object_isEmpty (kwargs x))
    then <["kwargs"%string := JObject (kwargs x)]> data else data in
  DocObject data.

(** The encoded form fits in a message. *)
Definition fitsInMessage (doc : QJsonDocument double) : Prop :=
  Z.of_nat (length (QJsonDocument_toJson doc)) <= DP_MESSAGE_MAX_PAYLOAD_LENGTH.

(** The parser reads back what the writer wrote for this document. *)
Definition readsBack (doc : QJsonDocument double) : Prop :=
  QJsonDocument_fromJson (QJsonDocument_toJson doc) = Some doc.

End ServerCmd.

(** ** Builders of server commands and replies *)

(** The conversion that [QJsonValue(int)] applies to its argument. *)
Class Numbers (double : Type) : Type := {
  fromInt : Z -> double;
}.

Section Builders.
Context {double : Type} `{!Codec double} `{!Numbers double}.

(** [QJsonObject(std::initializer_list)]: the pairs are inserted in their
    order. *)
Definition QJsonObject_of (entries : list (string * QJsonValue double))
    : QJsonObject double :=
  foldl (fun o entry => <[entry.1 := entry.2]> o) ∅ entries.

Definition JInt (i : Z) : QJsonValue double := JDouble (fromInt i).

(** *** [ServerCommand] *)

Definition ServerCommand_make (cmd : string) (args : QJsonArray double)
    (kwargs : QJsonObject double) : Message.t :=
  ServerCommand_toMessage (mkServerCommand cmd args kwargs).

(** [Q_ASSERT(target > 0 && target < 256)] is a precondition. *)
Definition ServerCommand_makeKick (target : Z) (ban : bool) : Message.t :=
  let kwargs : QJsonObject double :=
    if ban then <["ban"%string := JBool true]> ∅ else ∅ in
  ServerCommand_make "kick-user" [JInt target] kwargs.

Definition ServerCommand_makeUnban (entryId : Z) : Message.t :=
  ServerCommand_make "remove-ban" [JInt entryId] ∅.

Definition ServerCommand_makeMute (target : Z) (mute : bool) : Message.t :=
  ServerCommand_make "mute" [JInt target; JBool mute] ∅.

Definition ServerCommand_makeAnnounce (url : string) : Message.t :=
  ServerCommand_make "announce-session" [JString url] ∅.

Definition ServerCommand_makeUnannounce (url : string) : Message.t :=
  ServerCommand_make "unlist-session" [JString url] ∅.

Definition rateAutoresetOs (os : string) : Z :=
  if String.eqb os "emscripten" || String.eqb os "android"
     || String.eqb os "ios"
  then -1
  else if String.eqb os "windows" || String.eqb os "macos"
          || String.eqb os "linux" || String.eqb os "unix"
  then 1
  else 0.

(** *** [ServerReply]

    Each builder hands an object to [make]; the object is named after the
    builder, with [_data] for the local of that name. *)

Definition ServerReply_make (data : QJsonObject double) : Message.t :=
  makeServerCommandMessage 0 (DocObject data).

Definition makeError_data (message code : string) : QJsonObject double :=
  QJsonObject_of [("type", JString "error"); ("message", JString message);
                  ("code", JString code)]%string.
Definition ServerReply_makeError (message code : string) : Message.t :=
  ServerReply_make (makeError_data message code).

(** [QStringLiteral("%1: %2").arg(command, message)] fills both places in
    one pass. *)
Definition makeCommandError_data (command message : string)
    : QJsonObject double :=
  QJsonObject_of [("type", JString "error");
                  ("message", JString (command +:+ ": " +:+ message))]%string.
Definition ServerReply_makeCommandError (command message : string)
    : Message.t :=
  ServerReply_make (makeCommandError_data command message).

Definition makeBanExportResult_data (data : string) : QJsonObject double :=
  QJsonObject_of [("type", JString "banimpex"); ("export", JString data)]%string.
Definition ServerReply_makeBanExportResult (data : string) : Message.t :=
  ServerReply_make (makeBanExportResult_data data).

Definition makeBanImportResult_data (total imported : Z)
    : QJsonObject double :=
  QJsonObject_of [("type", JString "banimpex"); ("imported", JInt imported);
                  ("total", JInt total)]%string.
Definition ServerReply_makeBanImportResult (total imported : Z) : Message.t :=
  ServerReply_make (makeBanImportResult_data total imported).

Definition makeBanImpExError_data (message key : string)
    : QJsonObject double :=
  QJsonObject_of [("type", JString "banimpex"); ("error", JString message);
                  ("T", JString key)]%string.
Definition ServerReply_makeBanImpExError (message key : string) : Message.t :=
  ServerReply_make (makeBanImpExError_data message key).

Definition makeMessage_data (message : string) : QJsonObject double :=
  QJsonObject_of [("type", JString "msg"); ("message", JString message)]%string.
Definition ServerReply_makeMessage (message : string) : Message.t :=
  ServerReply_make (makeMessage_data message).

Definition makeAlert_data (message : string) : QJsonObject double :=
  QJsonObject_of [("type", JString "alert");
                  ("message", JString message)]%string.
Definition ServerReply_makeAlert (message : string) : Message.t :=
  ServerReply_make (makeAlert_data message).

(** [if(!params.isEmpty()) data["P"] = params] *)
Definition withParams (params : QJsonObject double)
    (data : QJsonObject double) : QJsonObject double :=
  if negb (object_isEmpty params)
  then <["P"%string := JObject params]> data else data.

Definition makeKeyMessage_data (message key : string)
    (params : QJsonObject double) : QJsonObject double :=
  withParams params
    (QJsonObject_of [("type", JString "msg"); ("message", JString message);
                     ("T", JString key)]%string).
Definition ServerReply_makeKeyMessage (message key : string)
    (params : QJsonObject double) : Message.t :=
  ServerReply_make (makeKeyMessage_data message key params).

Definition makeKeyAlert_data (message key : string)
    (params : QJsonObject double) : QJsonObject double :=
  withParams params
    (QJsonObject_of [("type", JString "alert"); ("message", JString message);
                     ("T", JString key)]%string).
Definition ServerReply_makeKeyAlert (message key : string)
    (params : QJsonObject double) : Message.t :=
  ServerReply_make (makeKeyAlert_data message key params).

Definition makeKeyAlertReset_data (message reset key : string)
    (params : QJsonObject double) : QJsonObject double :=
  withParams params
    (QJsonObject_of [("type", JString "alert"); ("message", JString message);
                     ("reset", JString reset); ("T", JString key)]%string).
Definition ServerReply_makeKeyAlertReset (message reset key : string)
    (params : QJsonObject double) : Message.t :=
  ServerReply_make (makeKeyAlertReset_data message reset key params).

Definition makeCatchup_data (count key : Z) : QJsonObject double :=
  let data : QJsonObject double :=
    QJsonObject_of [("type", JString "catchup"); ("count", JInt count)]%string in
  if negb (key =? -1) then <["key"%string := JInt key]> data else data.
Definition ServerReply_makeCatchup (count key : Z) : Message.t :=
  ServerReply_make (makeCatchup_data count key).

Definition makeCaughtUp_data (key : Z) : QJsonObject double :=
  QJsonObject_of [("type", JString "caughtup"); ("key", JInt key)]%string.
Definition ServerReply_makeCaughtUp (key : Z) : Message.t :=
  ServerReply_make (makeCaughtUp_data key).

(** The object of the caller comes by value and gets its two keys
    assigned. *)
Definition makeLog_data (message : string) (data : QJsonObject double)
    : QJsonObject double :=
  <["message"%string := JString message]>
    (<["type"%string := JString "log"]> data).
Definition ServerReply_makeLog (message : string) (data : QJsonObject double)
    : Message.t :=
  ServerReply_make (makeLog_data message data).

Definition makeLoginGreeting_data (message : string) (version : Z)
    (flags : QJsonArray double) (methods : QJsonObject double)
    (info rules : string) (preferWebSockets : bool) : QJsonObject double :=
  let data : QJsonObject double :=
    QJsonObject_of [("type", JString "login"); ("message", JString message);
                    ("version", JInt version); ("flags", JArray flags);
                    ("methods", JObject methods)]%string in
  let data :=
    if negb (SessionHistory.isEmpty info)
    then <["info"%string := JString info]> data else data in
  let data :=
    if negb (SessionHistory.isEmpty rules)
    then <["rules"%string := JString rules]> data else data in
  if preferWebSockets
  then <["preferWebSockets"%string := JBool true]> data else data.
Definition ServerReply_makeLoginGreeting (message : string) (version : Z)
    (flags : QJsonArray double) (methods : QJsonObject double)
    (info rules : string) (preferWebSockets : bool) : Message.t :=
  ServerReply_make
    (makeLoginGreeting_data message version flags methods info rules
       preferWebSockets).

Definition makeLoginWelcome_data (message title : string)
    (sessions : QJsonArray double) : QJsonObject double :=
  QJsonObject_of [("type", JString "login"); ("message", JString message);
                  ("title", JString title);
                  ("sessions", JArray sessions)]%string.
Definition ServerReply_makeLoginWelcome (message title : string)
    (sessions : QJsonArray double) : Message.t :=
  ServerReply_make (makeLoginWelcome_data message title sessions).

Definition makeLoginTitle_data (message title : string)
    : QJsonObject double :=
  QJsonObject_of [("type", JString "login"); ("message", JString message);
                  ("title", JString title)]%string.
Definition ServerReply_makeLoginTitle (message title : string) : Message.t :=
  ServerReply_make (makeLoginTitle_data message title).

Definition makeLoginSessions_data (message : string)
    (sessions : QJsonArray double) : QJsonObject double :=
  QJsonObject_of [("type", JString "login"); ("message", JString message);
                  ("sessions", JArray sessions)]%string.
Definition ServerReply_makeLoginSessions (message : string)
    (sessions : QJsonArray double) : Message.t :=
  ServerReply_make (makeLoginSessions_data message sessions).

Definition makeLoginRemoveSessions_data (message : string)
    (remove : QJsonArray double) : QJsonObject double :=
  QJsonObject_of [("type", JString "login"); ("message", JString message);
                  ("remove", JArray remove)]%string.
Definition ServerReply_makeLoginRemoveSessions (message : string)
    (remove : QJsonArray double) : Message.t :=
  ServerReply_make (makeLoginRemoveSessions_data message remove).

Definition makeReset_data (message state : string) : QJsonObject double :=
  QJsonObject_of [("type", JString "reset"); ("message", JString message);
                  ("state", JString state)]%string.
Definition ServerReply_makeReset (message state : string) : Message.t :=
  ServerReply_make (makeReset_data message state).

Definition makeResetQuery_data (maxSize : Z) (payload : string)
    : QJsonObject double :=
  QJsonObject_of [("type", JString "autoreset"); ("maxSize", JInt maxSize);
                  ("query", JBool true); ("payload", JString payload)]%string.
Definition ServerReply_makeResetQuery (maxSize : Z) (payload : string)
    : Message.t :=
  ServerReply_make (makeResetQuery_data maxSize payload).

Definition makeResetRequest_data (maxSize : Z) : QJsonObject double :=
  QJsonObject_of [("type", JString "autoreset"); ("maxSize", JInt maxSize);
                  ("query", JBool false)]%string.
Definition ServerReply_makeResetRequest (maxSize : Z) : Message.t :=
  ServerReply_make (makeResetRequest_data maxSize).

Definition makeStreamedResetRequest_data (maxSize : Z)
    (correlator stream : string) : QJsonObject double :=
  QJsonObject_of [("type", JString "autoreset"); ("maxSize", JInt maxSize);
                  ("query", JBool false); ("correlator", JString correlator);
                  ("stream", JString stream)]%string.
Definition ServerReply_makeStreamedResetRequest (maxSize : Z)
    (correlator stream : string) : Message.t :=
  ServerReply_make (makeStreamedResetRequest_data maxSize correlator stream).

(** The two builders of the streamed reset address the message to a
    context id instead of going through [make]. *)
Definition makeStreamedResetStart_data (correlator : string)
    : QJsonObject double :=
  QJsonObject_of [("type", JString "sstart");
                  ("correlator", JString correlator)]%string.
Definition ServerReply_makeStreamedResetStart (contextId : Z)
    (correlator : string) : Message.t :=
  makeServerCommandMessage contextId
    (DocObject (makeStreamedResetStart_data correlator)).

Definition makeStreamedResetProgress_data (cancel : bool)
    : QJsonObject double :=
  QJsonObject_of [("type", JString "sprogress"); ("cancel", JBool cancel)]%string.
Definition ServerReply_makeStreamedResetProgress (contextId : Z)
    (cancel : bool) : Message.t :=
  makeServerCommandMessage contextId
    (DocObject (makeStreamedResetProgress_data cancel)).

Definition makeResultClientInfo_data (message : string) (browser : bool)
    : QJsonObject double :=
  QJsonObject_of
    [("type", JString "result"); ("message", JString message);
     ("cinfo", JObject (QJsonObject_of [("browser", JBool browser)]))]%string.
Definition ServerReply_makeResultClientInfo (message : string)
    (browser : bool) : Message.t :=
  ServerReply_make (makeResultClientInfo_data message browser).

Definition makeResultHostLookup_data (message : string)
    : QJsonObject double :=
  QJsonObject_of [("type", JString "result"); ("message", JString message);
                  ("lookup", JString "host")]%string.
Definition ServerReply_makeResultHostLookup (message : string) : Message.t :=
  ServerReply_make (makeResultHostLookup_data message).

Definition makeResultJoinLookup_data (message : string)
    (session : QJsonObject double) : QJsonObject double :=
  let data : QJsonObject double :=
    QJsonObject_of [("type", JString "result"); ("message", JString message);
                    ("lookup", JString "join")]%string in
  if negb (object_isEmpty session)
  then <["session"%string := JObject session]> data else data.
Definition ServerReply_makeResultJoinLookup (message : string)
    (session : QJsonObject double) : Message.t :=
  ServerReply_make (makeResultJoinLookup_data message session).

Definition makeResultPasswordNeeded_data (message state : string)
    : QJsonObject double :=
  QJsonObject_of [("type", JString "result"); ("message", JString message);
                  ("state", JString state)]%string.
Definition ServerReply_makeResultPasswordNeeded (message state : string)
    : Message.t :=
  ServerReply_make (makeResultPasswordNeeded_data message state).

Definition makeResultLoginOk_data (message state : string)
    (flags : QJsonArray double) (ident : string) (guest : bool)
    : QJsonObject double :=
  QJsonObject_of [("type", JString "result"); ("message", JString message);
                  ("state", JString state); ("flags", JArray flags);
                  ("ident", JString ident); ("guest", JBool guest)]%string.
Definition ServerReply_makeResultLoginOk (message state : string)
    (flags : QJsonArray double) (ident : string) (guest : bool) : Message.t :=
  ServerReply_make (makeResultLoginOk_data message state flags ident guest).

Definition makeResultExtAuthNeeded_data
    (message state extauthurl nonce group : string) (avatar : bool)
    : QJsonObject double :=
  QJsonObject_of [("type", JString "result"); ("message", JString message);
                  ("state", JString state);
                  ("extauthurl", JString extauthurl);
                  ("nonce", JString nonce); ("group", JString group);
                  ("avatar", JBool avatar)]%string.
Definition ServerReply_makeResultExtAuthNeeded
    (message state extauthurl nonce group : string) (avatar : bool)
    : Message.t :=
  ServerReply_make
    (makeResultExtAuthNeeded_data message state extauthurl nonce group avatar).

Definition makeResultJoinHost_data (message state : string)
    (join : QJsonObject double) : QJsonObject double :=
  QJsonObject_of [("type", JString "result"); ("message", JString message);
                  ("state", JString state); ("join", JObject join)]%string.
Definition ServerReply_makeResultJoinHost (message state : string)
    (join : QJsonObject double) : Message.t :=
  ServerReply_make (makeResultJoinHost_data message state join).

Definition makeResultStartTls_data (message : string) (startTls : bool)
    : QJsonObject double :=
  QJsonObject_of [("type", JString "result"); ("message", JString message);
                  ("startTls", JBool startTls)]%string.
Definition ServerReply_makeResultStartTls (message : string)
    (startTls : bool) : Message.t :=
  ServerReply_make (makeResultStartTls_data message startTls).

Definition makeResultIdentIntentMismatch_data
    (message intent method : string) (extAuthFallback : bool)
    : QJsonObject double :=
  let data : QJsonObject double :=
    QJsonObject_of [("type", JString "result");
                    ("state", JString "intentMismatch");
                    ("message", JString message);
                    ("intent", JString intent);
                    ("method", JString method)]%string in
  if extAuthFallback
  then <["extauthfallback"%string := JBool true]> data else data.
Definition ServerReply_makeResultIdentIntentMismatch
    (message intent method : string) (extAuthFallback : bool) : Message.t :=
  ServerReply_make
    (makeResultIdentIntentMismatch_data message intent method extAuthFallback).

Definition makeResultGarbage_data : QJsonObject double :=
  QJsonObject_of [("type", JString "result");
                  ("message", JString "check authentication");
                  ("state", JString "checkauth")]%string.
Definition ServerReply_makeResultGarbage : Message.t :=
  ServerReply_make makeResultGarbage_data.

Definition makeSessionConf_data (config : QJsonObject double)
    : QJsonObject double :=
  QJsonObject_of [("type", JString "sessionconf");
                  ("config", JObject config)]%string.
Definition ServerReply_makeSessionConf (config : QJsonObject double)
    : Message.t :=
  ServerReply_make (makeSessionConf_data config).

Definition makePasswordChange_data (password : string)
    : QJsonObject double :=
  QJsonObject_of [("type", JString "passwordchange");
                  ("password", JString password)]%string.
Definition ServerReply_makePasswordChange (password : string) : Message.t :=
  ServerReply_make (makePasswordChange_data password).

Definition makeSizeLimitWarning_data (size maxSize : Z)
    : QJsonObject double :=
  QJsonObject_of [("type", JString "sizelimit"); ("size", JInt size);
                  ("maxSize", JInt maxSize)]%string.
Definition ServerReply_makeSizeLimitWarning (size maxSize : Z) : Message.t :=
  ServerReply_make (makeSizeLimitWarning_data size maxSize).

Definition makeOutOfSpace_data : QJsonObject double :=
  QJsonObject_of [("type", JString "outofspace")]%string.
Definition ServerReply_makeOutOfSpace : Message.t :=
  ServerReply_make makeOutOfSpace_data.

Definition makeStatusUpdate_data (size : Z) : QJsonObject double :=
  QJsonObject_of [("type", JString "status"); ("size", JInt size)]%string.
Definition ServerReply_makeStatusUpdate (size : Z) : Message.t :=
  ServerReply_make (makeStatusUpdate_data size).

Definition makeInviteCreated_data (secret : string) : QJsonObject double :=
  QJsonObject_of [("type", JString "invitecreated");
                  ("secret", JString secret)]%string.
Definition ServerReply_makeInviteCreated (secret : string) : Message.t :=
  ServerReply_make (makeInviteCreated_data secret).

Definition makeThumbnailQuery_data (payload : string) : QJsonObject double :=
  QJsonObject_of [("type", JString "thumbnail"); ("query", JBool true);
                  ("payload", JString payload)]%string.
Definition ServerReply_makeThumbnailQuery (payload : string) : Message.t :=
  ServerReply_make (makeThumbnailQuery_data payload).

Definition makeThumbnail_data (correlator : string)
    (maxWidth maxHeight quality : Z) (format : string)
    : QJsonObject double :=
  let json : QJsonObject double :=
    QJsonObject_of [("type", JString "thumbnail");
                    ("correlator", JString correlator)]%string in
  let json :=
    if 0 <? maxWidth then <["maxWidth"%string := JInt maxWidth]> json
    else json in
  let json :=
    if 0 <? maxHeight then <["maxHeight"%string := JInt maxHeight]> json
    else json in
  let json :=
    if 0 <? quality then <["quality"%string := JInt quality]> json
    else json in
  if negb (SessionHistory.isEmpty format)
  then <["format"%string := JString format]> json else json.
Definition ServerReply_makeThumbnail (correlator : string)
    (maxWidth maxHeight quality : Z) (format : string) : Message.t :=
  ServerReply_make
    (makeThumbnail_data correlator maxWidth maxHeight quality format).

(** *** The JSON of an invite ([libserver/sessionhistory.cpp]) *)

Definition InviteUse_toJson (use : InviteUse) (sid : string)
    : QJsonObject double :=
  let json : QJsonObject double :=
    QJsonObject_of [("name", JString (iu_name use));
                    ("at", JString (iu_at use))]%string in
  if SessionHistory.isEmpty sid
  then <["s"%string := JString sid]> json else json.

(** [traversal] is the sequence of keys and uses that the iterator of the
    hash goes through, whose order the hash does not fix. *)
Definition Invite_usesToJson (traversal : list (string * InviteUse))
    (full : bool) : QJsonArray double :=
  map (fun entry =>
         JObject (InviteUse_toJson entry.2
                    (if full then entry.1 else ""%string)))
      traversal.

Definition Invite_toJson (invite : Invite)
    (traversal : list (string * InviteUse)) (full : bool)
    : QJsonObject double :=
  let json : QJsonObject double :=
    QJsonObject_of [("secret", JString (secret invite));
                    ("at", JString (at_ invite));
                    ("maxUses", JInt (maxUses invite));
                    ("uses", JArray (Invite_usesToJson traversal full))]%string
  in
  let json :=
    if negb (SessionHistory.isEmpty (creator invite))
    then <["creator"%string := JString (creator invite)]> json else json in
  let json :=
    if op invite then <["op"%string := JBool (op invite)]> json else json in
  if trust invite
  then <["trust"%string := JBool (trust invite)]> json else json.

End Builders.

(** ** A memory-backed history and a toy consumer, for concrete runs

    The scenarios of the specification are run on the smallest environment
    that implements every hook: the live log and the pending log are lists,
    and a chunk of a reset stream holds one inner message per byte, the
    byte being the length of that message. *)

Record MemoryHistory : Type := mkMemoryHistory {
  mh_overrideSizeLimit : Z;
  mh_log : MessageList;
  mh_pending : option MessageList;
  mh_thumbnail : list Byte.byte;
}.

(** A drawing command of [len] bytes sent by user 1. *)
Definition plainMessage (len : Z) : Message.t :=
  Message.mk false 128 1 len false false [].

(** A reset stream chunk sent by user [ctx]. *)
Definition chunkMessage (ctx : Z) (data : list Byte.byte) : Message.t :=
  Message.mk false 9 ctx (4 + Z.of_nat (length data)) true false data.

#[export] Instance MemoryEnv : Env MemoryHistory unit := {|
  overrideSizeLimit := mh_overrideSizeLimit;
  historyAdd msg w :=
    mkMemoryHistory (mh_overrideSizeLimit w) (mh_log w ++ [msg])
                    (mh_pending w) (mh_thumbnail w);
  historyReset msgs w :=
    mkMemoryHistory (mh_overrideSizeLimit w) msgs (mh_pending w)
                    (mh_thumbnail w);
  openResetStream seed w :=
    (StreamResetStartResult.Ok,
     mkMemoryHistory (mh_overrideSizeLimit w) (mh_log w) (Some seed)
                     (mh_thumbnail w));
  addResetStreamMessage msg w :=
    match mh_pending w with
    | Some pending =>
        (StreamResetAddResult.Ok,
         mkMemoryHistory (mh_overrideSizeLimit w) (mh_log w)
                         (Some (pending ++ [msg])) (mh_thumbnail w))
    | None => (StreamResetAddResult.ConsumerError, w)
    end;
  prepareResetStream w := (StreamResetPrepareResult.Ok, w);
  resolveResetStream _ w :=
    match mh_pending w with
    | Some pending =>
        (mkResolveOutcome true (Z.of_nat (length pending))
           (foldr (fun msg acc => Message.length msg + acc) 0 pending) None,
         mkMemoryHistory (mh_overrideSizeLimit w) pending None
                         (mh_thumbnail w))
    | None => (mkResolveOutcome false 0 0 (Some "no pending log"%string), w)
    end;
  discardResetStream w :=
    mkMemoryHistory (mh_overrideSizeLimit w) (mh_log w) None (mh_thumbnail w);
  setThumbnail bytes w :=
    (true,
     mkMemoryHistory (mh_overrideSizeLimit w) (mh_log w) (mh_pending w) bytes);
  DP_reset_stream_consumer_new w := (Some tt, w);
  consumer_decode data c :=
    (map (fun b => plainMessage (Z.of_N (Byte.to_N b))) data, true, c);
  consumer_finish _ := ([], true);
  DP_MSG_CHAT := 35;
  DP_MSG_RESET_STREAM := 9;
  emergencySpace := 512;
  makeSoftResetMessage ctx := Message.mk false 34 ctx 4 false true [];
  makeStreamedResetStart ctx _ := Message.mk false 0 0 40 true false [];
  makeCaughtUp _ := Message.mk false 0 0 30 true false [];
|}.

(** A session that was just created, with [base] as its size limit. *)
Definition newSession (base : Z) (w : MemoryHistory)
    : SessionHistory.t (W:=MemoryHistory) (C:=unit) :=
  SessionHistory.mk "session" 0 0 (-1) 0 base 0 RSNone 0 0 0 0
    StreamResetAddResult.Ok None ∅ 0 "" 0 w.

Definition emptyMemory : MemoryHistory := mkMemoryHistory 0 [] None [].

(** A session in which user 7 is streaming a reset and has sent nothing. *)
Definition streamingSession (base : Z)
    : SessionHistory.t (W:=MemoryHistory) (C:=unit) :=
  SessionHistory.mk "session" 0 0 1 44 base 0 RSStreaming 7 0 2 0
    StreamResetAddResult.Ok None ∅ 0 "" 0
    (mkMemoryHistory 0 [] (Some []) []).

(** A session with one invite that the client with key [k1] has used under
    the name [bob]. *)
Definition invitedSession : SessionHistory.t (W:=MemoryHistory) (C:=unit) :=
  SessionHistory.set_invites
    {[ "s3cr3t"%string :=
         mkInvite "s3cr3t" "alice" "2026-01-01T00:00:00Z" 2 true false
           {[ "k1"%string := mkInviteUse "bob" "2026-01-01T00:00:05Z" ]} ]}
    (newSession 0 emptyMemory).

(** A session with one invite for two uses that nobody has used yet. *)
Definition openInviteSession : SessionHistory.t (W:=MemoryHistory) (C:=unit) :=
  SessionHistory.set_invites
    {[ "s3cr3t"%string :=
         mkInvite "s3cr3t" "alice" "2026-01-01T00:00:00Z" 2 true false ∅ ]}
    (newSession 0 emptyMemory).

(** Runs a computation for its final state, and for its result. *)
Definition exec {A : Type} (m : SessionHistory.ST (W:=MemoryHistory) (C:=unit) A)
    (s : SessionHistory.t) : SessionHistory.t := (m s).2.
Definition eval {A : Type} (m : SessionHistory.ST (W:=MemoryHistory) (C:=unit) A)
    (s : SessionHistory.t) : A := (m s).1.

(** A codec for the fragment of JSON that holds the objects of the one key
    [cmd] with a string of letters: the text is the key and the string
    between the fixed bytes of the braces and quotes. *)
Definition cmdOpen : list Byte.byte :=
  [Byte.x7b; Byte.x22; Byte.x63; Byte.x6d; Byte.x64; Byte.x22; Byte.x3a;
   Byte.x22].
Definition cmdClose : list Byte.byte := [Byte.x22; Byte.x7d].

Definition byte_eqb_list (a b : list Byte.byte) : bool :=
  bool_decide (map Byte.to_N a = map Byte.to_N b).

Definition toyToJson (doc : QJsonDocument unit) : list Byte.byte :=
  match doc with
  | DocObject o =>
      match o !! "cmd"%string, size o with
      | Some (JString q), 1%nat =>
          cmdOpen ++ String.list_byte_of_string q ++ cmdClose
      | _, _ => []
      end
  | _ => []
  end.

Definition toyFromJson (bytes : list Byte.byte) : option (QJsonDocument unit) :=
  let n := length bytes in
  if (8 + 2 <=? n)%nat
     && byte_eqb_list (take 8 bytes) cmdOpen
     && byte_eqb_list (drop (n - 2) bytes) cmdClose
     && forallb (fun b => negb (Byte.eqb b Byte.x22) && negb (Byte.eqb b Byte.x5c))
                (take (n - 10) (drop 8 bytes))
  then
    Some (DocObject
            {[ "cmd"%string :=
                 JString (String.string_of_list_byte
                            (take (n - 10) (drop 8 bytes))) ]})
  else None.

#[export] Instance ToyCodec : Codec unit := {|
  QJsonDocument_toJson := toyToJson;
  QJsonDocument_fromJson := toyFromJson;
  DP_MSG_SERVER_COMMAND := 0;
  DP_MESSAGE_HEADER_LENGTH := 4;
  DP_MESSAGE_MAX_PAYLOAD_LENGTH := 65535;
|}.

(** A session in which the reset stream of user 7 is prepared: one inner
    message of five bytes was streamed and counted. *)
Definition preparedSession : SessionHistory.t (W:=MemoryHistory) (C:=unit) :=
  exec (SessionHistory.prepareStreamedReset 7 1)
    (exec (SessionHistory.addStreamResetMessage 7 (chunkMessage 7 [Byte.x05]))
       (streamingSession 0)).

(** Small limits, for runs that reach them. *)
#[export] Instance SmallLimits : Limits := {|
  MAX_INVITES := 2;
  MAX_INVITE_USES := 50;
  MIN_CATCHUP_KEY := 1;
  MAX_CATCHUP_KEY := 5;
|}.

(** An index into the log of a session that was just created. *)
Definition indexAt (pos : Z) : HistoryIndex.t :=
  HistoryIndex.mk true "session" 0 pos.

(** A session with two invites, the second of which was created half a
    year before the first. *)
Definition twoInviteSession : SessionHistory.t (W:=MemoryHistory) (C:=unit) :=
  SessionHistory.set_invites
    (<[ "0ld"%string :=
          mkInvite "0ld" "alice" "2025-06-01T00:00:00Z" 1 false false ∅ ]>
       {[ "s3cr3t"%string :=
            mkInvite "s3cr3t" "alice" "2026-01-01T00:00:00Z" 2 true false ∅ ]})
    (newSession 0 emptyMemory).

(** Numbers of JSON as integers, for runs that build replies. *)
#[export] Instance ZNumbers : Numbers Z := {| fromInt := id |}.

(** A codec for the replies of type [msg] whose message has no quote and
    no backslash: the text is what the compact writer gives, the message
    between the fixed bytes of the braces, the keys in their order, and
    the tag. *)
Definition msgOpen : list Byte.byte :=
  [Byte.x7b; Byte.x22; Byte.x6d; Byte.x65; Byte.x73; Byte.x73; Byte.x61;
   Byte.x67; Byte.x65; Byte.x22; Byte.x3a; Byte.x22].
Definition msgClose : list Byte.byte :=
  [Byte.x22; Byte.x2c; Byte.x22; Byte.x74; Byte.x79; Byte.x70; Byte.x65;
   Byte.x22; Byte.x3a; Byte.x22; Byte.x6d; Byte.x73; Byte.x67; Byte.x22;
   Byte.x7d].

Definition msgToJson (doc : QJsonDocument Z) : list Byte.byte :=
  match doc with
  | DocObject o =>
      match o !! "message"%string, o !! "type"%string, size o with
      | Some (JString text), Some (JString tag), 2%nat =>
          if String.eqb tag "msg"
          then msgOpen ++ String.list_byte_of_string text ++ msgClose
          else []
      | _, _, _ => []
      end
  | _ => []
  end.

Definition msgFromJson (bytes : list Byte.byte) : option (QJsonDocument Z) :=
  let n := length bytes in
  if (12 + 15 <=? n)%nat
     && byte_eqb_list (take 12 bytes) msgOpen
     && byte_eqb_list (drop (n - 15) bytes) msgClose
     && forallb (fun b => negb (Byte.eqb b Byte.x22) && negb (Byte.eqb b Byte.x5c))
                (take (n - 27) (drop 12 bytes))
  then
    Some (DocObject
            (<[ "message"%string :=
                  JString (String.string_of_list_byte
                             (take (n - 27) (drop 12 bytes))) ]>
               {[ "type"%string := JString "msg" ]}))
  else None.

Definition MsgCodec : Codec Z := {|
  QJsonDocument_toJson := msgToJson;
  QJsonDocument_fromJson := msgFromJson;
  DP_MSG_SERVER_COMMAND := 0;
  DP_MESSAGE_HEADER_LENGTH := 4;
  DP_MESSAGE_MAX_PAYLOAD_LENGTH := 65535;
|}.

(** ** Predicates of the specification *)

(** The sum of the lengths of a list of messages, as a number. *)
Definition totalLength (L : MessageList) : Z :=
  foldr (fun msg acc => Message.length msg + acc) 0 L.

(** Whether a string holds a colon (the character 58), the separator of
    the two fields of a correlator. *)
Fixpoint hasColon (q : string) : bool :=
  match q with
  | EmptyString => false
  | String a rest => Ascii.eqb a (Ascii.ascii_of_nat 58) || hasColon rest
  end.

(** The text of the correlator that [startThumbnailGeneration] forms from
    the counter and the clock. *)
Definition correlatorText (index now : Z) : string :=
  SessionHistory.QString_number_hex index +:+ ":"
  +:+ SessionHistory.QString_number_hex now.

Section Frames.
Context {W C : Type} `{!Env W C}.
Import SessionHistory.

Implicit Types (s : SessionHistory.t (W:=W) (C:=C)).

(** What the callback of the consumer leaves as it is: the indices of the
    live log, the state and the owner of the stream, and the size limit. *)
Definition emit_frame s s' : Prop :=
  m_firstIndex s' = m_firstIndex s
  /\ m_lastIndex s' = m_lastIndex s
  /\ m_resetStreamState s' = m_resetStreamState s
  /\ m_resetStreamCtxId s' = m_resetStreamCtxId s
  /\ m_baseSizeLimit s' = m_baseSizeLimit s.

(** What the streamed reset step [op] that ends in [s'] with result [r]
    keeps of the state [s] it started in: on an error the state of the
    stream is as before or [None]; [firstIndex] is as before; [lastIndex]
    is as before unless the step is a [startStreamedReset] past its checks,
    which adds two; and a start that returns [Ok] is past its checks. *)
Definition step_safe (op : StreamOp) s (r : StreamResult) s' : Prop :=
  (isError r = true ->
     m_resetStreamState s' = m_resetStreamState s
     \/ m_resetStreamState s' = RSNone)
  /\ m_firstIndex s' = m_firstIndex s
  /\ m_lastIndex s' = m_lastIndex s + (if marksLiveLog op s then 2 else 0)
  /\ (isStartedOk r = true -> marksLiveLog op s = true).

(** The inner messages that the callback lets past its type check: no
    control message, and of the server meta messages only chat. *)
Definition allowedInStream (msg : Message.t) : bool :=
  negb (Message.isControl msg
        || (Message.isServerMeta msg
            && negb (Message.type msg =? DP_MSG_CHAT))).

(** The size check of the callback on a message of [len] bytes. *)
Definition overStreamLimit s (len : Z) : Prop :=
  0 < (currentSizeLimit s).1
  /\ (currentSizeLimit s).1 < m_resetStreamSize s + len.

(** The consumer that [addStreamResetMessage] pushes into, with the state
    at the push: the one the history holds, or a new one. *)
Definition consumerFor s : option (C * SessionHistory.t (W:=W) (C:=C)) :=
  match m_resetStreamConsumer s with
  | Some c => Some (c, s)
  | None =>
      match DP_reset_stream_consumer_new (backend s) with
      | (Some c, w) =>
          Some (c, set_resetStreamConsumer (Some c) (set_backend w s))
      | (None, _) => None
      end
  end.

End Frames.

(** ** Measures of a sequence of appends *)

(** The bytes and the number of the messages that were admitted, given the
    answers of the appends. *)
Fixpoint admittedBytes (ops : list SessionHistory.AppendOp)
    (answers : list bool) : Z :=
  match ops, answers with
  | op :: ops', admitted :: answers' =>
      (if admitted : bool then Message.length (SessionHistory.appended op)
       else 0)
      + admittedBytes ops' answers'
  | _, _ => 0
  end.

Fixpoint admittedCount (answers : list bool) : Z :=
  match answers with
  | [] => 0
  | admitted :: answers' =>
      (if admitted : bool then 1 else 0) + admittedCount answers'
  end.

(** The bytes of all the messages of a sequence, admitted or not. *)
Definition offeredBytes (ops : list SessionHistory.AppendOp) : Z :=
  totalLength (map SessionHistory.appended ops).

(** ** Well-formed stores of invites *)

(** No invite has been used more often than it allows. *)
Definition withinCapacity (invites : gmap string Invite) : Prop :=
  map_Forall
    (fun _ invite => Z.of_nat (size (uses invite)) <= maxUses invite) invites.

(** Every invite is stored under its secret, and no secret is empty. *)
Definition keyedBySecret (invites : gmap string Invite) : Prop :=
  map_Forall
    (fun key invite => secret invite = key /\ key <> ""%string) invites.

(** The invites of a store, in the order of one traversal of the hash. *)
Definition traverses (traversal : list Invite) (invites : gmap string Invite)
    : Prop :=
  traversal ≡ₚ (map_to_list invites).*2.

(** ** Runs of the catch-up key *)

(** The keys that [n] calls of [incrementNextCatchupKey] in a row hand
    out, and the key that is next after them. *)
Fixpoint catchupKeys `{!Limits} (n : nat) (nextCatchupKey : Z) : list Z * Z :=
  match n with
  | O => ([], nextCatchupKey)
  | S n' =>
      let r := SessionHistory.incrementNextCatchupKey nextCatchupKey in
      let rest := catchupKeys n' r.2 in
      (r.1 :: rest.1, rest.2)
  end.

(** ** The builders of [ServerReply], as data

    One constructor for each builder, with the arguments of the builder
    that go into the object. *)
Section ReplyBuilders.
Context {double : Type} `{!Numbers double}.

Variant ReplyBuilder : Type :=
| BError (message code : string)
| BCommandError (command message : string)
| BBanExportResult (data : string)
| BBanImportResult (total imported : Z)
| BBanImpExError (message key : string)
| BMessage (message : string)
| BAlert (message : string)
| BKeyMessage (message key : string) (params : QJsonObject double)
| BKeyAlert (message key : string) (params : QJsonObject double)
| BKeyAlertReset (message reset key : string) (params : QJsonObject double)
| BCatchup (count key : Z)
| BCaughtUp (key : Z)
| BLog (message : string) (data : QJsonObject double)
| BLoginGreeting (message : string) (version : Z) (flags : QJsonArray double)
    (methods : QJsonObject double) (info rules : string)
    (preferWebSockets : bool)
| BLoginWelcome (message title : string) (sessions : QJsonArray double)
| BLoginTitle (message title : string)
| BLoginSessions (message : string) (sessions : QJsonArray double)
| BLoginRemoveSessions (message : string) (remove : QJsonArray double)
| BReset (message state : string)
| BResetQuery (maxSize : Z) (payload : string)
| BResetRequest (maxSize : Z)
| BStreamedResetRequest (maxSize : Z) (correlator stream : string)
| BStreamedResetStart (correlator : string)
| BStreamedResetProgress (cancel : bool)
| BResultClientInfo (message : string) (browser : bool)
| BResultHostLookup (message : string)
| BResultJoinLookup (message : string) (session : QJsonObject double)
| BResultPasswordNeeded (message state : string)
| BResultLoginOk (message state : string) (flags : QJsonArray double)
    (ident : string) (guest : bool)
| BResultExtAuthNeeded (message state extauthurl nonce group : string)
    (avatar : bool)
| BResultJoinHost (message state : string) (join : QJsonObject double)
| BResultStartTls (message : string) (startTls : bool)
| BResultIdentIntentMismatch (message intent method : string)
    (extAuthFallback : bool)
| BResultGarbage
| BSessionConf (config : QJsonObject double)
| BPasswordChange (password : string)
| BSizeLimitWarning (size maxSize : Z)
| BOutOfSpace
| BStatusUpdate (size : Z)
| BInviteCreated (secret : string)
| BThumbnailQuery (payload : string)
| BThumbnail (correlator : string) (maxWidth maxHeight quality : Z)
    (format : string).

(** The object that the builder puts into its message. *)
Definition builtData (b : ReplyBuilder) : QJsonObject double :=
  match b with
  | BError message code => makeError_data message code
  | BCommandError command message => makeCommandError_data command message
  | BBanExportResult data => makeBanExportResult_data data
  | BBanImportResult total imported => makeBanImportResult_data total imported
  | BBanImpExError message key => makeBanImpExError_data message key
  | BMessage message => makeMessage_data message
  | BAlert message => makeAlert_data message
  | BKeyMessage message key params => makeKeyMessage_data message key params
  | BKeyAlert message key params => makeKeyAlert_data message key params
  | BKeyAlertReset message reset key params =>
      makeKeyAlertReset_data message reset key params
  | BCatchup count key => makeCatchup_data count key
  | BCaughtUp key => makeCaughtUp_data key
  | BLog message data => makeLog_data message data
  | BLoginGreeting message version flags methods info rules
      preferWebSockets =>
      makeLoginGreeting_data message version flags methods info rules
        preferWebSockets
  | BLoginWelcome message title sessions =>
      makeLoginWelcome_data message title sessions
  | BLoginTitle message title => makeLoginTitle_data message title
  | BLoginSessions message sessions => makeLoginSessions_data message sessions
  | BLoginRemoveSessions message remove =>
      makeLoginRemoveSessions_data message remove
  | BReset message state => makeReset_data message state
  | BResetQuery maxSize payload => makeResetQuery_data maxSize payload
  | BResetRequest maxSize => makeResetRequest_data maxSize
  | BStreamedResetRequest maxSize correlator stream =>
      makeStreamedResetRequest_data maxSize correlator stream
  | BStreamedResetStart correlator => makeStreamedResetStart_data correlator
  | BStreamedResetProgress cancel => makeStreamedResetProgress_data cancel
  | BResultClientInfo message browser =>
      makeResultClientInfo_data message browser
  | BResultHostLookup message => makeResultHostLookup_data message
  | BResultJoinLookup message session =>
      makeResultJoinLookup_data message session
  | BResultPasswordNeeded message state =>
      makeResultPasswordNeeded_data message state
  | BResultLoginOk message state flags ident guest =>
      makeResultLoginOk_data message state flags ident guest
  | BResultExtAuthNeeded message state extauthurl nonce group avatar =>
      makeResultExtAuthNeeded_data message state extauthurl nonce group avatar
  | BResultJoinHost message state join =>
      makeResultJoinHost_data message state join
  | BResultStartTls message startTls =>
      makeResultStartTls_data message startTls
  | BResultIdentIntentMismatch message intent method extAuthFallback =>
      makeResultIdentIntentMismatch_data message intent method extAuthFallback
  | BResultGarbage => makeResultGarbage_data
  | BSessionConf config => makeSessionConf_data config
  | BPasswordChange password => makePasswordChange_data password
  | BSizeLimitWarning size maxSize => makeSizeLimitWarning_data size maxSize
  | BOutOfSpace => makeOutOfSpace_data
  | BStatusUpdate size => makeStatusUpdate_data size
  | BInviteCreated secret => makeInviteCreated_data secret
  | BThumbnailQuery payload => makeThumbnailQuery_data payload
  | BThumbnail correlator maxWidth maxHeight quality format =>
      makeThumbnail_data correlator maxWidth maxHeight quality format
  end.

(** The reply type that the name of the builder stands for. *)
Definition builtType (b : ReplyBuilder) : ReplyType.t :=
  match b with
  | BError _ _ | BCommandError _ _ => ReplyType.Error
  | BBanExportResult _ | BBanImportResult _ _ | BBanImpExError _ _ =>
      ReplyType.BanImpEx
  | BMessage _ | BKeyMessage _ _ _ => ReplyType.Message
  | BAlert _ | BKeyAlert _ _ _ | BKeyAlertReset _ _ _ _ => ReplyType.Alert
  | BCatchup _ _ => ReplyType.Catchup
  | BCaughtUp _ => ReplyType.CaughtUp
  | BLog _ _ => ReplyType.Log
  | BLoginGreeting _ _ _ _ _ _ _ | BLoginWelcome _ _ _ | BLoginTitle _ _
  | BLoginSessions _ _ | BLoginRemoveSessions _ _ => ReplyType.Login
  | BReset _ _ => ReplyType.Reset
  | BResetQuery _ _ | BResetRequest _ | BStreamedResetRequest _ _ _ =>
      ReplyType.ResetRequest
  | BStreamedResetStart _ => ReplyType.StreamStart
  | BStreamedResetProgress _ => ReplyType.StreamProgress
  | BResultClientInfo _ _ | BResultHostLookup _ | BResultJoinLookup _ _
  | BResultPasswordNeeded _ _ | BResultLoginOk _ _ _ _ _
  | BResultExtAuthNeeded _ _ _ _ _ _ | BResultJoinHost _ _ _
  | BResultStartTls _ _ | BResultIdentIntentMismatch _ _ _ _
  | BResultGarbage => ReplyType.Result
  | BSessionConf _ => ReplyType.SessionConf
  | BPasswordChange _ => ReplyType.PasswordChange
  | BSizeLimitWarning _ _ => ReplyType.SizeLimitWarning
  | BOutOfSpace => ReplyType.OutOfSpace
  | BStatusUpdate _ => ReplyType.Status
  | BInviteCreated _ => ReplyType.InviteCreated
  | BThumbnailQuery _ | BThumbnail _ _ _ _ _ => ReplyType.Thumbnail
  end.

(** The text that the builder sends as the message of the reply: the
    empty text for the builders that send none. *)
Definition builtMessage (b : ReplyBuilder) : string :=
  match b with
  | BError message _ | BMessage message | BAlert message
  | BKeyMessage message _ _ | BKeyAlert message _ _
  | BKeyAlertReset message _ _ _ | BLog message _
  | BLoginGreeting message _ _ _ _ _ _ | BLoginWelcome message _ _
  | BLoginTitle message _ | BLoginSessions message _
  | BLoginRemoveSessions message _ | BReset message _
  | BResultClientInfo message _ | BResultHostLookup message
  | BResultJoinLookup message _ | BResultPasswordNeeded message _
  | BResultLoginOk message _ _ _ _ | BResultExtAuthNeeded message _ _ _ _ _
  | BResultJoinHost message _ _ | BResultStartTls message _
  | BResultIdentIntentMismatch message _ _ _ => message
  | BCommandError command message => command +:+ ": " +:+ message
  | BResultGarbage => "check authentication"
  | _ => ""
  end.

End ReplyBuilders.

Arguments ReplyBuilder : clear implicits.

(** * Properties *)

(** Unfolds the combinators of the state monad. *)
Ltac run :=
  unfold mbind, SessionHistory.ST_bind, mret, SessionHistory.ST_ret,
    SessionHistory.gets, SessionHistory.modify, SessionHistory.hook_,
    SessionHistory.hook in *;
  simpl in *.

Section MonadLaws.
Context {W C : Type} `{!Env W C}.
Import SessionHistory.

Implicit Types (s : SessionHistory.t (W:=W) (C:=C)).

(** One step of a computation: what a bind does after each primitive. *)
Lemma bind_ret {A B} (a : A) (f : A -> ST B) s : (mret a ≫= f) s = f a s.
Proof. reflexivity. Qed.

Lemma bind_gets {A B} (g : t -> A) (f : A -> ST B) s :
  (gets g ≫= f) s = f (g s) s.
Proof. reflexivity. Qed.

Lemma bind_modify {B} (g : t -> t) (f : unit -> ST B) s :
  (modify g ≫= f) s = f tt (g s).
Proof. reflexivity. Qed.

Lemma bind_hook {A B} (h : W -> A * W) (f : A -> ST B) s :
  (hook h ≫= f) s = f (h (backend s)).1 (set_backend (h (backend s)).2 s).
Proof. reflexivity. Qed.

Lemma bind_hook_ {B} (h : W -> W) (f : unit -> ST B) s :
  (hook_ h ≫= f) s = f tt (set_backend (h (backend s)) s).
Proof. reflexivity. Qed.

Lemma bind_assoc {A B D} (m : ST A) (g : A -> ST B) (f : B -> ST D) s :
  ((m ≫= g) ≫= f) s = (m ≫= (fun a => g a ≫= f)) s.
Proof. unfold mbind, ST_bind. by destruct (m s). Qed.

(** A computation whose outcome is known. *)
Lemma bind_known {A B} (m : ST A) (f : A -> ST B) s a s' :
  m s = (a, s') -> (m ≫= f) s = f a s'.
Proof. unfold mbind, ST_bind. by intros ->. Qed.

Lemma run_modify (g : t -> t) s : modify g s = (tt, g s).
Proof. reflexivity. Qed.

Lemma run_ret {A} (a : A) s : mret (M:=ST) a s = (a, s).
Proof. reflexivity. Qed.

Lemma run_gets {A} (g : t -> A) s : gets g s = (g s, s).
Proof. reflexivity. Qed.

End MonadLaws.

(** Steps through the primitives at the head of a computation. *)
Ltac mstep :=
  first [ rewrite bind_gets | rewrite bind_modify | rewrite bind_ret
        | rewrite bind_hook | rewrite bind_hook_ | rewrite bind_assoc
        | rewrite run_modify | rewrite run_ret | rewrite run_gets ].

(** Closes the parts of a statement about the members once the
    computation has been stepped through. *)
Ltac close_step :=
  repeat split; simpl in *; intros; try discriminate; try lia;
  try (left; congruence); try (right; congruence); auto.

Section SizeAccounting.
Context {W C : Type} `{!Env W C}.
Import SessionHistory.

Implicit Types (s : SessionHistory.t (W:=W) (C:=C)) (msg : Message.t).

Lemma wrap_size_t_small z : is_size_t z -> wrap_size_t z = z.
Proof. intros Hz. apply Z.mod_small, Hz. Qed.

Lemma wrap_uint_small z : is_uint z -> wrap_uint z = z.
Proof. intros Hz. apply Z.mod_small, Hz. Qed.

(** [currentSizeLimit] and [hasSpaceFor] are [const]: they answer and
    leave the object as it is. *)
Lemma currentSizeLimit_eq s :
  currentSizeLimit s =
  (if overrideSizeLimit (backend s) =? 0 then m_baseSizeLimit s
   else overrideSizeLimit (backend s), s).
Proof.
  unfold currentSizeLimit. run.
  by destruct (overrideSizeLimit (backend s) =? 0).
Qed.

Lemma currentSizeLimit_pure s : currentSizeLimit s = ((currentSizeLimit s).1, s).
Proof. by rewrite currentSizeLimit_eq. Qed.

Lemma hasSpaceFor_eq bytes extra s :
  hasSpaceFor bytes extra s =
  (((currentSizeLimit s).1 <=? 0)
   || (wrap_size_t (m_sizeInBytes s + bytes)
       <=? wrap_size_t ((currentSizeLimit s).1 + extra)), s).
Proof.
  unfold hasSpaceFor, mbind, ST_bind. rewrite currentSizeLimit_pure at 1.
  reflexivity.
Qed.

End SizeAccounting.

Section BudgetGate.
Context {W C : Type} `{!Env W C}.
Import SessionHistory.

Implicit Types (s : SessionHistory.t (W:=W) (C:=C)) (msg : Message.t).

Lemma addMessageInternal_fields msg bytes s :
  let s' := (addMessageInternal msg bytes s).2 in
  m_sizeInBytes s' = wrap_size_t (m_sizeInBytes s + bytes)
  /\ m_lastIndex s' = m_lastIndex s + 1
  /\ m_firstIndex s' = m_firstIndex s
  /\ m_baseSizeLimit s' = m_baseSizeLimit s
  /\ m_resetStreamState s' = m_resetStreamState s
  /\ backend s' = historyAdd msg (backend s).
Proof. unfold addMessageInternal. run. repeat split. Qed.

Lemma space_test limit size bytes extra :
  0 <= limit -> is_size_t (size + bytes) -> is_size_t (limit + extra) ->
  (limit <=? 0) || (wrap_size_t (size + bytes) <=? wrap_size_t (limit + extra))
  = true <-> limit = 0 \/ size + bytes <= limit + extra.
Proof.
  intros Hl Hs He.
  rewrite !wrap_size_t_small by assumption.
  rewrite orb_true_iff, Z.leb_le, Z.leb_le. lia.
Qed.

(** The body that [addMessage] and [addEmergencyMessage] share, in state
    passing form. *)
Lemma gated_append_eq s msg bytes extra :
  (ok ← hasSpaceFor bytes extra;
   if ok : bool then addMessageInternal msg bytes;; mret true
   else mret false) s
  = if (hasSpaceFor bytes extra s).1
    then (true, (addMessageInternal msg bytes s).2)
    else (false, s).
Proof.
  unfold mbind at 1, ST_bind at 1. rewrite hasSpaceFor_eq.
  by destruct (_ || _).
Qed.

Lemma gated_append_spec s msg bytes extra :
  is_size_t (m_sizeInBytes s + bytes) ->
  0 <= (currentSizeLimit s).1 ->
  is_size_t ((currentSizeLimit s).1 + extra) ->
  let r :=
    (ok ← hasSpaceFor bytes extra;
     if ok : bool then addMessageInternal msg bytes;; mret true
     else mret false) s in
  (r.1 = true <->
     (currentSizeLimit s).1 = 0
     \/ m_sizeInBytes s + bytes <= (currentSizeLimit s).1 + extra)
  /\ (r.1 = true ->
        m_sizeInBytes r.2 = m_sizeInBytes s + bytes
        /\ m_lastIndex r.2 = m_lastIndex s + 1)
  /\ (r.1 = false -> r.2 = s).
Proof.
  intros Hsum Hlim Hext r. subst r.
  pose proof (space_test _ _ _ _ Hlim Hsum Hext) as Htest.
  rewrite gated_append_eq, hasSpaceFor_eq. cbn [fst snd].
  destruct (_ || _) eqn:Hok; simpl.
  - split; [tauto | split; [intros _ | discriminate]].
    destruct (addMessageInternal_fields msg bytes s) as (Hsz & Hli & _).
    rewrite wrap_size_t_small in Hsz by assumption. auto.
  - split; [|split; [discriminate | reflexivity]].
    rewrite <- Htest. split; [discriminate | intros [=]].
Qed.

Lemma addMessage_spec s msg :
  is_size_t (m_sizeInBytes s + Message.length msg) ->
  is_size_t (currentSizeLimit s).1 ->
  let r := addMessage msg s in
  (r.1 = true <->
     (currentSizeLimit s).1 = 0
     \/ m_sizeInBytes s + Message.length msg <= (currentSizeLimit s).1)
  /\ (r.1 = true ->
        m_sizeInBytes r.2 = m_sizeInBytes s + Message.length msg
        /\ m_lastIndex r.2 = m_lastIndex s + 1)
  /\ (r.1 = false -> r.2 = s).
Proof.
  intros Hsum Hlim.
  pose proof (gated_append_spec s msg (Message.length msg) 0 Hsum
                (proj1 Hlim)) as Hg.
  rewrite Z.add_0_r in Hg. exact (Hg Hlim).
Qed.

Lemma addEmergencyMessage_spec s msg :
  is_uint (Message.length msg) ->
  is_size_t (m_sizeInBytes s + Message.length msg) ->
  0 <= (currentSizeLimit s).1 ->
  is_size_t ((currentSizeLimit s).1 + emergencySpace) ->
  let e := addEmergencyMessage msg s in
  (e.1 = true <->
     (currentSizeLimit s).1 = 0
     \/ m_sizeInBytes s + Message.length msg
        <= (currentSizeLimit s).1 + emergencySpace)
  /\ (e.1 = true ->
        m_sizeInBytes e.2 = m_sizeInBytes s + Message.length msg
        /\ m_lastIndex e.2 = m_lastIndex s + 1)
  /\ (e.1 = false -> e.2 = s).
Proof.
  intros Hlen Hsum Hlim Hext.
  unfold addEmergencyMessage, hasEmergencySpaceFor.
  rewrite (wrap_uint_small _ Hlen).
  by apply gated_append_spec.
Qed.

Lemma budget_gate_scenario s m1 m2 m3 :
  (forall msg w, overrideSizeLimit (historyAdd msg w) = overrideSizeLimit w) ->
  overrideSizeLimit (backend s) = 0 ->
  emergencySpace = 512 ->
  m_baseSizeLimit s = 1000 -> m_sizeInBytes s = 0 ->
  Message.length m1 = 600 -> Message.length m2 = 500 ->
  Message.length m3 = 500 ->
  let r1 := addMessage m1 s in
  let r2 := addMessage m2 r1.2 in
  let r3 := addEmergencyMessage m3 r2.2 in
  r1.1 = true /\ m_sizeInBytes r1.2 = 600
  /\ r2.1 = false /\ r2.2 = r1.2
  /\ r3.1 = true /\ m_sizeInBytes r3.2 = 1100.
Proof.
  intros Hkeep Hover Hextra Hbase Hsize H1 H2 H3 r1 r2 r3.
  assert (Hlimit : forall s', overrideSizeLimit (backend s') = 0 ->
                              m_baseSizeLimit s' = 1000 ->
                              (currentSizeLimit s').1 = 1000).
  { intros s' Ho Hb. by rewrite currentSizeLimit_eq, Ho, Hb. }
  assert (E1 : r1 = (true, (addMessageInternal m1 600 s).2)).
  { subst r1. unfold addMessage, hasRegularSpaceFor.
    rewrite gated_append_eq, hasSpaceFor_eq, (Hlimit s Hover Hbase), Hsize, H1.
    reflexivity. }
  destruct (addMessageInternal_fields m1 600 s)
    as (Hsz1 & _ & _ & Hb1 & _ & Hw1).
  rewrite Hsize in Hsz1. change (wrap_size_t (0 + 600)) with 600 in Hsz1.
  rewrite Hbase in Hb1.
  assert (Ho1 : overrideSizeLimit (backend (addMessageInternal m1 600 s).2) = 0)
    by (by rewrite Hw1, Hkeep).
  assert (E2 : r2 = (false, r1.2)).
  { subst r2. rewrite E1. cbn [fst snd]. unfold addMessage, hasRegularSpaceFor.
    rewrite gated_append_eq, hasSpaceFor_eq, (Hlimit _ Ho1 Hb1), Hsz1, H2.
    reflexivity. }
  assert (E3 : r3 = (true, (addMessageInternal m3 500 r1.2).2)).
  { subst r3. rewrite E2, E1. cbn [fst snd].
    unfold addEmergencyMessage, hasEmergencySpaceFor.
    rewrite H3. change (wrap_uint 500) with 500.
    rewrite gated_append_eq, hasSpaceFor_eq, (Hlimit _ Ho1 Hb1), Hsz1, Hextra.
    reflexivity. }
  rewrite E3, E2, E1. cbn [fst snd]. repeat split; try assumption.
  destruct (addMessageInternal_fields m3 500 (addMessageInternal m1 600 s).2)
    as (Hsz3 & _).
  rewrite Hsz3, Hsz1. reflexivity.
Qed.

(** C1. A message is admitted by [addMessage] exactly when no limit is
    set or the log with the message stays within [currentSizeLimit], and by
    [addEmergencyMessage] exactly when no limit is set or it stays within
    the limit plus the emergency allowance; an admitted message adds its
    length to [sizeInBytes] and one to [lastIndex], a refused one changes
    nothing. The sizes are those that [size_t] holds without wrapping and
    the length is one that [uint] holds. With a base limit of 1000, no
    override and an allowance of 512, an empty log admits 600 bytes, then
    refuses 500 bytes, then admits them as an emergency message and holds
    1100 bytes. *)
Theorem addMessage_budget_gate s msg :
  is_uint (Message.length msg) ->
  is_size_t (m_sizeInBytes s + Message.length msg) ->
  0 <= (currentSizeLimit s).1 ->
  0 <= emergencySpace ->
  is_size_t ((currentSizeLimit s).1 + emergencySpace) ->
  let limit := (currentSizeLimit s).1 in
  let total := m_sizeInBytes s + Message.length msg in
  let r := addMessage msg s in
  let e := addEmergencyMessage msg s in
  (r.1 = true <-> limit = 0 \/ total <= limit)
  /\ (e.1 = true <-> limit = 0 \/ total <= limit + emergencySpace)
  /\ (r.1 = true ->
        m_sizeInBytes r.2 = total /\ m_lastIndex r.2 = m_lastIndex s + 1)
  /\ (e.1 = true ->
        m_sizeInBytes e.2 = total /\ m_lastIndex e.2 = m_lastIndex s + 1)
  /\ (r.1 = false -> r.2 = s)
  /\ (e.1 = false -> e.2 = s)
  /\ (forall s0 m1 m2 m3,
        (forall m w, overrideSizeLimit (historyAdd m w) = overrideSizeLimit w) ->
        overrideSizeLimit (backend s0) = 0 ->
        emergencySpace = 512 ->
        m_baseSizeLimit s0 = 1000 -> m_sizeInBytes s0 = 0 ->
        Message.length m1 = 600 -> Message.length m2 = 500 ->
        Message.length m3 = 500 ->
        let r1 := addMessage m1 s0 in
        let r2 := addMessage m2 r1.2 in
        let r3 := addEmergencyMessage m3 r2.2 in
        r1.1 = true /\ m_sizeInBytes r1.2 = 600
        /\ r2.1 = false /\ r2.2 = r1.2
        /\ r3.1 = true /\ m_sizeInBytes r3.2 = 1100).
Proof.
  intros Hlen Hsum Hlim Hex Hext limit total r e.
  assert (Hlim' : is_size_t (currentSizeLimit s).1).
  { unfold is_size_t in *. lia. }
  destruct (addMessage_spec s msg Hsum Hlim') as (Hr & Hrt & Hrf).
  destruct (addEmergencyMessage_spec s msg Hlen Hsum Hlim Hext)
    as (He & Het & Hef).
  repeat split; try tauto; try apply Hr; try apply He;
    try (intros; by apply Hrt); try (intros; by apply Het).
  all: intros; by eapply budget_gate_scenario.
Qed.

End BudgetGate.

(** The budget gate on the memory-backed history: the scenario of the
    specification, and the general statement at its first message. *)
Lemma addMessage_budget_gate_witness :
  let s0 := newSession 1000 emptyMemory in
  let r1 := SessionHistory.addMessage (plainMessage 600) s0 in
  let r2 := SessionHistory.addMessage (plainMessage 500) r1.2 in
  let r3 := SessionHistory.addEmergencyMessage (plainMessage 500) r2.2 in
  (r1.1 = true /\ SessionHistory.m_sizeInBytes r1.2 = 600
   /\ r2.1 = false /\ r2.2 = r1.2
   /\ r3.1 = true /\ SessionHistory.m_sizeInBytes r3.2 = 1100)
  /\ SessionHistory.m_lastIndex r1.2 = 0.
Proof.
  intros s0 r1 r2 r3.
  assert (Hlen : is_uint (Message.length (plainMessage 600)))
    by (vm_compute; split; [discriminate | reflexivity]).
  assert (Hsum : is_size_t (SessionHistory.m_sizeInBytes s0
                            + Message.length (plainMessage 600)))
    by (vm_compute; split; [discriminate | reflexivity]).
  assert (Hlim : 0 <= (SessionHistory.currentSizeLimit s0).1)
    by (vm_compute; discriminate).
  assert (Hex : 0 <= emergencySpace) by (vm_compute; discriminate).
  assert (Hext : is_size_t ((SessionHistory.currentSizeLimit s0).1
                            + emergencySpace))
    by (vm_compute; split; [discriminate | reflexivity]).
  destruct (addMessage_budget_gate s0 (plainMessage 600)
              Hlen Hsum Hlim Hex Hext)
    as (_ & _ & Hadmit & _ & _ & _ & Hscenario).
  split.
  - apply (Hscenario s0 (plainMessage 600) (plainMessage 500)
             (plainMessage 500)); reflexivity.
  - apply Hadmit. reflexivity.
Defined.

Section Reset.
Context {W C : Type} `{!Env W C}.
Import SessionHistory.

Implicit Types (s : SessionHistory.t (W:=W) (C:=C)) (L : MessageList).

Lemma sumLengths_from acc L :
  0 <= acc ->
  Forall (fun msg => 0 <= Message.length msg) L ->
  acc + totalLength L < size_t_modulus ->
  foldl (fun newSize msg => wrap_size_t (newSize + Message.length msg)) acc L
  = acc + totalLength L.
Proof.
  intros Hacc Hpos. revert acc Hacc.
  induction Hpos as [|msg L Hmsg Hpos IH]; intros acc Hacc Hsum; simpl in *.
  - lia.
  - assert (0 <= totalLength L).
    { clear -Hpos. induction Hpos; simpl; lia. }
    rewrite wrap_size_t_small by (unfold is_size_t; lia).
    rewrite IH; lia.
Qed.

Lemma sumLengths_exact L :
  Forall (fun msg => 0 <= Message.length msg) L ->
  totalLength L < size_t_modulus ->
  sumLengths L = totalLength L.
Proof.
  intros Hpos Hsum. unfold sumLengths.
  rewrite sumLengths_from; [lia | lia | assumption | lia].
Qed.

(** The members that [abortStreamedReset] leaves as they are. *)
Lemma abortStreamedReset_frame ctxId s :
  let s' := (abortStreamedReset ctxId s).2 in
  m_firstIndex s' = m_firstIndex s
  /\ m_lastIndex s' = m_lastIndex s
  /\ m_sizeInBytes s' = m_sizeInBytes s
  /\ m_lastResetTime s' = m_lastResetTime s
  /\ m_baseSizeLimit s' = m_baseSizeLimit s.
Proof.
  unfold abortStreamedReset, abortActiveStreamedReset. run.
  destruct (m_resetStreamState s); simpl; auto.
  destruct (_ || _); simpl; auto.
Qed.

(** [reset] in state passing form: the members it leaves behind. *)
Lemma reset_eq L now s :
  let r := reset L now s in
  if (0 <? (currentSizeLimit s).1) && ((currentSizeLimit s).1 <? sumLengths L)
  then r = (false, s)
  else r.1 = true
       /\ m_sizeInBytes r.2 = sumLengths L
       /\ m_lastResetTime r.2 = now
       /\ m_firstIndex r.2 = m_lastIndex s + 1
       /\ m_lastIndex r.2 = m_lastIndex s + Z.of_nat (length L)
       /\ m_autoResetBaseSize r.2 = sumLengths L.
Proof.
  intros r. assert (Hr : r = reset L now s) by reflexivity. clearbody r.
  unfold reset in Hr. unfold mbind at 1, ST_bind at 1 in Hr.
  rewrite currentSizeLimit_pure in Hr.
  destruct (_ && _); [assumption|].
  pose proof (abortStreamedReset_frame (-1) s) as (_ & Hli & _).
  unfold resetAutoResetThresholdBase in Hr. run.
  destruct (abortStreamedReset (-1) s) as [a s1]. subst r. simpl in *.
  rewrite Hli. auto 10.
Qed.

(** C2, as the code has it. When a limit is set and the lengths of the
    list sum to more than it, [reset] refuses and changes nothing. In every
    other case it succeeds: [firstIndex] is the old [lastIndex] plus one,
    [lastIndex] the old one plus the size of the list, [sizeInBytes] the sum
    of the lengths, and [lastResetTime] the reading of the clock, which is
    greater than the old value exactly when the reading is. The lengths are
    not negative and their sum is one that [size_t] holds. *)
Theorem reset_outcome s L now :
  Forall (fun msg => 0 <= Message.length msg) L ->
  totalLength L < size_t_modulus ->
  let limit := (currentSizeLimit s).1 in
  let r := reset L now s in
  (0 < limit /\ limit < totalLength L -> r.1 = false /\ r.2 = s)
  /\ (~ (0 < limit /\ limit < totalLength L) ->
      r.1 = true
      /\ m_firstIndex r.2 = m_lastIndex s + 1
      /\ m_lastIndex r.2 = m_lastIndex s + Z.of_nat (length L)
      /\ m_sizeInBytes r.2 = totalLength L
      /\ m_lastResetTime r.2 = now
      /\ (m_lastResetTime s < m_lastResetTime r.2 <-> m_lastResetTime s < now)).
Proof.
  intros Hpos Hsum limit r.
  pose proof (reset_eq L now s) as Heq. cbv zeta in Heq.
  rewrite (sumLengths_exact L Hpos Hsum) in Heq.
  fold limit r in Heq.
  destruct ((0 <? limit) && (limit <? totalLength L)) eqn:Hc.
  - apply andb_true_iff in Hc as [H0 H1].
    apply Z.ltb_lt in H0, H1.
    split; [intros _; by rewrite Heq | intros Hn; tauto].
  - apply andb_false_iff in Hc.
    split.
    + intros [H0 H1]. apply Z.ltb_lt in H0, H1.
      destruct Hc as [Hc|Hc]; congruence.
    + intros _. destruct Heq as (Hr & Hsz & Ht & Hf & Hl & _).
      rewrite Ht. tauto.
Qed.

End Reset.

(** The rejection scenario of the specification: with a base limit of 100
    a reset to messages of 50 and 60 bytes is refused and the log stays as
    it was; a reset to the first of them alone succeeds. *)
Lemma reset_outcome_witness :
  let s0 := newSession 100 emptyMemory in
  let r := SessionHistory.reset [plainMessage 50; plainMessage 60] 1700000000000 s0 in
  r.1 = false /\ r.2 = s0.
Proof.
  intros s0 r.
  assert (Hpos : Forall (fun msg => 0 <= Message.length msg)
                        [plainMessage 50; plainMessage 60])
    by (repeat constructor; vm_compute; discriminate).
  assert (Hsum : totalLength [plainMessage 50; plainMessage 60]
                 < size_t_modulus) by reflexivity.
  apply (proj1 (reset_outcome s0 _ 1700000000000 Hpos Hsum)).
  split; reflexivity.
Defined.

(** Two resets that read the same millisecond from the clock: the second
    succeeds and [lastResetTime] is what it was. *)
Lemma reset_time_not_increased :
  let s0 := newSession 100 emptyMemory in
  let s1 := (SessionHistory.reset [plainMessage 50] 1700000000000 s0).2 in
  let r := SessionHistory.reset [plainMessage 50] 1700000000000 s1 in
  ~ (0 < (SessionHistory.currentSizeLimit s1).1
     /\ (SessionHistory.currentSizeLimit s1).1 < totalLength [plainMessage 50])
  /\ r.1 = true
  /\ ~ (SessionHistory.m_lastResetTime s1 < SessionHistory.m_lastResetTime r.2).
Proof.
  vm_compute. split; [|split].
  - intros [_ H]. discriminate H.
  - reflexivity.
  - intros H. discriminate H.
Qed.

Section StreamedReset.
Context {W C : Type} `{!Env W C}.
Import SessionHistory.

Implicit Types (s : SessionHistory.t (W:=W) (C:=C)) (msg : Message.t).

Lemma emit_frame_refl s : emit_frame s s.
Proof. by repeat split. Qed.

Lemma emit_frame_trans s1 s2 s3 :
  emit_frame s1 s2 -> emit_frame s2 s3 -> emit_frame s1 s3.
Proof. unfold emit_frame. intuition congruence. Qed.

Lemma receiveResetStreamMessage_frame msg s :
  emit_frame s (receiveResetStreamMessage msg s).2.
Proof.
  unfold receiveResetStreamMessage.
  destruct (_ || _); [by repeat split|].
  unfold mbind at 1, ST_bind at 1, gets at 1.
  unfold mbind at 1, ST_bind at 1. rewrite currentSizeLimit_pure.
  destruct (_ && _); [by repeat split|].
  run.
  destruct (addResetStreamMessage _ _) as [[] w]; by repeat split.
Qed.

Lemma consumer_emit_frame msgs s : emit_frame s (consumer_emit msgs s).2.
Proof.
  revert s. induction msgs as [|msg rest IH]; intros s; simpl.
  - apply emit_frame_refl.
  - unfold mbind, ST_bind.
    pose proof (receiveResetStreamMessage_frame msg s) as Hf.
    destruct (receiveResetStreamMessage msg s) as [[] s1]; simpl in *.
    + eapply emit_frame_trans; [exact Hf | apply IH].
    + exact Hf.
Qed.

End StreamedReset.

(** Runs the callback of the consumer over the messages at the head of the
    computation: names the outcome and what it keeps of the state. *)
Ltac step_emit :=
  match goal with
  | |- context [ (SessionHistory.consumer_emit ?msgs ≫= ?f) ?s1 ] =>
      let Hf := fresh "Hf" in
      let E := fresh "E" in
      pose proof (consumer_emit_frame msgs s1) as Hf;
      destruct (SessionHistory.consumer_emit msgs s1) as [? ?] eqn:E;
      rewrite (bind_known _ _ _ _ _ E);
      unfold emit_frame in Hf; simpl in Hf;
      destruct Hf as (? & ? & ? & ? & ?)
  end.

Section StreamedResetSteps.
Context {W C : Type} `{!Env W C}.
Import SessionHistory.

Implicit Types (s : SessionHistory.t (W:=W) (C:=C)) (msg : Message.t).

Lemma startStreamedReset_safe ctxId correlator seed s :
  let r := startStreamedReset ctxId correlator seed s in
  step_safe (OpStart ctxId correlator seed) s (Started r.1) r.2.
Proof.
  intros r. subst r.
  unfold step_safe, marksLiveLog, startStreamedReset.
  rewrite bind_gets.
  destruct (m_resetStreamState s) eqn:Hst; [| close_step ..].
  unfold hasRegularSpaceFor.
  rewrite (bind_known _ _ _ _ _ (hasSpaceFor_eq _ _ _)), hasSpaceFor_eq.
  cbn [fst snd].
  destruct (_ || _); cbn [negb]; [| close_step].
  unfold addMessageInternal. repeat mstep.
  destruct (openResetStream seed _) as [[] w]; cbn [fst snd]; repeat mstep;
    cbn [fst snd]; close_step.
Qed.

Lemma abortStreamedReset_safe ctxId s :
  let r := abortStreamedReset ctxId s in
  step_safe (OpAbort ctxId) s (Aborted r.1) r.2.
Proof.
  intros r. subst r.
  unfold step_safe, marksLiveLog, abortStreamedReset, abortActiveStreamedReset.
  rewrite bind_gets.
  destruct (m_resetStreamState s) eqn:Hst; [close_step | | close_step].
  rewrite bind_gets.
  destruct (_ || _); repeat mstep; cbn [fst snd]; close_step.
Qed.

Lemma addStreamResetMessage_safe ctxId msg s :
  let r := addStreamResetMessage ctxId msg s in
  step_safe (OpAdd ctxId msg) s (Added r.1) r.2.
Proof.
  intros r. subst r.
  unfold step_safe, marksLiveLog, addStreamResetMessage.
  rewrite bind_gets.
  destruct (m_resetStreamState s) eqn:Hst; [close_step | | close_step].
  rewrite bind_gets.
  destruct (negb (_ =? ctxId)); [close_step|].
  destruct (negb (_ =? DP_MSG_RESET_STREAM)); [close_step|].
  destruct (negb (_ =? 0)); [|close_step].
  rewrite bind_gets.
  destruct (m_resetStreamConsumer s) as [c|].
  - rewrite bind_ret, bind_modify.
    unfold DP_reset_stream_consumer_push. rewrite bind_assoc.
    step_emit. repeat mstep.
    destruct (negb _); repeat mstep; cbn [fst snd]; close_step.
  - rewrite bind_assoc, bind_hook.
    destruct (DP_reset_stream_consumer_new (backend s)) as [[c|] w];
      cbn [fst snd]; repeat mstep.
    + unfold DP_reset_stream_consumer_push. rewrite bind_assoc.
      step_emit. repeat mstep.
      destruct (negb _); repeat mstep; cbn [fst snd]; close_step.
    + unfold abortActiveStreamedReset. repeat mstep.
      cbn [fst snd]; close_step.
Qed.

Lemma prepareStreamedReset_safe ctxId expected s :
  let r := prepareStreamedReset ctxId expected s in
  step_safe (OpPrepare ctxId expected) s (Prepared r.1) r.2.
Proof.
  intros r. subst r.
  unfold step_safe, marksLiveLog, prepareStreamedReset.
  rewrite bind_gets.
  destruct (m_resetStreamState s) eqn:Hst; [close_step | | close_step].
  rewrite bind_gets.
  destruct (negb (_ =? ctxId)); [close_step|].
  rewrite bind_modify, bind_gets.
  unfold DP_reset_stream_consumer_free_finish. rewrite bind_assoc.
  step_emit. repeat mstep.
  destruct (negb (_ && _)).
  - rewrite bind_gets.
    destruct (m_resetStreamAddError _); rewrite run_ret; cbn [fst snd];
      close_step.
  - rewrite bind_gets.
    destruct (_ || _).
    + unfold abortActiveStreamedReset. repeat mstep. cbn [fst snd].
      close_step.
    + rewrite bind_hook.
      destruct (addResetStreamMessage _ _) as [[] w]; cbn [fst snd];
        try (rewrite run_ret; cbn [fst snd]; close_step).
      rewrite bind_hook.
      destruct (prepareResetStream _) as [[] w']; cbn [fst snd];
        repeat mstep; cbn [fst snd]; close_step.
Qed.

Lemma stepOp_safe op s :
  let r := stepOp op s in step_safe op s r.1 r.2.
Proof.
  intros r. subst r. destruct op as [c q l | c m | c n | c]; unfold stepOp.
  - pose proof (startStreamedReset_safe c q l s) as Hs. cbv zeta in Hs.
    unfold mbind, ST_bind. by destruct (startStreamedReset c q l s).
  - pose proof (addStreamResetMessage_safe c m s) as Hs. cbv zeta in Hs.
    unfold mbind, ST_bind. by destruct (addStreamResetMessage c m s).
  - pose proof (prepareStreamedReset_safe c n s) as Hs. cbv zeta in Hs.
    unfold mbind, ST_bind. by destruct (prepareStreamedReset c n s).
  - pose proof (abortStreamedReset_safe c s) as Hs. cbv zeta in Hs.
    unfold mbind, ST_bind. by destruct (abortStreamedReset c s).
Qed.

Lemma countStarts_cons op ops :
  countStarts (op :: ops) = (if isStart op then 1 else 0) + countStarts ops.
Proof.
  unfold countStarts. rewrite filter_cons.
  destruct (isStart op); case_decide; simpl; try congruence; lia.
Qed.

Lemma countStartedOk_cons (r : StreamResult) rs :
  countStartedOk (r :: rs)
  = (if isStartedOk r then 1 else 0) + countStartedOk rs.
Proof.
  unfold countStartedOk. rewrite filter_cons.
  destruct (isStartedOk r); case_decide; simpl; try congruence; lia.
Qed.

Lemma marksLiveLog_isStart op s : marksLiveLog op s = true -> isStart op = true.
Proof. by destruct op. Qed.

Lemma runOps_indices ops s :
  let r := runOps ops s in
  m_firstIndex r.2 = m_firstIndex s
  /\ m_lastIndex s + 2 * countStartedOk r.1 <= m_lastIndex r.2
     <= m_lastIndex s + 2 * countStarts ops.
Proof.
  revert s. induction ops as [|op rest IH]; intros s r; subst r.
  - simpl. unfold countStartedOk, countStarts. simpl. lia.
  - cbn [runOps]. unfold mbind, ST_bind, mret, ST_ret.
    pose proof (stepOp_safe op s) as Hs. cbv zeta in Hs.
    destruct (stepOp op s) as [res s1]. cbn [fst snd] in Hs.
    destruct Hs as (_ & Hfirst & Hlast & Hok).
    specialize (IH s1). cbv zeta in IH.
    destruct (runOps rest s1) as [rs s2]. cbn [fst snd] in *.
    rewrite countStartedOk_cons, countStarts_cons.
    pose proof (marksLiveLog_isStart op s) as Hm.
    destruct (marksLiveLog op s), (isStartedOk res), (isStart op);
      try (specialize (Hok eq_refl)); try (specialize (Hm eq_refl));
      try discriminate; split; lia.
Qed.

Lemma resolveStreamedReset_success outOffset outError s :
  let r := resolveStreamedReset outOffset outError s in
  let reported :=
    ro_messageCount (resolveResetStream (m_lastIndex s + 1) (backend s)).1 in
  r.1.1.1 = true ->
  m_resetStreamState s = RSPrepared
  /\ m_firstIndex r.2 = m_lastIndex s + 1
  /\ m_lastIndex r.2 = m_lastIndex s + reported
  /\ r.1.1.2 = reported
  /\ m_resetStreamState r.2 = RSNone.
Proof.
  intros r reported. subst r reported. unfold resolveStreamedReset.
  rewrite bind_gets.
  destruct (m_resetStreamState s) eqn:Hst; try (cbn; discriminate).
  rewrite bind_gets, bind_hook.
  destruct (resolveResetStream _ _) as [o w]; cbn [fst snd].
  repeat mstep.
  destruct (ro_ok o); cbn [negb]; repeat mstep; cbn [fst snd];
    [close_step | discriminate].
Qed.

(** C3, as the code has it. Of every streamed reset step
    ([startStreamedReset], [addStreamResetMessage], [prepareStreamedReset],
    [abortStreamedReset]), from every state: when the step returns an
    error, the state of the reset stream is as before or [None];
    [firstIndex] is as before; [lastIndex] is as before, except that a
    [startStreamedReset] that is past its two checks puts its soft reset
    and stream start markers into the live log and adds two, which it does
    whenever it returns [Ok]. Over a sequence of steps [firstIndex] stays
    and [lastIndex] grows by two for each start past its checks. When
    [resolveStreamedReset] returns true, [firstIndex] is the old
    [lastIndex] plus one and [lastIndex] has advanced by the message count
    that the backend reported. *)
Theorem streamed_reset_safety :
  (forall op s, let r := stepOp op s in step_safe op s r.1 r.2)
  /\ (forall ops s,
        let r := runOps ops s in
        m_firstIndex r.2 = m_firstIndex s
        /\ m_lastIndex s + 2 * countStartedOk r.1 <= m_lastIndex r.2
           <= m_lastIndex s + 2 * countStarts ops)
  /\ (forall outOffset outError s,
        let r := resolveStreamedReset outOffset outError s in
        let reported :=
          ro_messageCount
            (resolveResetStream (m_lastIndex s + 1) (backend s)).1 in
        r.1.1.1 = true ->
        m_firstIndex r.2 = m_lastIndex s + 1
        /\ m_lastIndex r.2 = m_lastIndex s + reported).
Proof.
  split; [exact stepOp_safe | split; [exact runOps_indices |]].
  intros outOffset outError s r reported Hok.
  destruct (resolveStreamedReset_success outOffset outError s Hok)
    as (_ & Hf & Hl & _).
  by split.
Qed.

End StreamedResetSteps.

(** A streamed reset step that moves [lastIndex] before any resolve: the
    start of a stream on a new session returns [Ok] and the live log has
    grown by the two markers. *)
Lemma startStreamedReset_moves_lastIndex :
  let s0 := newSession 0 emptyMemory in
  let r := SessionHistory.startStreamedReset 7 "cor-1" [] s0 in
  r.1 = StreamResetStartResult.Ok
  /\ SessionHistory.m_lastIndex s0 = -1
  /\ SessionHistory.m_lastIndex r.2 = 1
  /\ SessionHistory.m_lastIndex r.2 <> SessionHistory.m_lastIndex s0.
Proof. vm_compute. repeat split; discriminate. Qed.

Section PrepareCount.
Context {W C : Type} `{!Env W C}.
Import SessionHistory.

Implicit Types (s : SessionHistory.t (W:=W) (C:=C)) (msg : Message.t).

(** Draining the consumer keeps the stream in its state and with its
    owner. *)
Lemma free_finish_frame (c : option C) s :
  emit_frame s (DP_reset_stream_consumer_free_finish c s).2.
Proof.
  unfold DP_reset_stream_consumer_free_finish.
  pose proof (consumer_emit_frame (consumer_finish c).1 s) as Hf.
  unfold mbind, ST_bind.
  by destruct (consumer_emit (consumer_finish c).1 s).
Qed.

(** [prepareStreamedReset] up to the end of the drain, on the stream of
    its caller. *)
Lemma prepareStreamedReset_after_drain s ctxId expectedMessageCount ok s1 :
  m_resetStreamState s = RSStreaming ->
  m_resetStreamCtxId s = ctxId ->
  DP_reset_stream_consumer_free_finish (m_resetStreamConsumer s)
    (set_resetStreamAddError StreamResetAddResult.ConsumerError s)
  = (ok, s1) ->
  prepareStreamedReset ctxId expectedMessageCount s
  = (if negb ok then
       err ← gets m_resetStreamAddError;
       match err with
       | StreamResetAddResult.OutOfSpace =>
           mret StreamResetPrepareResult.OutOfSpace
       | _ => mret StreamResetPrepareResult.ConsumerError
       end
     else
       count ← gets m_resetStreamMessageCount;
       if negb (count =? expectedMessageCount) || (expectedMessageCount =? 0)
       then
         abortActiveStreamedReset;;
         mret StreamResetPrepareResult.InvalidMessageCount
       else
         added ← hook (addResetStreamMessage (makeCaughtUp 0));
         match added with
         | StreamResetAddResult.Ok =>
             result ← hook prepareResetStream;
             match result with
             | StreamResetPrepareResult.Ok =>
                 modify (set_resetStreamState RSPrepared)
             | _ => modify (set_resetStreamState RSNone)
             end;;
             modify (set_resetStreamCtxId 0);;
             mret result
         | StreamResetAddResult.OutOfSpace =>
             mret StreamResetPrepareResult.OutOfSpace
         | _ => mret StreamResetPrepareResult.ConsumerError
         end) (set_resetStreamConsumer None s1).
Proof.
  intros Hst Hctx Hrun. unfold prepareStreamedReset.
  rewrite bind_gets, Hst, bind_gets, Hctx, Z.eqb_refl. cbn [negb].
  rewrite bind_modify, bind_gets.
  change (m_resetStreamConsumer
            (set_resetStreamAddError StreamResetAddResult.ConsumerError s))
    with (m_resetStreamConsumer s).
  rewrite (bind_known _ _ _ _ _ Hrun). by rewrite bind_modify.
Qed.

(** C4. In state [Streaming], for the context id of the active stream:
    when the consumer has been drained and the message count recorded
    after the drain differs from the expected count, or the expected count
    is zero, [prepareStreamedReset] returns [InvalidMessageCount], the
    pending log is discarded ([discardResetStream] is the last hook that
    ran), and the state of the reset stream is [None], with no owner and
    no consumer. The count is compared once the drain has come back without
    a fault; a drain that fails ends the call before, with [OutOfSpace] or
    [ConsumerError] and the stream still in state [Streaming]. *)
Theorem prepareStreamedReset_invalid_count s ctxId expectedMessageCount :
  m_resetStreamState s = RSStreaming ->
  m_resetStreamCtxId s = ctxId ->
  let drained :=
    DP_reset_stream_consumer_free_finish (m_resetStreamConsumer s)
      (set_resetStreamAddError StreamResetAddResult.ConsumerError s) in
  let r := prepareStreamedReset ctxId expectedMessageCount s in
  (drained.1 = true ->
   m_resetStreamMessageCount drained.2 <> expectedMessageCount
   \/ expectedMessageCount = 0 ->
   r.1 = StreamResetPrepareResult.InvalidMessageCount
   /\ backend r.2 = discardResetStream (backend drained.2)
   /\ m_resetStreamState r.2 = RSNone
   /\ m_resetStreamCtxId r.2 = 0
   /\ m_resetStreamConsumer r.2 = None)
  /\ (drained.1 = false ->
      (r.1 = StreamResetPrepareResult.OutOfSpace
       \/ r.1 = StreamResetPrepareResult.ConsumerError)
      /\ m_resetStreamState r.2 = RSStreaming
      /\ r.2 = set_resetStreamConsumer None drained.2).
Proof.
  intros Hst Hctx drained r. subst r.
  pose proof (free_finish_frame (m_resetStreamConsumer s)
                (set_resetStreamAddError
                   StreamResetAddResult.ConsumerError s)) as Hframe.
  fold drained in Hframe.
  assert (Hrun : DP_reset_stream_consumer_free_finish (m_resetStreamConsumer s)
                   (set_resetStreamAddError
                      StreamResetAddResult.ConsumerError s)
                 = (drained.1, drained.2)) by (fold drained; by destruct drained).
  rewrite (prepareStreamedReset_after_drain s ctxId expectedMessageCount
             _ _ Hst Hctx Hrun).
  destruct Hframe as (_ & _ & Hstate & _).
  cbn [m_resetStreamState set_resetStreamAddError] in Hstate.
  split.
  - intros Hok Hcount. rewrite Hok. cbn [negb]. rewrite bind_gets.
    assert (Htest : negb (m_resetStreamMessageCount drained.2
                          =? expectedMessageCount)
                    || (expectedMessageCount =? 0) = true).
    { apply orb_true_iff. destruct Hcount as [Hne | Hz].
      - left. apply negb_true_iff, Z.eqb_neq. exact Hne.
      - right. by apply Z.eqb_eq. }
    change (m_resetStreamMessageCount
              (set_resetStreamConsumer None drained.2))
      with (m_resetStreamMessageCount drained.2).
    rewrite Htest.
    unfold abortActiveStreamedReset. repeat mstep. cbn [fst snd].
    repeat split.
  - intros Hfail. rewrite Hfail. cbn [negb]. rewrite bind_gets.
    destruct (m_resetStreamAddError _); rewrite run_ret; cbn [fst snd];
      (split; [auto | split; [by rewrite <- Hst, <- Hstate | reflexivity]]).
Qed.

End PrepareCount.

(** The scenario of the wrong count: user 7 starts a stream, sends a chunk
    that holds three inner messages of 10, 20 and 30 bytes, and prepares
    with an expected count of five. *)
Lemma prepareStreamedReset_invalid_count_witness :
  let s0 := newSession 0 emptyMemory in
  let s1 := (SessionHistory.startStreamedReset 7 "cor-1" [] s0).2 in
  let s2 :=
    (SessionHistory.addStreamResetMessage 7
       (chunkMessage 7 [Byte.x0a; Byte.x14; Byte.x1e]) s1).2 in
  let r := SessionHistory.prepareStreamedReset 7 5 s2 in
  SessionHistory.m_resetStreamMessageCount s2 = 3
  /\ r.1 = StreamResetPrepareResult.InvalidMessageCount
  /\ SessionHistory.m_resetStreamState r.2 = RSNone
  /\ mh_pending (SessionHistory.backend r.2) = None.
Proof.
  intros s0 s1 s2 r.
  assert (Hst : SessionHistory.m_resetStreamState s2 = RSStreaming)
    by reflexivity.
  assert (Hctx : SessionHistory.m_resetStreamCtxId s2 = 7) by reflexivity.
  assert (Hok :
    (SessionHistory.DP_reset_stream_consumer_free_finish
       (SessionHistory.m_resetStreamConsumer s2)
       (SessionHistory.set_resetStreamAddError
          StreamResetAddResult.ConsumerError s2)).1 = true) by reflexivity.
  assert (Hcount :
    SessionHistory.m_resetStreamMessageCount
      (SessionHistory.DP_reset_stream_consumer_free_finish
         (SessionHistory.m_resetStreamConsumer s2)
         (SessionHistory.set_resetStreamAddError
            StreamResetAddResult.ConsumerError s2)).2 <> 5
    \/ 5 = 0) by (left; vm_compute; discriminate).
  destruct (proj1 (prepareStreamedReset_invalid_count s2 7 5 Hst Hctx)
              Hok Hcount)
    as (Hr & Hb & Hs & _).
  split; [reflexivity | split; [exact Hr | split; [exact Hs |]]].
  fold r in Hb. rewrite Hb. reflexivity.
Defined.

Section StreamCallback.
Context {W C : Type} `{!Env W C}.
Import SessionHistory.

Implicit Types (s : SessionHistory.t (W:=W) (C:=C)) (msg : Message.t).

(** The size check of the callback, as a boolean and as a proposition. *)
Lemma overStreamLimit_test s len :
  0 <= m_resetStreamSize s -> 0 <= len ->
  m_resetStreamSize s + len < size_t_modulus ->
  (0 <? (currentSizeLimit s).1)
  && ((currentSizeLimit s).1 <? wrap_size_t (m_resetStreamSize s + len))
  = true <-> overStreamLimit s len.
Proof.
  intros H0 H1 H2. unfold overStreamLimit.
  rewrite wrap_size_t_small by (unfold is_size_t; lia).
  rewrite andb_true_iff, !Z.ltb_lt. tauto.
Qed.

(** The callback on a message of an allowed type: refused by the size
    check, or handed to the pending log. *)
Lemma receiveResetStreamMessage_size_check msg s :
  allowedInStream msg = true ->
  0 <= m_resetStreamSize s -> 0 <= Message.length msg ->
  m_resetStreamSize s + Message.length msg < size_t_modulus ->
  let r := receiveResetStreamMessage msg s in
  (overStreamLimit s (Message.length msg) ->
     r = (false, set_resetStreamAddError StreamResetAddResult.OutOfSpace s))
  /\ (~ overStreamLimit s (Message.length msg) ->
      exists msg',
        let stored :=
          addResetStreamMessage msg'
            (backend (set_resetStreamSize
                        (m_resetStreamSize s + Message.length msg) s)) in
        Message.contextId msg' = m_resetStreamCtxId s
        /\ (r.1 = true <-> stored.1 = StreamResetAddResult.Ok)
        /\ (r.1 = false -> m_resetStreamAddError r.2 = stored.1)
        /\ m_resetStreamSize r.2 = m_resetStreamSize s + Message.length msg
        /\ backend r.2 = stored.2).
Proof.
  intros Hallowed H0 H1 H2 r. subst r.
  pose proof (overStreamLimit_test s (Message.length msg) H0 H1 H2) as Htest.
  unfold receiveResetStreamMessage.
  unfold allowedInStream in Hallowed. apply negb_true_iff in Hallowed.
  rewrite Hallowed, bind_gets. clear Hallowed.
  rewrite (bind_known _ _ _ _ _ (currentSizeLimit_pure s)).
  destruct ((0 <? _) && _).
  - split; [intros _; by repeat mstep | intros Hn; tauto].
  - split; [intros Hover; apply Htest in Hover; discriminate | intros _].
    rewrite wrap_size_t_small by (unfold is_size_t; lia).
    rewrite bind_modify, bind_gets, bind_hook.
    exists (if negb (Message.contextId msg =? m_resetStreamCtxId s)
            then Message.setContextId (m_resetStreamCtxId s) msg else msg).
    cbv zeta. split.
    + destruct (Message.contextId msg =? m_resetStreamCtxId s) eqn:Hc;
        cbn; [by apply Z.eqb_eq | reflexivity].
    + change (m_resetStreamCtxId (set_resetStreamSize _ s))
        with (m_resetStreamCtxId s).
      destruct (addResetStreamMessage _ _) as [[] w] eqn:Hadd;
        cbn [fst snd]; repeat mstep; cbn [fst snd]; close_step.
Qed.

(** The consumer stops at the first message that the callback rejects:
    what follows it in the stream is never handed to the callback. *)
Lemma consumer_emit_stops pre msg post s :
  (consumer_emit pre s).1 = true ->
  (receiveResetStreamMessage msg (consumer_emit pre s).2).1 = false ->
  consumer_emit (pre ++ msg :: post) s
  = (false, (receiveResetStreamMessage msg (consumer_emit pre s).2).2).
Proof.
  revert s. induction pre as [|m pre IH]; intros s Hpre Hrej.
  - cbn in Hrej |- *. unfold mbind, ST_bind.
    destruct (receiveResetStreamMessage msg s) as [[] s1];
      [discriminate | reflexivity].
  - cbn [app consumer_emit] in *. unfold mbind, ST_bind in *.
    destruct (receiveResetStreamMessage m s) as [[] s1].
    + by apply IH.
    + discriminate.
Qed.

(** When the consumer was stopped by the callback, the error that the
    callback latched is what [addStreamResetMessage] returns. *)
Lemma addStreamResetMessage_propagates ctxId msg s c s0 :
  m_resetStreamState s = RSStreaming ->
  m_resetStreamCtxId s = ctxId ->
  Message.type msg = DP_MSG_RESET_STREAM ->
  Message.payload msg <> [] ->
  consumerFor s = Some (c, s0) ->
  let decoded := consumer_decode (Message.payload msg) c in
  let e :=
    consumer_emit decoded.1.1
      (set_resetStreamAddError StreamResetAddResult.ConsumerError s0) in
  e.1 = false ->
  let r := addStreamResetMessage ctxId msg s in
  r.1 = m_resetStreamAddError e.2
  /\ r.2 = set_resetStreamConsumer (Some decoded.2) e.2.
Proof.
  intros Hst Hctx Hty Hdata Hcons decoded e Hrej r. subst r.
  unfold addStreamResetMessage.
  rewrite bind_gets, Hst, bind_gets, Hctx, Hty, !Z.eqb_refl. cbn [negb].
  assert (Hlen : negb (Z.of_nat (length (Message.payload msg)) =? 0) = true).
  { apply negb_true_iff, Z.eqb_neq.
    destruct (Message.payload msg); [done | cbn [length]; lia]. }
  rewrite Hlen, bind_gets.
  assert (Hpush : forall s1,
    s1 = set_resetStreamAddError StreamResetAddResult.ConsumerError s0 ->
    (DP_reset_stream_consumer_push c (Message.payload msg)
     ≫= (fun pushed : bool =>
           if negb pushed then gets m_resetStreamAddError
           else mret StreamResetAddResult.Ok)) s1
    = (m_resetStreamAddError e.2,
       set_resetStreamConsumer (Some decoded.2) e.2)).
  { intros s1 ->. unfold DP_reset_stream_consumer_push.
    rewrite bind_assoc. fold decoded. fold e.
    destruct e as [ok s2] eqn:He. cbn [fst snd] in Hrej. subst ok.
    rewrite (bind_known _ _ _ _ _ He). by repeat mstep. }
  unfold consumerFor in Hcons.
  destruct (m_resetStreamConsumer s) as [c'|].
  - injection Hcons as -> ->.
    rewrite bind_ret, bind_modify. by rewrite (Hpush _ eq_refl).
  - rewrite bind_assoc, bind_hook.
    destruct (DP_reset_stream_consumer_new (backend s)) as [[c'|] w];
      [|discriminate].
    injection Hcons as -> <-. cbn [fst snd].
    rewrite bind_assoc, bind_modify, bind_ret, bind_modify.
    by rewrite (Hpush _ eq_refl).
Qed.

(** C5, as the code has it. The callback of the consumer, on an inner
    message of an allowed type whose length adds to [resetStreamSize]
    without wrapping: when a size limit is set and [resetStreamSize] plus
    the length exceeds it, the message is rejected and [OutOfSpace] is
    latched, with nothing else changed; in every other case, and so always
    when no limit is set, the size check lets the message through to the
    pending log. When the callback rejects a message the consumer stops
    there, and the latched error is what [addStreamResetMessage]
    returns. *)
Theorem reset_stream_size_check msg s :
  allowedInStream msg = true ->
  0 <= m_resetStreamSize s -> 0 <= Message.length msg ->
  m_resetStreamSize s + Message.length msg < size_t_modulus ->
  let r := receiveResetStreamMessage msg s in
  let limit := (currentSizeLimit s).1 in
  let total := m_resetStreamSize s + Message.length msg in
  (0 < limit /\ limit < total ->
     r = (false, set_resetStreamAddError StreamResetAddResult.OutOfSpace s))
  /\ (~ (0 < limit /\ limit < total) ->
      m_resetStreamSize r.2 = total
      /\ exists msg',
          let stored := addResetStreamMessage msg' (backend s) in
          Message.contextId msg' = m_resetStreamCtxId s
          /\ backend r.2 = stored.2
          /\ (r.1 = true <-> stored.1 = StreamResetAddResult.Ok)
          /\ (r.1 = false -> m_resetStreamAddError r.2 = stored.1))
  /\ (forall pre post s1,
        (consumer_emit pre s1).1 = true ->
        (receiveResetStreamMessage msg (consumer_emit pre s1).2).1 = false ->
        consumer_emit (pre ++ msg :: post) s1
        = (false, (receiveResetStreamMessage msg (consumer_emit pre s1).2).2))
  /\ (forall ctxId chunk s1 c s0,
        m_resetStreamState s1 = RSStreaming ->
        m_resetStreamCtxId s1 = ctxId ->
        Message.type chunk = DP_MSG_RESET_STREAM ->
        Message.payload chunk <> [] ->
        consumerFor s1 = Some (c, s0) ->
        let e :=
          consumer_emit (consumer_decode (Message.payload chunk) c).1.1
            (set_resetStreamAddError StreamResetAddResult.ConsumerError s0) in
        e.1 = false ->
        (addStreamResetMessage ctxId chunk s1).1 = m_resetStreamAddError e.2).
Proof.
  intros Hallowed H0 H1 H2 r limit total.
  destruct (receiveResetStreamMessage_size_check msg s Hallowed H0 H1 H2)
    as [Hover Hfits].
  fold r in Hover, Hfits. unfold overStreamLimit in Hover, Hfits.
  fold limit total in Hover, Hfits.
  split; [exact Hover | split; [| split]].
  - intros Hn. destruct (Hfits Hn) as (msg' & Hc & Hok & Herr & Hsz & Hb).
    split; [exact Hsz | exists msg'; cbv zeta; auto].
  - intros pre post s1. apply consumer_emit_stops.
  - intros ctxId chunk s1 c s0 Hst Hctx Hty Hdata Hcons e Hrej.
    by apply (addStreamResetMessage_propagates ctxId chunk s1 c s0).
Qed.

End StreamCallback.

(** A stream into a session with no size limit: the callback accepts an
    inner message although [resetStreamSize] plus its length exceeds
    [currentSizeLimit], which is zero, and the chunk that holds it is
    added. *)
Lemma unlimited_stream_accepts :
  let s := streamingSession 0 in
  let msg := plainMessage 10 in
  let r := SessionHistory.receiveResetStreamMessage msg s in
  allowedInStream msg = true
  /\ (SessionHistory.currentSizeLimit s).1 = 0
  /\ (SessionHistory.currentSizeLimit s).1
     < SessionHistory.m_resetStreamSize s + Message.length msg
  /\ r.1 = true
  /\ (SessionHistory.addStreamResetMessage 7 (chunkMessage 7 [Byte.x0a]) s).1
     = StreamResetAddResult.Ok.
Proof. vm_compute. repeat split. Qed.

(** A stream into a session limited to 100 bytes: of the inner messages
    of 60, 50 and 10 bytes the first is stored, the second is rejected with
    [OutOfSpace], the third is never seen, and [addStreamResetMessage]
    returns [OutOfSpace]. *)
Lemma reset_stream_size_check_witness :
  let s := streamingSession 100 in
  let chunk := chunkMessage 7 [Byte.x3c; Byte.x32; Byte.x0a] in
  let r := SessionHistory.addStreamResetMessage 7 chunk s in
  r.1 = StreamResetAddResult.OutOfSpace
  /\ SessionHistory.m_resetStreamMessageCount r.2 = 1
  /\ SessionHistory.m_resetStreamSize r.2 = 60
  /\ SessionHistory.receiveResetStreamMessage (plainMessage 50)
       (SessionHistory.set_resetStreamSize 60 s)
     = (false,
        SessionHistory.set_resetStreamAddError StreamResetAddResult.OutOfSpace
          (SessionHistory.set_resetStreamSize 60 s)).
Proof.
  intros s chunk r.
  assert (Hallowed : allowedInStream (plainMessage 50) = true) by reflexivity.
  assert (H0 : 0 <= SessionHistory.m_resetStreamSize
                      (SessionHistory.set_resetStreamSize 60 s))
    by (vm_compute; discriminate).
  assert (H1 : 0 <= Message.length (plainMessage 50))
    by (vm_compute; discriminate).
  assert (H2 : SessionHistory.m_resetStreamSize
                 (SessionHistory.set_resetStreamSize 60 s)
               + Message.length (plainMessage 50) < size_t_modulus)
    by reflexivity.
  destruct (reset_stream_size_check (plainMessage 50)
              (SessionHistory.set_resetStreamSize 60 s) Hallowed H0 H1 H2)
    as (Hover & _ & _ & Hprop).
  assert (Hr : r.1 = StreamResetAddResult.OutOfSpace).
  { subst r.
    rewrite (Hprop 7 chunk s tt
               (SessionHistory.set_resetStreamConsumer (Some tt) s));
      [reflexivity | reflexivity | reflexivity | reflexivity | discriminate
       | reflexivity | reflexivity]. }
  split; [exact Hr | split; [reflexivity | split; [reflexivity |]]].
  apply Hover. split; reflexivity.
Defined.

Section Invites.
Context {W C : Type} `{!Env W C}.
Import SessionHistory.

Implicit Types (s : SessionHistory.t (W:=W) (C:=C)).

Lemma isEmpty_false q : q <> ""%string -> isEmpty q = false.
Proof. intros Hq. unfold isEmpty. by apply String.eqb_neq. Qed.

(** C6, as the code has it. For an invite with a secret that is not empty
    and a client whose key, not empty either, is in the uses of the
    invite: when [checkInvite] is called to use the invite with a name
    that differs from the stored one, the stored name becomes the new name
    (the time of the use stays) and [AlreadyInvitedNameChanged] is
    returned; when it is called as a probe, or with the stored name,
    [AlreadyInvited] is returned and nothing changes. *)
Theorem checkInvite_known_client s client secret use nowIso invite u :
  sid client <> ""%string ->
  secret <> ""%string ->
  m_invites s !! secret = Some invite ->
  uses invite !! sid client = Some u ->
  let r := checkInvite client secret use nowIso s in
  (use = true /\ iu_name u <> username client ->
     r.1 = (CheckInviteResult.AlreadyInvitedNameChanged, sid client)
     /\ m_invites r.2
        = <[secret :=
              Invite_set_uses
                (<[sid client := mkInviteUse (username client) (iu_at u)]>
                   (uses invite))
                invite]> (m_invites s))
  /\ (use = false \/ iu_name u = username client ->
      r.1 = (CheckInviteResult.AlreadyInvited, sid client) /\ r.2 = s).
Proof.
  intros Hkey Hsecret Hinv Huse r. subst r.
  unfold checkInvite, checkInviteFor.
  rewrite (isEmpty_false _ Hkey), (isEmpty_false _ Hsecret). cbn [negb].
  rewrite bind_assoc, bind_gets, Hinv, Huse.
  split.
  - intros [-> Hname]. cbn [negb orb].
    apply String.eqb_neq in Hname. rewrite Hname.
    by repeat mstep.
  - intros [-> | Hname].
    + cbn [negb orb]. by repeat mstep.
    + apply String.eqb_eq in Hname. rewrite Hname, orb_true_r.
      by repeat mstep.
Qed.

End Invites.

(** The client with key [k1], invited as [bob], comes back as [bobby]:
    the use of the invite is renamed. *)
Lemma checkInvite_known_client_witness :
  let r := SessionHistory.checkInvite (SessionHistory.mkClient "k1" "bobby")
             "s3cr3t" true "2026-01-02T00:00:00Z" invitedSession in
  r.1 = (CheckInviteResult.AlreadyInvitedNameChanged, "k1"%string)
  /\ (uses <$> (SessionHistory.m_invites r.2 !! "s3cr3t"%string))
     = Some {[ "k1"%string := mkInviteUse "bobby" "2026-01-01T00:00:05Z" ]}.
Proof.
  intros r.
  destruct (checkInvite_known_client invitedSession
              (SessionHistory.mkClient "k1" "bobby") "s3cr3t" true
              "2026-01-02T00:00:00Z"
              (mkInvite "s3cr3t" "alice" "2026-01-01T00:00:00Z" 2 true false
                 {[ "k1"%string := mkInviteUse "bob" "2026-01-01T00:00:05Z" ]})
              (mkInviteUse "bob" "2026-01-01T00:00:05Z"))
    as [Hchanged _]; [discriminate | discriminate | reflexivity | reflexivity |].
  destruct Hchanged as [Hr Hm]; [split; [reflexivity | discriminate] |].
  split; [exact Hr |]. fold r in Hm. rewrite Hm. reflexivity.
Defined.

(** The same client probes the invite under the new name, without using
    it: the answer is [AlreadyInvited] and the stored name is still
    [bob]. *)
Lemma checkInvite_probe_keeps_name :
  let r := SessionHistory.checkInvite (SessionHistory.mkClient "k1" "bobby")
             "s3cr3t" false "2026-01-02T00:00:00Z" invitedSession in
  r.1 = (CheckInviteResult.AlreadyInvited, "k1"%string)
  /\ r.1 <> (CheckInviteResult.AlreadyInvitedNameChanged, "k1"%string)
  /\ r.2 = invitedSession.
Proof. vm_compute. repeat split. discriminate. Qed.

Section ServerCommandCodec.
Context {double : Type} `{!Codec double}.

Implicit Types (x : ServerCommand (double:=double)).

Lemma ServerCommand_toMessage_document x :
  ServerCommand_toMessage x = makeServerCommandMessage 0 (encodedDocument x).
Proof. reflexivity. Qed.

Lemma object_isEmpty_true (o : QJsonObject double) :
  object_isEmpty o = true -> o = ∅.
Proof.
  unfold object_isEmpty. intros Hs. apply bool_decide_eq_true in Hs.
  by apply map_size_empty_iff in Hs.
Qed.

(** Parsing the document of a command gives the command back: the keys
    that were left out because their value was empty come back empty. *)
Lemma ServerCommand_fromJson_document x :
  ServerCommand_fromJson (encodedDocument x) = x.
Proof.
  destruct x as [c a k]. unfold ServerCommand_fromJson, encodedDocument.
  cbn [cmd args kwargs object].
  assert (Hk : toObject (value "kwargs"
                 (if negb (object_isEmpty k)
                  then <["kwargs"%string := JObject k]>
                         (if negb (array_isEmpty a)
                          then <["args"%string := JArray a]>
                                 ({[ "cmd"%string := JString c ]}
                                    : QJsonObject double)
                          else {[ "cmd"%string := JString c ]})
                  else
                    (if negb (array_isEmpty a)
                     then <["args"%string := JArray a]>
                            ({[ "cmd"%string := JString c ]}
                               : QJsonObject double)
                     else {[ "cmd"%string := JString c ]}))) = k).
  { unfold value.
    destruct (object_isEmpty k) eqn:He; cbn [negb].
    - apply object_isEmpty_true in He. subst k.
      destruct (array_isEmpty a); cbn [negb]; by simplify_map_eq.
    - by simplify_map_eq. }
  rewrite Hk. f_equal.
  - unfold value.
    destruct (object_isEmpty k), (array_isEmpty a); cbn [negb];
      by simplify_map_eq.
  - unfold value.
    destruct a as [|v a]; cbn [array_isEmpty negb];
      destruct (object_isEmpty k); cbn [negb]; by simplify_map_eq.
Qed.

(** C7. A command whose encoded form fits in a message and is read back
    by the JSON parser as it was written comes back from
    [fromMessage (toMessage x)] as [x]: [cmd], [args] and [kwargs] survive,
    the empty [args] and [kwargs] being left out of the message and
    restored as empty. This holds for the commands with a [cmd] that is
    not empty, and for the empty [cmd] as well. *)
Theorem ServerCommand_roundtrip x :
  fitsInMessage (encodedDocument x) ->
  readsBack (encodedDocument x) ->
  ServerCommand_fromMessage (ServerCommand_toMessage x) = x
  /\ (cmd x <> ""%string ->
      cmd (ServerCommand_fromMessage (ServerCommand_toMessage x)) = cmd x
      /\ args (ServerCommand_fromMessage (ServerCommand_toMessage x)) = args x
      /\ kwargs (ServerCommand_fromMessage (ServerCommand_toMessage x))
         = kwargs x).
Proof.
  intros Hfits Hreads.
  assert (Hrt : ServerCommand_fromMessage (ServerCommand_toMessage x) = x).
  { rewrite ServerCommand_toMessage_document.
    unfold makeServerCommandMessage, fitsInMessage in *.
    apply Z.leb_le in Hfits. rewrite Hfits.
    unfold ServerCommand_fromMessage.
    cbn [Message.isNull Message.type Message.payload].
    rewrite Z.eqb_refl. cbn [negb orb].
    unfold readsBack in Hreads. rewrite Hreads.
    apply ServerCommand_fromJson_document. }
  split; [exact Hrt | intros _; by rewrite Hrt].
Qed.

End ServerCommandCodec.

(** The command [ping] with no arguments, through the codec of the
    one-key fragment: the text is thirteen bytes and is read back. *)
Lemma ServerCommand_roundtrip_witness :
  ServerCommand_fromMessage
    (ServerCommand_toMessage (mkServerCommand (double:=unit) "ping" [] ∅))
  = mkServerCommand "ping" [] ∅.
Proof.
  apply (ServerCommand_roundtrip (mkServerCommand (double:=unit) "ping" [] ∅)).
  - vm_compute. discriminate.
  - vm_compute. reflexivity.
Defined.

Section ServerReplyCodec.
Context {double : Type} `{!Codec double}.

(** A tag that is not in a table has the type [Unknown]. *)
Lemma tagType_outside table tag :
  tag ∉ table.*1 -> tagType table tag = ReplyType.Unknown.
Proof.
  induction table as [|[known ty] rest IH]; intros Hout; [reflexivity|].
  cbn [tagType]. apply not_elem_of_cons in Hout as [Hne Hrest].
  apply String.eqb_neq in Hne. cbn in Hne. rewrite Hne. by apply IH.
Qed.

(** The parser's chain of comparisons is the table of the specification. *)
Lemma ServerReply_fromJson_type (doc : QJsonDocument double) :
  type (ServerReply_fromJson doc)
  = tagType knownTags (toString (value "type" (object doc))).
Proof. reflexivity. Qed.

(** C8. [ServerReply::fromMessage] answers on every message. For a null
    message, a message of another type or a payload that is not JSON, the
    answer is the reply of type [Unknown] with an empty message and an
    empty object. In every other case the type of the reply is the one
    that the table of known tags gives the string under the key [type] of
    the parsed object: each of the twenty tags has its own type, none of
    them [Unknown], and every other tag has the type [Unknown]. *)
Theorem ServerReply_fromMessage_tolerant (msg : Message.t) :
  let r := ServerReply_fromMessage msg in
  (Message.isNull msg = true
   \/ Message.type msg <> DP_MSG_SERVER_COMMAND
   \/ QJsonDocument_fromJson (Message.payload msg) = None ->
   r = mkServerReply ReplyType.Unknown "" ∅)
  /\ (forall doc,
        Message.isNull msg = false ->
        Message.type msg = DP_MSG_SERVER_COMMAND ->
        QJsonDocument_fromJson (Message.payload msg) = Some doc ->
        type r = tagType knownTags (toString (value "type" (object doc)))
        /\ message r = toString (value "message" (object doc))
        /\ reply r = object doc)
  /\ Forall (fun entry => tagType knownTags entry.1 = entry.2
                          /\ entry.2 <> ReplyType.Unknown) knownTags
  /\ NoDup knownTags.*2
  /\ length knownTags = 20%nat
  /\ (forall tag, tag ∉ knownTags.*1 ->
                  tagType knownTags tag = ReplyType.Unknown).
Proof.
  intros r. subst r. unfold ServerReply_fromMessage.
  split; [| split; [| split; [| split; [| split]]]].
  - intros [Hnull | [Hty | Hbad]].
    + by rewrite Hnull.
    + apply Z.eqb_neq in Hty. rewrite Hty. cbn [negb]. by rewrite orb_true_r.
    + rewrite Hbad. by destruct (_ || _).
  - intros doc Hnull Hty Hdoc.
    rewrite Hnull, Hty, Z.eqb_refl, Hdoc. cbn [negb orb].
    split; [apply ServerReply_fromJson_type | by split].
  - repeat constructor; discriminate.
  - by apply (bool_decide_unpack _).
  - reflexivity.
  - intros tag. apply tagType_outside.
Qed.

End ServerReplyCodec.

(** *** Correlators made at different values of the counter differ *)

Lemma to_hex_uint_nonnil (n : N) : N.to_hex_uint n <> Hexadecimal.Nil.
Proof.
  destruct n as [|p]; [discriminate|].
  apply HexadecimalPos.Unsigned.to_uint_nonnil.
Qed.

Lemma QString_number_hex_inj a b :
  0 <= a -> 0 <= b ->
  SessionHistory.QString_number_hex a = SessionHistory.QString_number_hex b ->
  a = b.
Proof.
  intros Ha Hb Heq. unfold SessionHistory.QString_number_hex in Heq.
  apply (f_equal NilZero.uint_of_string) in Heq.
  rewrite !NilZero.usu in Heq by apply to_hex_uint_nonnil.
  injection Heq as Heq. apply HexadecimalN.Unsigned.to_uint_inj in Heq. lia.
Qed.

Lemma digits_no_colon d : hasColon (NilEmpty.string_of_uint d) = false.
Proof. induction d; cbn; auto. Qed.

Lemma QString_number_hex_no_colon n :
  hasColon (SessionHistory.QString_number_hex n) = false.
Proof.
  unfold SessionHistory.QString_number_hex, NilZero.string_of_uint.
  destruct (N.to_hex_uint _); try apply digits_no_colon. reflexivity.
Qed.

Lemma colon_split (a b c d : string) :
  hasColon a = false -> hasColon c = false ->
  a +:+ ":" +:+ b = c +:+ ":" +:+ d -> a = c /\ b = d.
Proof.
  revert c. induction a as [|x a IH]; intros [|y c] Ha Hc Heq; cbn in *.
  - by simplify_eq.
  - by simplify_eq.
  - by simplify_eq.
  - simplify_eq.
    apply orb_false_iff in Ha as [_ Ha]. apply orb_false_iff in Hc as [_ Hc].
    destruct (IH c Ha Hc) as [-> ->]; done.
Qed.

Lemma correlatorText_inj index now index' now' :
  0 <= index -> 0 <= index' ->
  correlatorText index now = correlatorText index' now' -> index = index'.
Proof.
  intros Hi Hi' Heq. unfold correlatorText in Heq.
  apply colon_split in Heq as [Heq _];
    try apply QString_number_hex_no_colon.
  by apply QString_number_hex_inj.
Qed.

Section Thumbnail.
Context {W C : Type} `{!Env W C}.
Import SessionHistory.

Implicit Types (s : SessionHistory.t (W:=W) (C:=C)).

(** C9. A context id that is not zero and is not the stored
    [thumbnailCtxId] starts a generation whatever the stored id is, also
    when the generation of another client is in progress:
    [startThumbnailGeneration] returns [Ok] with a correlator made of the
    counter and the clock, stores the id and that correlator in place of
    the old pair and advances the counter; the correlator differs from
    every correlator made at another value of the counter.
    [AlreadyGenerating] is returned only for the stored id. *)
Theorem startThumbnailGeneration_overwrites s contextId outCorrelator now :
  contextId <> 0 ->
  contextId <> m_thumbnailCtxId s ->
  let r := startThumbnailGeneration contextId outCorrelator now s in
  let correlator := correlatorText (correlatorIndex s) now in
  r.1 = (ThumbnailStartResult.Ok, correlator)
  /\ m_thumbnailCtxId r.2 = contextId
  /\ m_thumbnailCorrelator r.2 = correlator
  /\ correlatorIndex r.2 = wrap_uint (correlatorIndex s + 1)
  /\ (forall index' now',
        0 <= correlatorIndex s -> 0 <= index' ->
        index' <> correlatorIndex s ->
        correlator <> correlatorText index' now')
  /\ (forall other out now',
        (startThumbnailGeneration other out now' s).1.1
        = ThumbnailStartResult.AlreadyGenerating ->
        other = m_thumbnailCtxId s /\ other <> 0).
Proof.
  intros Hnz Hother r correlator. subst r correlator.
  unfold startThumbnailGeneration.
  apply Z.eqb_neq in Hnz, Hother. rewrite Hnz, bind_gets, Hother.
  repeat mstep. cbn [fst snd].
  do 4 (split; [reflexivity|]).
  split.
  { intros index' now' Hi Hi' Hne Heq. apply Hne. symmetry.
    by apply (correlatorText_inj _ now _ now'). }
  intros other out now'.
  destruct (other =? 0) eqn:H0; [discriminate|].
  rewrite bind_gets.
  destruct (other =? m_thumbnailCtxId s) eqn:H1.
  - intros _. split; [by apply Z.eqb_eq | by apply Z.eqb_neq].
  - repeat mstep. discriminate.
Qed.

(** Every byte string starts with the empty one. *)
Lemma startsWith_nil data : startsWith data [] = true.
Proof. by destruct data. Qed.

(** C10. While no generation is active (the stored context id is zero and
    the stored correlator is empty), [finishThumbnailGeneration] called
    with the context id zero passes both checks: it returns neither
    [InvalidUser] nor [InvalidCorrelator]; for empty data it returns
    [NoData], and any other data is handed whole to [setThumbnail], whose
    answer decides between [Ok] and [WriteError]. *)
Theorem finishThumbnailGeneration_idle s data :
  m_thumbnailCtxId s = 0 ->
  m_thumbnailCorrelator s = ""%string ->
  let r := finishThumbnailGeneration 0 data s in
  r.1 <> ThumbnailFinishResult.InvalidUser
  /\ r.1 <> ThumbnailFinishResult.InvalidCorrelator
  /\ (data = [] -> r.1 = ThumbnailFinishResult.NoData /\ backend r.2 = backend s)
  /\ (data <> [] ->
      let written := setThumbnail data (backend s) in
      backend r.2 = written.2
      /\ r.1 = (if written.1 then ThumbnailFinishResult.Ok
                else ThumbnailFinishResult.WriteError)).
Proof.
  intros Hctx Hcor r. subst r.
  unfold finishThumbnailGeneration.
  rewrite bind_gets, Hctx. cbn [Z.eqb negb].
  rewrite bind_gets, Hcor.
  change (toUtf8 "") with (@nil Byte.byte).
  rewrite startsWith_nil, drop_0. cbn [negb].
  change (Z.of_nat (length (@nil Byte.byte))) with 0.
  rewrite !bind_modify.
  destruct (Z.of_nat (length data) <=? 0) eqn:Hlen.
  - apply Z.leb_le in Hlen.
    assert (data = []) as ->
      by (destruct data; [done | cbn [length] in Hlen; lia]).
    cbn. split; [discriminate | split; [discriminate | split]].
    + intros _. by split.
    + intros Hne. by destruct Hne.
  - apply Z.leb_gt in Hlen. rewrite bind_hook.
    change (backend (set_thumbnailCorrelator "" (set_thumbnailCtxId 0 s)))
      with (backend s).
    destruct (setThumbnail data (backend s)) as [[] w];
      cbn; (split; [discriminate | split; [discriminate | split]]);
      try (intros ->; cbn in Hlen; lia); intros _; by split.
Qed.

End Thumbnail.

(** User 3 is generating a thumbnail when user 5 asks to: the request of
    user 5 is granted and replaces the pair of user 3. *)
Lemma startThumbnailGeneration_overwrites_witness :
  let s0 := newSession 0 emptyMemory in
  let s1 := (SessionHistory.startThumbnailGeneration 3 "" 1700000000000 s0).2 in
  let r := SessionHistory.startThumbnailGeneration 5 "" 1700000000001 s1 in
  SessionHistory.m_thumbnailCtxId s1 = 3
  /\ SessionHistory.m_thumbnailCorrelator s1 = "0:18bcfe56800"%string
  /\ r.1 = (ThumbnailStartResult.Ok, "1:18bcfe56801"%string)
  /\ SessionHistory.m_thumbnailCtxId r.2 = 5.
Proof.
  intros s0 s1 r.
  destruct (startThumbnailGeneration_overwrites s1 5 "" 1700000000001)
    as (Hr & Hc & _); [discriminate | discriminate |].
  split; [reflexivity | split; [reflexivity | split; [exact Hr | exact Hc]]].
Defined.

(** A session that never started a generation accepts a finish from the
    context id zero and stores the bytes it is given. *)
Lemma finishThumbnailGeneration_idle_witness :
  let s0 := newSession 0 emptyMemory in
  let r := SessionHistory.finishThumbnailGeneration 0 [Byte.x89; Byte.x50] s0 in
  r.1 = ThumbnailFinishResult.Ok
  /\ mh_thumbnail (SessionHistory.backend r.2) = [Byte.x89; Byte.x50].
Proof.
  intros s0 r.
  destruct (finishThumbnailGeneration_idle s0 [Byte.x89; Byte.x50])
    as (_ & _ & _ & Hdata); [reflexivity | reflexivity |].
  destruct Hdata as [Hb Hr]; [discriminate |].
  split; [exact Hr | fold r in Hb; rewrite Hb; reflexivity].
Defined.

(** ** The concrete scenarios of the specification, run on the model *)

(** Streamed reset, happy path: three inner messages of 10, 20 and 30
    bytes, prepared with the expected count three and resolved. The offset
    is four (the three messages and the caught-up marker of 30 bytes). *)
Example streamed_reset_happy_path :
  let s0 := newSession 0 emptyMemory in
  let s1 := exec (SessionHistory.startStreamedReset 7 "cor-1" []) s0 in
  let s2 :=
    exec (SessionHistory.addStreamResetMessage 7
            (chunkMessage 7 [Byte.x0a; Byte.x14; Byte.x1e])) s1 in
  let s3 := exec (SessionHistory.prepareStreamedReset 7 3) s2 in
  let r := SessionHistory.resolveStreamedReset 0 "" s3 in
  eval (SessionHistory.startStreamedReset 7 "cor-1" []) s0
  = StreamResetStartResult.Ok
  /\ eval (SessionHistory.prepareStreamedReset 7 3) s2
     = StreamResetPrepareResult.Ok
  /\ SessionHistory.m_resetStreamState s3 = RSPrepared
  /\ SessionHistory.m_firstIndex s3 = SessionHistory.m_firstIndex s0
  /\ r.1 = (true, 4, ""%string)
  /\ SessionHistory.m_firstIndex r.2 = SessionHistory.m_lastIndex s3 + 1
  /\ SessionHistory.m_lastIndex r.2 = SessionHistory.m_lastIndex s3 + 4
  /\ SessionHistory.m_sizeInBytes r.2 = 60 + 30
  /\ SessionHistory.m_resetStreamState r.2 = RSNone.
Proof. vm_compute. repeat split. Qed.

(** Invite life cycle: an invite for two uses is used by [bob], seen again
    by [bob], used by [carol] and full for [dave]. *)
Example invite_lifecycle :
  let at_ := "2026-01-02T00:00:00Z"%string in
  let use key name :=
    SessionHistory.checkInvite (SessionHistory.mkClient key name)
      "s3cr3t" true at_ in
  let s1 := exec (use "k1" "bob")%string openInviteSession in
  let s2 := exec (use "k1" "bob")%string s1 in
  let s3 := exec (use "k2" "carol")%string s2 in
  (eval (use "k1" "bob") openInviteSession).1 = CheckInviteResult.InviteUsed
  /\ (eval (use "k1" "bob") s1).1 = CheckInviteResult.AlreadyInvited
  /\ s2 = s1
  /\ (eval (use "k2" "carol") s2).1 = CheckInviteResult.InviteUsed
  /\ (eval (use "k3" "dave") s3).1 = CheckInviteResult.MaxUsesReached.
Proof. vm_compute. repeat split. Qed.

(** Thumbnail handshake: user 3 starts, a finish with another prefix is
    refused, the finish with the correlator succeeds, and the next finish
    finds no generation of user 3. *)
Example thumbnail_handshake :
  let s0 := newSession 0 emptyMemory in
  let started := SessionHistory.startThumbnailGeneration 3 "" 1700000000000 s0 in
  let correlator := started.1.2 in
  let good := SessionHistory.toUtf8 correlator ++ [Byte.x89; Byte.x50] in
  let bad := SessionHistory.toUtf8 "xxx" ++ [Byte.x89; Byte.x50] in
  let finished := SessionHistory.finishThumbnailGeneration 3 good started.2 in
  started.1.1 = ThumbnailStartResult.Ok
  /\ correlator = "0:18bcfe56800"%string
  /\ eval (SessionHistory.finishThumbnailGeneration 3 bad) started.2
     = ThumbnailFinishResult.InvalidCorrelator
  /\ finished.1 = ThumbnailFinishResult.Ok
  /\ mh_thumbnail (SessionHistory.backend finished.2) = [Byte.x89; Byte.x50]
  /\ eval (SessionHistory.finishThumbnailGeneration 3 good) finished.2
     = ThumbnailFinishResult.InvalidUser.
Proof. vm_compute. repeat split. Qed.

(** * Further properties of the session history *)

Section AppendInvariants.
Context {W C : Type} `{!Env W C}.
Import SessionHistory.

Implicit Types (s : SessionHistory.t (W:=W) (C:=C)) (msg : Message.t).

Lemma wrap_size_t_range z : 0 <= wrap_size_t z < size_t_modulus.
Proof. apply Z.mod_pos_bound. reflexivity. Qed.

(** With a limit set, a message that is admitted leaves the log within
    the ceiling of its tier, whatever the size of the log was before and
    whether or not the addition wrapped. *)
Lemma gated_append_ceiling s msg bytes extra :
  0 < (currentSizeLimit s).1 ->
  is_size_t ((currentSizeLimit s).1 + extra) ->
  let r :=
    (ok ← hasSpaceFor bytes extra;
     if ok : bool then addMessageInternal msg bytes;; mret true
     else mret false) s in
  r.1 = true ->
  0 <= m_sizeInBytes r.2 <= (currentSizeLimit s).1 + extra.
Proof.
  intros Hlim Hext r. subst r.
  rewrite gated_append_eq, hasSpaceFor_eq. cbn [fst snd].
  assert (Hz : ((currentSizeLimit s).1 <=? 0) = false) by (apply Z.leb_gt; lia).
  rewrite Hz. cbn [orb].
  destruct (wrap_size_t _ <=? _) eqn:Htest; cbn [fst snd]; [| discriminate].
  intros _.
  destruct (addMessageInternal_fields msg bytes s) as (Hsz & _).
  rewrite Hsz. apply Z.leb_le in Htest.
  rewrite (wrap_size_t_small _ Hext) in Htest.
  pose proof (wrap_size_t_range (m_sizeInBytes s + bytes)). lia.
Qed.

(** X1. While a size limit is set, no append takes the log past its
    ceiling: after an [addMessage] that returned true the log holds at most
    [currentSizeLimit] bytes, and after an [addEmergencyMessage] that
    returned true at most the limit plus the emergency allowance. This
    needs no bound on the size before or on the length of the message. *)
Theorem append_stays_within_ceiling s msg :
  0 < (currentSizeLimit s).1 ->
  0 <= emergencySpace ->
  is_size_t ((currentSizeLimit s).1 + emergencySpace) ->
  ((addMessage msg s).1 = true ->
   0 <= m_sizeInBytes (addMessage msg s).2 <= (currentSizeLimit s).1)
  /\ ((addEmergencyMessage msg s).1 = true ->
      0 <= m_sizeInBytes (addEmergencyMessage msg s).2
      <= (currentSizeLimit s).1 + emergencySpace).
Proof.
  intros Hlim Hex Hext. split.
  - intros Hok.
    pose proof (gated_append_ceiling s msg (Message.length msg) 0 Hlim) as Hc.
    rewrite Z.add_0_r in Hc. apply Hc; [| exact Hok].
    unfold is_size_t in *. lia.
  - intros Hok.
    exact (gated_append_ceiling s msg (wrap_uint (Message.length msg))
             emergencySpace Hlim Hext Hok).
Qed.

Lemma appendOp_accounts op s :
  is_uint (Message.length (appended op)) ->
  0 <= m_sizeInBytes s ->
  m_sizeInBytes s + Message.length (appended op) < size_t_modulus ->
  let r := appendOp op s in
  m_sizeInBytes r.2
  = m_sizeInBytes s + (if r.1 then Message.length (appended op) else 0)
  /\ m_lastIndex r.2 = m_lastIndex s + (if r.1 then 1 else 0)
  /\ m_firstIndex r.2 = m_firstIndex s
  /\ m_lastResetTime r.2 = m_lastResetTime s
  /\ m_id r.2 = m_id s.
Proof.
  intros Hlen H0 Hsum r. subst r.
  assert (Hstep : forall bytes extra,
    bytes = Message.length (appended op) ->
    let r :=
      (ok ← hasSpaceFor bytes extra;
       if ok : bool then addMessageInternal (appended op) bytes;; mret true
       else mret false) s in
    m_sizeInBytes r.2
    = m_sizeInBytes s + (if r.1 then Message.length (appended op) else 0)
    /\ m_lastIndex r.2 = m_lastIndex s + (if r.1 then 1 else 0)
    /\ m_firstIndex r.2 = m_firstIndex s
    /\ m_lastResetTime r.2 = m_lastResetTime s
    /\ m_id r.2 = m_id s).
  { intros bytes extra -> r. subst r. rewrite gated_append_eq.
    destruct (hasSpaceFor _ _ s).1; cbn [fst snd].
    - unfold addMessageInternal. repeat mstep. cbn.
      rewrite wrap_size_t_small by (unfold is_uint, is_size_t in *; lia).
      repeat split.
    - repeat split; lia. }
  destruct op as [msg | msg]; cbn [appendOp appended] in *.
  - by apply Hstep.
  - unfold addEmergencyMessage, hasEmergencySpaceFor.
    rewrite (wrap_uint_small _ Hlen). by apply Hstep.
Qed.

Lemma totalLength_nonneg L :
  Forall (fun msg => 0 <= Message.length msg) L -> 0 <= totalLength L.
Proof. induction 1; simpl; lia. Qed.

(** X2. Over every sequence of [addMessage] and [addEmergencyMessage]
    calls whose lengths cannot wrap the size: the log grows by exactly the
    bytes of the messages that were admitted, [lastIndex] by their number,
    and [firstIndex] stays, so that the number of retained messages grows
    by the number admitted. *)
Theorem appendAll_accounts ops s :
  Forall (fun op => is_uint (Message.length (appended op))) ops ->
  0 <= m_sizeInBytes s ->
  m_sizeInBytes s + offeredBytes ops < size_t_modulus ->
  let r := appendAll ops s in
  length r.1 = length ops
  /\ m_sizeInBytes r.2 = m_sizeInBytes s + admittedBytes ops r.1
  /\ m_lastIndex r.2 = m_lastIndex s + admittedCount r.1
  /\ m_firstIndex r.2 = m_firstIndex s
  /\ m_lastIndex r.2 - m_firstIndex r.2 + 1
     = (m_lastIndex s - m_firstIndex s + 1) + admittedCount r.1.
Proof.
  intros Hlen. revert s.
  induction Hlen as [|op ops Hop Hlen IH]; intros s H0 Hsum r; subst r.
  - cbn. repeat split; lia.
  - unfold offeredBytes in Hsum. cbn [map totalLength foldr] in Hsum.
    fold (totalLength (map appended ops)) in Hsum.
    fold (offeredBytes ops) in Hsum.
    assert (Hrest : 0 <= offeredBytes ops).
    { apply totalLength_nonneg. clear -Hlen.
      induction Hlen as [|? ? [? _]]; constructor; auto. }
    destruct Hop as [Hop0 Hop1].
    pose proof (appendOp_accounts op s (conj Hop0 Hop1) H0) as Hstep.
    cbv zeta in Hstep.
    cbn [appendAll]. unfold mbind, ST_bind, mret, ST_ret.
    destruct (appendOp op s) as [admitted s1]. cbn [fst snd] in Hstep.
    destruct Hstep as (Hsz & Hli & Hfi & _); [lia|].
    specialize (IH s1). cbv zeta in IH.
    destruct (appendAll ops s1) as [answers s2]. cbn [fst snd] in *.
    destruct IH as (Hn & Hsz2 & Hli2 & Hfi2 & _).
    { destruct admitted; lia. }
    { destruct admitted; lia. }
    cbn [length admittedBytes admittedCount].
    repeat split; destruct admitted; lia.
Qed.

End AppendInvariants.

(** A log limited to 1000 bytes that takes 600: it stays under the limit,
    and a refused message leaves it there. *)
Lemma append_stays_within_ceiling_witness :
  let s0 := newSession 1000 emptyMemory in
  0 <= SessionHistory.m_sizeInBytes
         (SessionHistory.addMessage (plainMessage 600) s0).2 <= 1000.
Proof.
  intros s0.
  refine (proj1 (append_stays_within_ceiling s0 (plainMessage 600) _ _ _) _);
    try reflexivity; vm_compute; try discriminate;
    split; (discriminate || reflexivity).
Defined.

(** 600 bytes admitted, 500 refused, 500 admitted as an emergency: 1100
    bytes and two messages more. *)
Lemma appendAll_accounts_witness :
  let s0 := newSession 1000 emptyMemory in
  let ops := [SessionHistory.Regular (plainMessage 600);
              SessionHistory.Regular (plainMessage 500);
              SessionHistory.Emergency (plainMessage 500)] in
  let r := SessionHistory.appendAll ops s0 in
  r.1 = [true; false; true]
  /\ SessionHistory.m_sizeInBytes r.2 = 1100
  /\ SessionHistory.m_lastIndex r.2 = 1.
Proof.
  intros s0 ops r.
  assert (Hlen : Forall (fun op => is_uint (Message.length
                                              (SessionHistory.appended op))) ops)
    by (repeat constructor; discriminate).
  assert (H0 : 0 <= SessionHistory.m_sizeInBytes s0) by discriminate.
  assert (Hsum : SessionHistory.m_sizeInBytes s0 + offeredBytes ops
                 < size_t_modulus) by reflexivity.
  destruct (appendAll_accounts ops s0 Hlen H0 Hsum) as (_ & Hsz & Hli & _).
  split; [reflexivity | split].
  - fold r in Hsz. rewrite Hsz. reflexivity.
  - fold r in Hli. rewrite Hli. reflexivity.
Defined.

(** ** Resets, streams and positions of the log *)

Section ResetAndStream.
Context {W C : Type} `{!Env W C}.
Import SessionHistory.

Implicit Types (s : SessionHistory.t (W:=W) (C:=C)) (L : MessageList).

(** [abortStreamedReset] with the default argument, as [reset] calls it. *)
Lemma abortStreamedReset_any s :
  abortStreamedReset (-1) s
  = match m_resetStreamState s with
    | RSStreaming =>
        (StreamResetAbortResult.Ok,
         set_resetStreamConsumer None
           (set_resetStreamCtxId 0
              (set_resetStreamState RSNone
                 (set_backend (discardResetStream (backend s)) s))))
    | _ => (StreamResetAbortResult.NotActive, s)
    end.
Proof.
  unfold abortStreamedReset, abortActiveStreamedReset.
  rewrite bind_gets. destruct (m_resetStreamState s); try reflexivity.
Qed.

(** [reset] in state passing form. *)
Lemma reset_run L now s :
  reset L now s
  = if (0 <? (currentSizeLimit s).1) && ((currentSizeLimit s).1 <? sumLengths L)
    then (false, s)
    else
      let s1 := (abortStreamedReset (-1) s).2 in
      (true,
       set_backend (historyReset L (backend s1))
         (set_autoResetBaseSize (sumLengths L)
            (set_lastIndex (m_lastIndex s1 + Z.of_nat (length L))
               (set_firstIndex (m_lastIndex s1 + 1)
                  (set_lastResetTime now
                     (set_sizeInBytes (sumLengths L) s1)))))).
Proof.
  unfold reset. unfold mbind at 1, ST_bind at 1.
  rewrite currentSizeLimit_pure.
  destruct ((0 <? _) && _); [reflexivity|].
  unfold mbind at 1, ST_bind at 1.
  by destruct (abortStreamedReset (-1) s).
Qed.

(** X3. An atomic reset that succeeds ends a stream that is being
    received: the pending log is discarded before the new history is
    stored, and the stream has no state, owner or consumer afterwards. A
    stream that is already prepared, or no stream, is left as it is. *)
Theorem reset_ends_open_stream s L now :
  let r := reset L now s in
  r.1 = true ->
  (m_resetStreamState s = RSStreaming ->
     m_resetStreamState r.2 = RSNone
     /\ m_resetStreamCtxId r.2 = 0
     /\ m_resetStreamConsumer r.2 = None
     /\ backend r.2 = historyReset L (discardResetStream (backend s)))
  /\ (m_resetStreamState s <> RSStreaming ->
     m_resetStreamState r.2 = m_resetStreamState s
     /\ m_resetStreamCtxId r.2 = m_resetStreamCtxId s
     /\ m_resetStreamConsumer r.2 = m_resetStreamConsumer s
     /\ backend r.2 = historyReset L (backend s)).
Proof.
  intros r. subst r. rewrite reset_run.
  destruct ((0 <? _) && _); [discriminate|].
  rewrite abortStreamedReset_any. intros _.
  destruct (m_resetStreamState s) eqn:Hst; cbn;
    split; intros Hs; try discriminate; try congruence; auto.
Qed.

(** [canSkipToHistoryIndex] answers from four members and changes
    nothing. *)
Lemma canSkipToHistoryIndex_eq hi s :
  (canSkipToHistoryIndex hi s).1
  = HistoryIndex.isValid hi
    && String.eqb (HistoryIndex.sessionId hi) (m_id s)
    && (HistoryIndex.startId hi =? m_lastResetTime s)
    && ((m_firstIndex s <=? HistoryIndex.historyPos hi)
        && (HistoryIndex.historyPos hi <=? m_lastIndex s)).
Proof.
  unfold canSkipToHistoryIndex. repeat mstep.
  destruct (_ && _ && _); repeat mstep; reflexivity.
Qed.

Lemma appendOp_frame op s :
  let r := appendOp op s in
  m_id r.2 = m_id s
  /\ m_lastResetTime r.2 = m_lastResetTime s
  /\ m_firstIndex r.2 = m_firstIndex s
  /\ m_lastIndex s <= m_lastIndex r.2.
Proof.
  intros r. subst r.
  destruct op as [msg | msg]; unfold appendOp, addMessage, addEmergencyMessage,
    hasRegularSpaceFor, hasEmergencySpaceFor;
    rewrite (bind_known _ _ _ _ _ (hasSpaceFor_eq _ _ _));
    destruct (_ || _); unfold addMessageInternal; repeat mstep; cbn;
    repeat split; lia.
Qed.

(** X4. Appending never invalidates a position of the log: an index that
    [canSkipToHistoryIndex] accepts is accepted after any sequence of
    regular and emergency appends, admitted or not. *)
Theorem canSkip_survives_appends hi ops s :
  (canSkipToHistoryIndex hi s).1 = true ->
  (canSkipToHistoryIndex hi (appendAll ops s).2).1 = true.
Proof.
  revert s. induction ops as [|op rest IH]; intros s Hskip; [exact Hskip|].
  cbn [appendAll]. unfold mbind, ST_bind, mret, ST_ret.
  pose proof (appendOp_frame op s) as Hf. cbv zeta in Hf.
  destruct (appendOp op s) as [admitted s1]. cbn [fst snd] in Hf.
  destruct Hf as (Hid & Ht & Hfi & Hli).
  assert (Hskip1 : (canSkipToHistoryIndex hi s1).1 = true).
  { rewrite canSkipToHistoryIndex_eq in Hskip |- *.
    rewrite Hid, Ht, Hfi.
    rewrite !andb_true_iff in Hskip |- *.
    destruct Hskip as (Hv & H1 & H2). repeat split; try tauto.
    apply Z.leb_le in H2. apply Z.leb_le. lia. }
  specialize (IH s1 Hskip1).
  destruct (appendAll rest s1) as [others s2]. exact IH.
Qed.

(** X5. A reset invalidates every position of the log it replaces: an
    index that [canSkipToHistoryIndex] accepted is refused after a [reset]
    that succeeded and after a [resolveStreamedReset] that succeeded,
    whatever the clock read. *)
Theorem canSkip_lost_on_reset hi s :
  (canSkipToHistoryIndex hi s).1 = true ->
  (forall L now,
     (reset L now s).1 = true ->
     (canSkipToHistoryIndex hi (reset L now s).2).1 = false)
  /\ (forall outOffset outError,
        (resolveStreamedReset outOffset outError s).1.1.1 = true ->
        (canSkipToHistoryIndex hi
           (resolveStreamedReset outOffset outError s).2).1 = false).
Proof.
  intros Hskip. rewrite canSkipToHistoryIndex_eq in Hskip.
  rewrite !andb_true_iff in Hskip. destruct Hskip as (_ & _ & Hpos).
  apply Z.leb_le in Hpos.
  split.
  - intros L now Hok. pose proof (reset_eq L now s) as Heq. cbv zeta in Heq.
    destruct ((0 <? _) && _).
    + rewrite Heq in Hok. discriminate.
    + destruct Heq as (_ & _ & _ & Hfi & _).
      rewrite canSkipToHistoryIndex_eq, Hfi.
      apply andb_false_iff. right. apply andb_false_iff. left.
      apply Z.leb_gt. lia.
  - intros outOffset outError Hok.
    pose proof (resolveStreamedReset_success outOffset outError s) as Hr.
    cbv zeta in Hr. destruct (Hr Hok) as (_ & Hfi & _).
    rewrite canSkipToHistoryIndex_eq, Hfi.
    apply andb_false_iff. right. apply andb_false_iff. left.
    apply Z.leb_gt. lia.
Qed.

End ResetAndStream.

(** A reset while user 7 is streaming: the stream is gone. *)
Lemma reset_ends_open_stream_witness :
  let r := SessionHistory.reset [plainMessage 50] 1700000000000
             (streamingSession 0) in
  SessionHistory.m_resetStreamState r.2 = RSNone
  /\ SessionHistory.m_resetStreamCtxId r.2 = 0
  /\ SessionHistory.m_resetStreamConsumer r.2 = None
  /\ SessionHistory.backend r.2
     = historyReset [plainMessage 50]
         (discardResetStream (SessionHistory.backend (streamingSession 0))).
Proof.
  intros r.
  assert (Hok : r.1 = true) by reflexivity.
  apply (proj1 (reset_ends_open_stream (streamingSession 0)
                  [plainMessage 50] 1700000000000 Hok)).
  reflexivity.
Defined.

(** The second message of a log stays in reach when two more come in. *)
Lemma canSkip_survives_appends_witness :
  (SessionHistory.canSkipToHistoryIndex (indexAt 1)
     (SessionHistory.appendAll
        [SessionHistory.Regular (plainMessage 10);
         SessionHistory.Emergency (plainMessage 20)]
        (streamingSession 0)).2).1 = true.
Proof.
  apply (canSkip_survives_appends (indexAt 1) _ (streamingSession 0)).
  reflexivity.
Defined.

(** The second message of a log is out of reach after a reset. *)
Lemma canSkip_lost_on_reset_witness :
  (SessionHistory.canSkipToHistoryIndex (indexAt 1)
     (SessionHistory.reset [plainMessage 50] 0 (streamingSession 0)).2).1
  = false.
Proof.
  assert (Hskip : (SessionHistory.canSkipToHistoryIndex (indexAt 1)
                     (streamingSession 0)).1 = true) by reflexivity.
  apply (proj1 (canSkip_lost_on_reset (indexAt 1) (streamingSession 0)
                  Hskip)).
  reflexivity.
Defined.

(** ** The life cycle of a reset stream *)

Section StreamLifeCycle.
Context {W C : Type} `{!Env W C}.
Import SessionHistory.

Implicit Types (s : SessionHistory.t (W:=W) (C:=C)) (msg : Message.t).

(** Each call of the streamed reset on a history whose stream is
    prepared. *)
Lemma stepOp_prepared op s :
  m_resetStreamState s = RSPrepared ->
  exists res, stepOp op s = (res, s) /\ isError res = true.
Proof.
  intros Hst. destruct op as [c q l | c m | c n | c]; unfold stepOp.
  - exists (Started StreamResetStartResult.AlreadyActive). split; [|reflexivity].
    unfold startStreamedReset. rewrite bind_assoc, bind_gets, Hst. reflexivity.
  - exists (Added StreamResetAddResult.NotActive). split; [|reflexivity].
    unfold addStreamResetMessage. rewrite bind_assoc, bind_gets, Hst.
    reflexivity.
  - exists (Prepared StreamResetPrepareResult.NotActive). split; [|reflexivity].
    unfold prepareStreamedReset. rewrite bind_assoc, bind_gets, Hst.
    reflexivity.
  - exists (Aborted StreamResetAbortResult.NotActive). split; [|reflexivity].
    unfold abortStreamedReset. rewrite bind_assoc, bind_gets, Hst.
    reflexivity.
Qed.

(** X6. Once a reset stream is prepared, the calls of the streamed reset
    other than [resolveStreamedReset] are all refused and change nothing:
    whatever sequence of start, add, prepare and abort calls is made, from
    whatever user, every call returns an error and the history is left
    exactly as it was. *)
Theorem prepared_stream_is_inert ops s :
  m_resetStreamState s = RSPrepared ->
  let r := runOps ops s in
  r.2 = s
  /\ length r.1 = length ops
  /\ Forall (fun res => isError res = true) r.1.
Proof.
  intros Hst r. subst r. induction ops as [|op rest IH].
  - repeat split. constructor.
  - cbn [runOps]. destruct (stepOp_prepared op s Hst) as (res & Hstep & Herr).
    rewrite (bind_known _ _ _ _ _ Hstep).
    unfold mbind, ST_bind, mret, ST_ret.
    destruct (runOps rest s) as [rs s1]. cbn [fst snd] in *.
    destruct IH as (-> & Hlen & Hall).
    repeat split; [cbn; congruence | by constructor].
Qed.

(** X7. What [resolveStreamedReset] leaves behind. Without a prepared
    stream it refuses, reports that the stream is not prepared and changes
    nothing, the offset of the caller included. With a prepared stream the
    stream is gone afterwards whether or not the backend could resolve it;
    when the backend fails the live log keeps its indices and its size and
    the offset of the caller is not written, and when it succeeds the size
    of the log is the size that the backend reports and the threshold of
    the automatic reset starts from the size of the stream. *)
Theorem resolveStreamedReset_outcome outOffset outError s :
  let r := resolveStreamedReset outOffset outError s in
  let o := (resolveResetStream (m_lastIndex s + 1) (backend s)).1 in
  (m_resetStreamState s <> RSPrepared ->
     r = (false, outOffset, "reset stream is not prepared"%string, s))
  /\ (m_resetStreamState s = RSPrepared ->
      m_resetStreamState r.2 = RSNone
      /\ m_resetStreamCtxId r.2 = 0
      /\ r.1.1.1 = ro_ok o
      /\ r.1.2 = default outError (ro_error o)
      /\ (ro_ok o = false ->
            r.1.1.2 = outOffset
            /\ m_firstIndex r.2 = m_firstIndex s
            /\ m_lastIndex r.2 = m_lastIndex s
            /\ m_sizeInBytes r.2 = m_sizeInBytes s
            /\ m_autoResetBaseSize r.2 = m_autoResetBaseSize s)
      /\ (ro_ok o = true ->
            r.1.1.2 = ro_messageCount o
            /\ m_sizeInBytes r.2 = ro_sizeInBytes o
            /\ m_autoResetBaseSize r.2 = m_resetStreamSize s)).
Proof.
  intros r o. subst r o. unfold resolveStreamedReset. rewrite bind_gets.
  split.
  - intros Hst. destruct (m_resetStreamState s); try reflexivity. congruence.
  - intros Hst. rewrite Hst. repeat mstep. cbn [fst snd backend].
    destruct (ro_ok _); cbn [negb]; repeat mstep; cbn;
      repeat split; intros; try discriminate; reflexivity.
Qed.

(** [startStreamedReset] that returns [Ok]. *)
Lemma startStreamedReset_ok ctxId correlator seed s :
  let r := startStreamedReset ctxId correlator seed s in
  r.1 = StreamResetStartResult.Ok ->
  m_resetStreamState s = RSNone
  /\ m_resetStreamState r.2 = RSStreaming
  /\ m_resetStreamCtxId r.2 = ctxId
  /\ m_resetStreamSize r.2 = 0
  /\ m_resetStreamMessageCount r.2 = 0
  /\ m_resetStreamStartIndex r.2 = m_lastIndex r.2 + 1
  /\ m_lastIndex r.2 = m_lastIndex s + 2
  /\ m_firstIndex r.2 = m_firstIndex s.
Proof.
  intros r. subst r. unfold startStreamedReset. rewrite bind_gets.
  destruct (m_resetStreamState s) eqn:Hst; [| discriminate ..].
  unfold hasRegularSpaceFor.
  rewrite (bind_known _ _ _ _ _ (hasSpaceFor_eq _ _ _)).
  destruct (_ || _); cbn [negb]; [| discriminate].
  unfold addMessageInternal. repeat mstep.
  destruct (openResetStream _ _) as [res w]. cbn [fst snd].
  destruct res; repeat mstep; cbn; try discriminate.
  intros _. repeat split; lia.
Qed.

(** [abortStreamedReset] on a stream that is being received. *)
Lemma abortStreamedReset_streaming who s :
  m_resetStreamState s = RSStreaming ->
  abortStreamedReset who s
  = if (who <? 0) || (who =? m_resetStreamCtxId s)
    then (StreamResetAbortResult.Ok,
          set_resetStreamConsumer None
            (set_resetStreamCtxId 0
               (set_resetStreamState RSNone
                  (set_backend (discardResetStream (backend s)) s))))
    else (StreamResetAbortResult.InvalidUser, s).
Proof.
  intros Hst. unfold abortStreamedReset, abortActiveStreamedReset.
  rewrite bind_gets, Hst, bind_gets. by destruct (_ || _).
Qed.

(** X8. Starting a streamed reset and aborting it. A start that returns
    [Ok] leaves a stream that is being received, owned by the user who
    started it, with its size and message count at zero and its start
    index just past the two markers that the start appended. The owner,
    or a caller that passes a negative id, can abort it: the pending log is
    discarded and the stream is gone, while the two markers stay in the
    live log. Any other user is refused and nothing changes. *)
Theorem start_then_abort ctxId correlator seed who s :
  let started := startStreamedReset ctxId correlator seed s in
  started.1 = StreamResetStartResult.Ok ->
  let aborted := abortStreamedReset who started.2 in
  (m_resetStreamState started.2 = RSStreaming
   /\ m_resetStreamCtxId started.2 = ctxId
   /\ m_resetStreamSize started.2 = 0
   /\ m_resetStreamMessageCount started.2 = 0
   /\ m_resetStreamStartIndex started.2 = m_lastIndex started.2 + 1)
  /\ (who < 0 \/ who = ctxId ->
      aborted.1 = StreamResetAbortResult.Ok
      /\ m_resetStreamState aborted.2 = RSNone
      /\ m_resetStreamCtxId aborted.2 = 0
      /\ m_resetStreamConsumer aborted.2 = None
      /\ backend aborted.2 = discardResetStream (backend started.2)
      /\ m_firstIndex aborted.2 = m_firstIndex s
      /\ m_lastIndex aborted.2 = m_lastIndex s + 2
      /\ m_sizeInBytes aborted.2 = m_sizeInBytes started.2)
  /\ (0 <= who -> who <> ctxId ->
      aborted = (StreamResetAbortResult.InvalidUser, started.2)).
Proof.
  intros started Hok aborted.
  destruct (startStreamedReset_ok ctxId correlator seed s Hok)
    as (_ & Hst & Hctx & Hsize & Hcount & Hstart & Hli & Hfi).
  fold started in Hst, Hctx, Hsize, Hcount, Hstart, Hli, Hfi.
  subst aborted. rewrite (abortStreamedReset_streaming who _ Hst), Hctx.
  split; [auto 10 | split].
  - intros Hwho.
    assert (Ht : (who <? 0) || (who =? ctxId) = true).
    { apply orb_true_iff. destruct Hwho as [Hneg | ->].
      - left. by apply Z.ltb_lt.
      - right. apply Z.eqb_refl. }
    rewrite Ht. cbn. auto 10.
  - intros Hpos Hne.
    assert (Ht : (who <? 0) || (who =? ctxId) = false).
    { apply orb_false_iff. split; [apply Z.ltb_ge; lia | by apply Z.eqb_neq]. }
    by rewrite Ht.
Qed.

(** The callback keeps the size of the stream within a limit that is
    set. *)
Lemma receiveResetStreamMessage_within msg s :
  (forall m w,
     overrideSizeLimit (addResetStreamMessage m w).2 = overrideSizeLimit w) ->
  let s' := (receiveResetStreamMessage msg s).2 in
  (currentSizeLimit s').1 = (currentSizeLimit s).1
  /\ (0 < (currentSizeLimit s).1 ->
      m_resetStreamSize s <= (currentSizeLimit s).1 ->
      m_resetStreamSize s' <= (currentSizeLimit s).1).
Proof.
  intros Hadd s'. subst s'. unfold receiveResetStreamMessage.
  destruct (_ || _).
  { repeat mstep. rewrite !currentSizeLimit_eq. cbn. auto. }
  rewrite bind_gets.
  rewrite (bind_known _ _ _ _ _ (currentSizeLimit_pure s)).
  destruct ((0 <? _) && _) eqn:Htest.
  { repeat mstep. rewrite !currentSizeLimit_eq. cbn. auto. }
  repeat mstep. cbn [fst snd backend].
  match goal with
  | |- context [addResetStreamMessage ?m ?w] =>
      pose proof (Hadd m w) as Hkeep;
      destruct (addResetStreamMessage m w) as [res w'] eqn:E
  end.
  cbn [fst snd] in *.
  assert (Hlim : forall st,
            backend st = w' -> m_baseSizeLimit st = m_baseSizeLimit s ->
            (currentSizeLimit st).1 = (currentSizeLimit s).1).
  { intros st Hb Hbase. rewrite !currentSizeLimit_eq. cbn [fst].
    rewrite Hb, Hbase, Hkeep. reflexivity. }
  assert (Hsz : 0 < (currentSizeLimit s).1 ->
                wrap_size_t (m_resetStreamSize s + Message.length msg)
                <= (currentSizeLimit s).1).
  { intros Hpos. apply andb_false_iff in Htest as [Hc | Hc].
    - apply Z.ltb_ge in Hc. lia.
    - apply Z.ltb_ge in Hc. exact Hc. }
  destruct res; repeat mstep; cbn [fst snd];
    (split; [apply Hlim; reflexivity | intros Hpos _; cbn; auto]).
Qed.

Lemma consumer_emit_within msgs s :
  (forall m w,
     overrideSizeLimit (addResetStreamMessage m w).2 = overrideSizeLimit w) ->
  let s' := (consumer_emit msgs s).2 in
  (currentSizeLimit s').1 = (currentSizeLimit s).1
  /\ (0 < (currentSizeLimit s).1 ->
      m_resetStreamSize s <= (currentSizeLimit s).1 ->
      m_resetStreamSize s' <= (currentSizeLimit s).1).
Proof.
  intros Hadd. revert s. induction msgs as [|msg rest IH]; intros s s'; subst s'.
  - cbn. auto.
  - cbn [consumer_emit]. unfold mbind, ST_bind.
    pose proof (receiveResetStreamMessage_within msg s Hadd) as Hone.
    cbv zeta in Hone.
    destruct (receiveResetStreamMessage msg s) as [accepted s1].
    cbn [fst snd] in Hone. destruct Hone as (Hl1 & Hs1).
    destruct accepted; [| cbn; auto].
    specialize (IH s1). cbv zeta in IH. rewrite Hl1 in IH.
    destruct IH as (Hl2 & Hs2). split; [exact Hl2 | auto].
Qed.

(** X9. The pending log of a streamed reset never grows past a size
    limit that is set: when the size of the stream is within the limit, it
    is within the limit after [addStreamResetMessage], whatever the chunk
    holds, whether the call succeeds or fails, and even if a sum wraps.
    The hooks of the backend that the call reaches are taken not to change
    the size limit that the backend overrides. *)
Theorem stream_size_within_limit ctxId msg s :
  (forall m w,
     overrideSizeLimit (addResetStreamMessage m w).2 = overrideSizeLimit w) ->
  (forall w,
     overrideSizeLimit (DP_reset_stream_consumer_new w).2
     = overrideSizeLimit w) ->
  (forall w, overrideSizeLimit (discardResetStream w) = overrideSizeLimit w) ->
  0 < (currentSizeLimit s).1 ->
  m_resetStreamSize s <= (currentSizeLimit s).1 ->
  let s' := (addStreamResetMessage ctxId msg s).2 in
  (currentSizeLimit s').1 = (currentSizeLimit s).1
  /\ m_resetStreamSize s' <= (currentSizeLimit s).1.
Proof.
  intros Hadd Hnew Hdiscard Hpos Hsize s'. subst s'.
  unfold addStreamResetMessage. rewrite bind_gets.
  destruct (m_resetStreamState s); [by cbn | | by cbn].
  rewrite bind_gets.
  destruct (negb (_ =? ctxId)); [by cbn|].
  destruct (negb (_ =? DP_MSG_RESET_STREAM)); [by cbn|].
  destruct (negb (_ =? 0)); [| by cbn].
  rewrite bind_gets.
  assert (Hpush : forall c s0,
            (currentSizeLimit s0).1 = (currentSizeLimit s).1 ->
            m_resetStreamSize s0 = m_resetStreamSize s ->
            let s1 :=
              ((modify
                  (set_resetStreamAddError StreamResetAddResult.ConsumerError);;
                pushed ← DP_reset_stream_consumer_push c (Message.payload msg);
                if negb pushed then gets m_resetStreamAddError
                else mret StreamResetAddResult.Ok) s0).2 in
            (currentSizeLimit s1).1 = (currentSizeLimit s).1
            /\ m_resetStreamSize s1 <= (currentSizeLimit s).1).
  { intros c s0 Hl0 Hs0 s1. subst s1.
    rewrite bind_modify. unfold DP_reset_stream_consumer_push.
    rewrite bind_assoc.
    pose proof (consumer_emit_within
                  (consumer_decode (Message.payload msg) c).1.1
                  (set_resetStreamAddError
                     StreamResetAddResult.ConsumerError s0) Hadd) as He.
    cbv zeta in He.
    assert (Hl0' : (currentSizeLimit
                      (set_resetStreamAddError
                         StreamResetAddResult.ConsumerError s0)).1
                   = (currentSizeLimit s).1)
      by (rewrite <- Hl0, !currentSizeLimit_eq; reflexivity).
    rewrite Hl0' in He.
    change (m_resetStreamSize
              (set_resetStreamAddError StreamResetAddResult.ConsumerError s0))
      with (m_resetStreamSize s0) in He.
    rewrite Hs0 in He.
    destruct (consumer_emit _ _) as [accepted s2] eqn:E.
    rewrite (bind_known _ _ _ _ _ E). cbn [snd] in He.
    destruct He as (Hl2 & Hs2). specialize (Hs2 Hpos Hsize).
    repeat mstep.
    destruct (negb _); repeat mstep; cbn [snd];
      rewrite currentSizeLimit_eq in Hl2 |- *; cbn in Hl2 |- *; auto. }
  destruct (m_resetStreamConsumer s) as [c|] eqn:Hc.
  - rewrite bind_ret. apply Hpush; reflexivity.
  - rewrite bind_assoc, bind_hook.
    pose proof (Hnew (backend s)) as Hkeep.
    destruct (DP_reset_stream_consumer_new (backend s)) as [[c|] w].
    + cbn [fst snd] in *. repeat mstep. apply Hpush; [| reflexivity].
      rewrite !currentSizeLimit_eq. cbn. by rewrite Hkeep.
    + cbn [fst snd] in *. unfold abortActiveStreamedReset. repeat mstep.
      cbn [snd]. rewrite !currentSizeLimit_eq. cbn.
      rewrite Hdiscard, Hkeep.
      rewrite currentSizeLimit_eq in Hsize. cbn in Hsize. auto.
Qed.

(** X10. A [prepareStreamedReset] that returns [Ok] has a stream behind
    it that is prepared: the call came from the owner of a stream that was
    being received, the expected count is not zero and is the number of
    messages that the stream counted, and afterwards the stream is in
    state [Prepared], without owner and without consumer. *)
Theorem prepareStreamedReset_ok ctxId expectedMessageCount s :
  let r := prepareStreamedReset ctxId expectedMessageCount s in
  r.1 = StreamResetPrepareResult.Ok ->
  m_resetStreamState s = RSStreaming
  /\ m_resetStreamCtxId s = ctxId
  /\ expectedMessageCount <> 0
  /\ m_resetStreamMessageCount r.2 = expectedMessageCount
  /\ m_resetStreamState r.2 = RSPrepared
  /\ m_resetStreamCtxId r.2 = 0
  /\ m_resetStreamConsumer r.2 = None.
Proof.
  intros r Hok. subst r.
  assert (Hpre : m_resetStreamState s = RSStreaming
                 /\ m_resetStreamCtxId s = ctxId).
  { revert Hok. unfold prepareStreamedReset. rewrite bind_gets.
    destruct (m_resetStreamState s); try discriminate.
    rewrite bind_gets.
    destruct (Z.eqb_spec (m_resetStreamCtxId s) ctxId); [auto | discriminate]. }
  destruct Hpre as (Hst & Hctx).
  destruct (DP_reset_stream_consumer_free_finish (m_resetStreamConsumer s)
              (set_resetStreamAddError StreamResetAddResult.ConsumerError s))
    as [ok s1] eqn:Hrun.
  revert Hok.
  rewrite (prepareStreamedReset_after_drain s ctxId expectedMessageCount
             _ _ Hst Hctx Hrun).
  destruct ok; cbn [negb].
  - rewrite bind_gets.
    change (m_resetStreamMessageCount (set_resetStreamConsumer None s1))
      with (m_resetStreamMessageCount s1).
    destruct (negb (_ =? expectedMessageCount) || _) eqn:Hcount.
    { unfold abortActiveStreamedReset. repeat mstep. discriminate. }
    apply orb_false_iff in Hcount as [Hc Hz].
    apply negb_false_iff, Z.eqb_eq in Hc. apply Z.eqb_neq in Hz.
    rewrite bind_hook.
    destruct (addResetStreamMessage _ _) as [[] w]; cbn [fst snd];
      try discriminate.
    rewrite bind_hook.
    destruct (prepareResetStream _) as [[] w2]; cbn [fst snd];
      repeat mstep; cbn; try discriminate.
    intros _. auto 10.
  - rewrite bind_gets. destruct (m_resetStreamAddError _); discriminate.
Qed.

End StreamLifeCycle.

(** A prepared stream: a start by user 8, a chunk and a second prepare by
    the owner, and an abort by anyone, are refused and change nothing. *)
Lemma prepared_stream_is_inert_witness :
  let ops := [SessionHistory.OpStart 8 "cor-2" [];
              SessionHistory.OpAdd 7 (chunkMessage 7 [Byte.x05]);
              SessionHistory.OpPrepare 7 1;
              SessionHistory.OpAbort (-1)] in
  (SessionHistory.runOps ops preparedSession).2 = preparedSession.
Proof.
  intros ops.
  assert (Hst : SessionHistory.m_resetStreamState preparedSession = RSPrepared)
    by reflexivity.
  exact (proj1 (prepared_stream_is_inert ops preparedSession Hst)).
Defined.

(** User 7 starts a streamed reset in a new session and it is aborted
    with the default id: the two markers stay. *)
Lemma start_then_abort_witness :
  let s0 := newSession 0 emptyMemory in
  let started := SessionHistory.startStreamedReset 7 "cor-1" [] s0 in
  let aborted := SessionHistory.abortStreamedReset (-1) started.2 in
  aborted.1 = StreamResetAbortResult.Ok
  /\ SessionHistory.m_resetStreamState aborted.2 = RSNone
  /\ SessionHistory.m_lastIndex aborted.2 = 1.
Proof.
  intros s0 started aborted.
  assert (Hok : started.1 = StreamResetStartResult.Ok) by reflexivity.
  destruct (start_then_abort 7 "cor-1" [] (-1) s0 Hok) as (_ & Habort & _).
  assert (Hwho : -1 < 0 \/ -1 = 7) by (left; reflexivity).
  destruct (Habort Hwho) as (Hres & Hstate & _ & _ & _ & _ & Hli & _).
  split; [exact Hres | split; [exact Hstate | exact Hli]].
Defined.

(** A stream into a session limited to 100 bytes, with inner messages of
    60, 50 and 10 bytes: the size of the stream stays at 60. *)
Lemma stream_size_within_limit_witness :
  let s := streamingSession 100 in
  let chunk := chunkMessage 7 [Byte.x3c; Byte.x32; Byte.x0a] in
  SessionHistory.m_resetStreamSize
    (SessionHistory.addStreamResetMessage 7 chunk s).2 <= 100.
Proof.
  intros s chunk.
  assert (Hadd : forall m (w : MemoryHistory),
            overrideSizeLimit (addResetStreamMessage m w).2
            = overrideSizeLimit w)
    by (intros m w; simpl; destruct (mh_pending w); reflexivity).
  assert (Hnew : forall w : MemoryHistory,
            overrideSizeLimit (DP_reset_stream_consumer_new w).2
            = overrideSizeLimit w) by reflexivity.
  assert (Hdiscard : forall w : MemoryHistory,
            overrideSizeLimit (discardResetStream w) = overrideSizeLimit w)
    by reflexivity.
  assert (Hpos : 0 < (SessionHistory.currentSizeLimit s).1) by reflexivity.
  assert (Hsize : SessionHistory.m_resetStreamSize s
                  <= (SessionHistory.currentSizeLimit s).1) by discriminate.
  exact (proj2 (stream_size_within_limit 7 chunk s Hadd Hnew Hdiscard
                  Hpos Hsize)).
Defined.

(** User 7 streamed one inner message and prepares with the count 1. *)
Lemma prepareStreamedReset_ok_witness :
  let s :=
    exec (SessionHistory.addStreamResetMessage 7 (chunkMessage 7 [Byte.x05]))
      (streamingSession 0) in
  let r := SessionHistory.prepareStreamedReset 7 1 s in
  SessionHistory.m_resetStreamMessageCount r.2 = 1
  /\ SessionHistory.m_resetStreamState r.2 = RSPrepared
  /\ SessionHistory.m_resetStreamCtxId r.2 = 0
  /\ SessionHistory.m_resetStreamConsumer r.2 = None.
Proof.
  intros s r.
  assert (Hok : r.1 = StreamResetPrepareResult.Ok) by reflexivity.
  destruct (prepareStreamedReset_ok 7 1 s Hok) as (_ & _ & _ & H).
  exact H.
Defined.

(** ** The handshake of a thumbnail *)

Section ThumbnailHandshake.
Context {W C : Type} `{!Env W C}.
Import SessionHistory.

Implicit Types (s : SessionHistory.t (W:=W) (C:=C)).

Lemma startsWith_app (prefix rest : list Byte.byte) :
  startsWith (prefix ++ rest) prefix = true.
Proof.
  induction prefix as [|b prefix IH]; [apply startsWith_nil|].
  cbn. rewrite IH, andb_true_r. by apply Byte.byte_dec_lb.
Qed.

(** [startThumbnailGeneration] by a user that is not generating. *)
Lemma startThumbnailGeneration_run contextId outCorrelator now s :
  contextId <> 0 -> contextId <> m_thumbnailCtxId s ->
  startThumbnailGeneration contextId outCorrelator now s
  = (ThumbnailStartResult.Ok, correlatorText (correlatorIndex s) now,
     set_thumbnailCorrelator (correlatorText (correlatorIndex s) now)
       (set_correlatorIndex (wrap_uint (correlatorIndex s + 1))
          (set_thumbnailCtxId contextId s))).
Proof.
  intros H0 Hctx. unfold startThumbnailGeneration.
  apply Z.eqb_neq in H0, Hctx. rewrite H0, bind_gets, Hctx.
  reflexivity.
Qed.

(** X11. The handshake of a thumbnail from start to finish. A user other
    than user 0 who is not generating starts a generation and gets a
    correlator; when the same user finishes with the bytes of that
    correlator followed by a payload that is not empty, the backend is
    handed exactly the payload, the result is [Ok] or, when the backend
    could not write, [WriteError], and in both cases no generation is in
    progress afterwards. *)
Theorem thumbnail_round_trip contextId outCorrelator now payload s :
  contextId <> 0 -> contextId <> m_thumbnailCtxId s -> payload <> [] ->
  let started := startThumbnailGeneration contextId outCorrelator now s in
  let data := toUtf8 started.1.2 ++ payload in
  let finished := finishThumbnailGeneration contextId data started.2 in
  let written := setThumbnail payload (backend s) in
  started.1.1 = ThumbnailStartResult.Ok
  /\ finished.1 = (if written.1 then ThumbnailFinishResult.Ok
                   else ThumbnailFinishResult.WriteError)
  /\ backend finished.2 = written.2
  /\ m_thumbnailCtxId finished.2 = 0
  /\ m_thumbnailCorrelator finished.2 = ""%string.
Proof.
  intros H0 Hctx Hpayload started data finished written.
  subst finished data started written.
  rewrite (startThumbnailGeneration_run _ _ _ _ H0 Hctx). cbn [fst snd].
  split; [reflexivity|].
  unfold finishThumbnailGeneration. repeat mstep.
  cbn [m_thumbnailCtxId set_thumbnailCorrelator set_correlatorIndex
       set_thumbnailCtxId m_thumbnailCorrelator].
  rewrite Z.eqb_refl. cbn [negb]. repeat mstep.
  cbn [m_thumbnailCtxId set_thumbnailCorrelator set_correlatorIndex
       set_thumbnailCtxId m_thumbnailCorrelator].
  rewrite startsWith_app. cbn [negb]. repeat mstep.
  assert (Hlen : (Z.of_nat (length (toUtf8 (correlatorText
                                                   (correlatorIndex s) now)
                                    ++ payload))
                  <=? Z.of_nat (length (toUtf8 (correlatorText
                                                  (correlatorIndex s) now))))
                 = false).
  { apply Z.leb_gt. rewrite length_app.
    destruct payload; [congruence | cbn [length]; lia]. }
  rewrite Hlen. rewrite bind_hook, drop_app_length.
  cbn [backend set_thumbnailCorrelator set_correlatorIndex set_thumbnailCtxId].
  destruct (setThumbnail payload (backend s)) as [[] w]; cbn; auto.
Qed.

(** X12. Cancelling a thumbnail generation. A cancel that returns true
    leaves no generation in progress: a finish by any user other than
    user 0 is then refused with [InvalidUser] and changes nothing, and any
    such user can start a new generation. A cancel that returns false
    changes nothing. A cancel with context id 0 and an empty correlator
    always returns true. *)
Theorem cancelThumbnailGeneration_outcome contextId correlator s :
  let r := cancelThumbnailGeneration contextId correlator s in
  (r.1 = true ->
     m_thumbnailCtxId r.2 = 0
     /\ m_thumbnailCorrelator r.2 = ""%string
     /\ (forall who data,
           who <> 0 ->
           finishThumbnailGeneration who data r.2
           = (ThumbnailFinishResult.InvalidUser, r.2))
     /\ (forall who outCorrelator now,
           who <> 0 ->
           (startThumbnailGeneration who outCorrelator now r.2).1.1
           = ThumbnailStartResult.Ok))
  /\ (r.1 = false -> r.2 = s)
  /\ (contextId = 0 -> correlator = ""%string -> r.1 = true).
Proof.
  intros r. subst r. unfold cancelThumbnailGeneration. repeat mstep.
  split; [| split].
  - destruct (_ && _); repeat mstep; cbn [fst snd]; [| discriminate].
    intros _. split; [reflexivity | split; [reflexivity | split]].
    + intros who data Hwho. unfold finishThumbnailGeneration.
      rewrite bind_gets. cbn [m_thumbnailCtxId set_thumbnailCorrelator
                              set_thumbnailCtxId].
      assert (Hne : (0 =? who) = false) by (apply Z.eqb_neq; lia).
      by rewrite Hne.
    + intros who outCorrelator now Hwho.
      rewrite startThumbnailGeneration_run; [reflexivity | exact Hwho |].
      cbn. exact Hwho.
  - destruct (_ && _); repeat mstep; cbn [fst snd]; [discriminate | reflexivity].
  - intros -> ->. reflexivity.
Qed.

(** X13. How [finishThumbnailGeneration] fails. A finish from a user who
    is not the one generating returns [InvalidUser], and one whose data
    does not begin with the correlator returns [InvalidCorrelator]; both
    leave the generation in progress as it is. A finish that returns
    [NoData] has ended the generation and has not touched what the backend
    stores. *)
Theorem finishThumbnailGeneration_failures contextId data s :
  let r := finishThumbnailGeneration contextId data s in
  (m_thumbnailCtxId s <> contextId ->
     r = (ThumbnailFinishResult.InvalidUser, s))
  /\ (m_thumbnailCtxId s = contextId ->
      startsWith data (toUtf8 (m_thumbnailCorrelator s)) = false ->
      r = (ThumbnailFinishResult.InvalidCorrelator, s))
  /\ (r.1 = ThumbnailFinishResult.InvalidUser
      \/ r.1 = ThumbnailFinishResult.InvalidCorrelator -> r.2 = s)
  /\ (r.1 = ThumbnailFinishResult.NoData ->
      backend r.2 = backend s
      /\ m_thumbnailCtxId r.2 = 0
      /\ m_thumbnailCorrelator r.2 = ""%string).
Proof.
  intros r. subst r. unfold finishThumbnailGeneration. rewrite bind_gets.
  destruct (Z.eqb_spec (m_thumbnailCtxId s) contextId) as [Heq | Hne];
    cbn [negb].
  - rewrite bind_gets.
    destruct (startsWith data _) eqn:Hstart; cbn [negb].
    + repeat mstep. destruct (_ <=? _).
      * cbn. repeat split; try congruence; try discriminate.
        intros [Hw | Hw]; discriminate.
      * rewrite bind_hook. destruct (setThumbnail _ _) as [[] w]; cbn;
          repeat split; try congruence; try discriminate;
          intros [Hw | Hw]; discriminate.
    + cbn. repeat split; try congruence; discriminate.
  - cbn. repeat split; try congruence; discriminate.
Qed.

End ThumbnailHandshake.

(** User 5 starts a generation in a new session and finishes with the
    correlator and two bytes: the backend stores the two bytes. *)
Lemma thumbnail_round_trip_witness :
  let s0 := newSession 0 emptyMemory in
  let started := SessionHistory.startThumbnailGeneration 5 "" 255 s0 in
  let data := SessionHistory.toUtf8 started.1.2 ++ [Byte.x89; Byte.x50] in
  let finished := SessionHistory.finishThumbnailGeneration 5 data started.2 in
  finished.1 = ThumbnailFinishResult.Ok
  /\ mh_thumbnail (SessionHistory.backend finished.2) = [Byte.x89; Byte.x50].
Proof.
  intros s0 started data finished.
  assert (H0 : 5 <> 0) by discriminate.
  assert (Hctx : 5 <> SessionHistory.m_thumbnailCtxId s0) by discriminate.
  assert (Hpayload : [Byte.x89; Byte.x50] <> []) by discriminate.
  destruct (thumbnail_round_trip 5 "" 255 [Byte.x89; Byte.x50] s0
              H0 Hctx Hpayload) as (_ & Hres & Hback & _).
  split; [exact Hres | ].
  fold started data finished in Hback. rewrite Hback. reflexivity.
Defined.

(** ** The store of invites *)

Section InviteStore.
Context {W C : Type} `{!Env W C} `{!Limits}.
Import SessionHistory.

Implicit Types (s : SessionHistory.t (W:=W) (C:=C)).

Lemma isEmpty_true q : isEmpty q = true <-> q = ""%string.
Proof. unfold isEmpty. apply String.eqb_eq. Qed.

(** [checkInviteFor] writes at most the one invite it was asked about,
    and only to record a use. *)
Lemma checkInviteFor_invites clientKey name secret use nowIso s :
  let r := checkInviteFor clientKey name secret use nowIso s in
  m_invites r.2 = m_invites s
  \/ exists invite u,
       m_invites s !! secret = Some invite
       /\ m_invites r.2
          = <[secret := Invite_set_uses (<[clientKey := u]> (uses invite))
                          invite]> (m_invites s)
       /\ (is_Some (uses invite !! clientKey)
           \/ hasUsesRemaining invite = true).
Proof.
  intros r. subst r. unfold checkInviteFor.
  destruct (isEmpty clientKey); [by left|].
  destruct (negb (isEmpty secret)); [| by left].
  rewrite bind_gets.
  destruct (m_invites s !! secret) as [invite|] eqn:Hinv; [| by left].
  destruct (uses invite !! clientKey) as [u|] eqn:Huse.
  - destruct (_ || _); [by left|].
    rewrite bind_modify. right. exists invite, (mkInviteUse name (iu_at u)).
    cbn. eauto.
  - destruct (hasUsesRemaining invite) eqn:Hrem; [| by left].
    destruct use; [| by left].
    rewrite bind_modify. right. exists invite, (mkInviteUse name nowIso).
    cbn. eauto.
Qed.

Lemma generateInviteSecret_spec identifiers s :
  let r := generateInviteSecret identifiers s in
  r.2 = s
  /\ match r.1 with
     | Some secret =>
         m_invites s !! secret = None
         /\ exists taken rest,
              identifiers = taken ++ secret :: rest
              /\ Forall (fun id => is_Some (m_invites s !! id)) taken
     | None => Forall (fun id => is_Some (m_invites s !! id)) identifiers
     end.
Proof.
  induction identifiers as [|id rest IH]; intros r; subst r.
  - cbn. auto.
  - cbn [generateInviteSecret]. rewrite bind_gets. case_bool_decide as Hin.
    + cbv zeta in IH. destruct IH as (Hs & Hres). split; [exact Hs|].
      destruct (generateInviteSecret rest s).1 as [secret|].
      * destruct Hres as (Hfree & taken & rest' & -> & Htaken).
        split; [exact Hfree|]. exists (id :: taken), rest'.
        split; [reflexivity | by constructor].
      * by constructor.
    + cbn. split; [reflexivity|]. split.
      * by apply eq_None_not_Some.
      * exists [], rest. split; [reflexivity | constructor].
Qed.

(** [createInvite] in state passing form. *)
Lemma createInvite_run identifiers createdBy maxUses trust op nowIso s :
  createInvite identifiers createdBy maxUses trust op nowIso s
  = if Z.of_nat (size (m_invites s)) <? MAX_INVITES then
      match (generateInviteSecret identifiers s).1 with
      | Some secret =>
          let invite :=
            mkInvite secret createdBy nowIso (qBound 1 maxUses MAX_INVITE_USES)
                     trust op ∅ in
          (Some (Some invite),
           set_invites (<[secret := invite]> (m_invites s)) s)
      | None => (None, s)
      end
    else (Some None, s).
Proof.
  unfold createInvite. rewrite bind_gets.
  destruct (_ <? _); [| reflexivity].
  pose proof (generateInviteSecret_spec identifiers s) as (Hs & _).
  unfold mbind at 1, ST_bind at 1.
  destruct (generateInviteSecret identifiers s) as [[secret|] s1];
    cbn [fst snd] in *; subst s1; reflexivity.
Qed.

Lemma removeInvite_run secret s :
  removeInvite secret s
  = (bool_decide (is_Some (m_invites s !! secret)),
     set_invites (delete secret (m_invites s)) s).
Proof. reflexivity. Qed.

Lemma removeOldestInvite_invites traversal s :
  let r := removeOldestInvite traversal s in
  m_invites r.2 = m_invites s
  \/ m_invites r.2 = delete r.1.2 (m_invites s).
Proof.
  intros r. subst r. unfold removeOldestInvite.
  destruct (negb _); [| by left].
  rewrite (bind_known _ _ _ _ _ (removeInvite_run _ _)). by right.
Qed.

(** X14. No invite is ever used more often than it allows: when every
    stored invite has at most [maxUses] uses, this also holds after
    [checkInviteFor], [createInvite], [removeInvite] and
    [removeOldestInvite], whatever their arguments and results. *)
Theorem invite_capacity_kept s :
  withinCapacity (m_invites s) ->
  (forall clientKey name secret use nowIso,
     withinCapacity
       (m_invites (checkInviteFor clientKey name secret use nowIso s).2))
  /\ (forall identifiers createdBy maxUses trust op nowIso,
        withinCapacity
          (m_invites
             (createInvite identifiers createdBy maxUses trust op nowIso s).2))
  /\ (forall secret, withinCapacity (m_invites (removeInvite secret s).2))
  /\ (forall traversal,
        withinCapacity (m_invites (removeOldestInvite traversal s).2)).
Proof.
  intros Hcap. repeat split.
  - intros clientKey name secret use nowIso.
    destruct (checkInviteFor_invites clientKey name secret use nowIso s)
      as [-> | (invite & u & Hinv & -> & Hroom)]; [exact Hcap|].
    apply map_Forall_insert_2; [| exact Hcap].
    pose proof (Hcap _ _ Hinv) as Hone. cbn in Hone |- *.
    destruct Hroom as [[u0 Hu0] | Hrem].
    + by rewrite map_size_insert_Some by eauto.
    + unfold hasUsesRemaining in Hrem. apply Z.ltb_lt in Hrem.
      destruct (uses invite !! clientKey) as [u0|] eqn:Hu.
      * rewrite map_size_insert_Some by eauto. lia.
      * rewrite map_size_insert_None by eauto. lia.
  - intros identifiers createdBy maxUses trust op nowIso.
    rewrite createInvite_run.
    destruct (_ <? _); [| exact Hcap].
    destruct (generateInviteSecret identifiers s).1; [| exact Hcap].
    cbn. apply map_Forall_insert_2; [| exact Hcap].
    cbn. rewrite map_size_empty. unfold qBound. lia.
  - intros secret. rewrite removeInvite_run. cbn.
    by apply map_Forall_delete.
  - intros traversal.
    destruct (removeOldestInvite_invites traversal s) as [-> | ->];
      [exact Hcap | by apply map_Forall_delete].
Qed.

(** A call of [checkInviteFor] that returns [InviteUsed]. *)
Lemma checkInviteFor_used clientKey name secret nowIso s :
  let r := checkInviteFor clientKey name secret true nowIso s in
  r.1 = CheckInviteResult.InviteUsed ->
  exists invite,
    isEmpty clientKey = false /\ isEmpty secret = false
    /\ m_invites s !! secret = Some invite
    /\ uses invite !! clientKey = None
    /\ hasUsesRemaining invite = true
    /\ r.2 = set_invites
               (<[secret :=
                   Invite_set_uses
                     (<[clientKey := mkInviteUse name nowIso]> (uses invite))
                     invite]> (m_invites s)) s.
Proof.
  intros r. subst r. unfold checkInviteFor.
  destruct (isEmpty clientKey) eqn:Hkey; [discriminate|].
  destruct (isEmpty secret) eqn:Hsecret; [discriminate|]. cbn [negb].
  rewrite bind_gets.
  destruct (m_invites s !! secret) as [invite|] eqn:Hinv; [| discriminate].
  destruct (uses invite !! clientKey) as [u|] eqn:Huse.
  { destruct (_ || _); [discriminate|]. rewrite bind_modify. discriminate. }
  destruct (hasUsesRemaining invite) eqn:Hrem; [| discriminate].
  intros _. exists invite. rewrite bind_modify. auto 10.
Qed.

(** X15. Using an invite and asking again. When [checkInviteFor] is
    called to use an invite and returns [InviteUsed], the invite has one
    use more than before, recorded under the key of the client with the
    name and the time of the call, and no other invite has changed. The
    same client asking again with the same name, to use the invite or only
    to probe it, gets [AlreadyInvited] and changes nothing. *)
Theorem invite_use_then_recheck clientKey name secret nowIso later use' s :
  let first := checkInviteFor clientKey name secret true nowIso s in
  first.1 = CheckInviteResult.InviteUsed ->
  (exists invite invite',
     m_invites s !! secret = Some invite
     /\ m_invites first.2 !! secret = Some invite'
     /\ uses invite !! clientKey = None
     /\ uses invite' = <[clientKey := mkInviteUse name nowIso]> (uses invite)
     /\ size (uses invite') = S (size (uses invite))
     /\ Z.of_nat (size (uses invite')) <= maxUses invite')
  /\ (forall other, other <> secret ->
        m_invites first.2 !! other = m_invites s !! other)
  /\ checkInviteFor clientKey name secret use' later first.2
     = (CheckInviteResult.AlreadyInvited, first.2).
Proof.
  intros first Hused.
  destruct (checkInviteFor_used clientKey name secret nowIso s Hused)
    as (invite & Hkey & Hsecret & Hinv & Huse & Hrem & Hst).
  fold first in Hst. rewrite Hst. cbn [m_invites set_invites].
  split; [| split].
  - exists invite,
      (Invite_set_uses (<[clientKey := mkInviteUse name nowIso]> (uses invite))
         invite).
    unfold hasUsesRemaining in Hrem. apply Z.ltb_lt in Hrem.
    rewrite lookup_insert_eq. cbn.
    rewrite map_size_insert_None by eauto.
    repeat split; auto; lia.
  - intros other Hother. by rewrite lookup_insert_ne.
  - unfold checkInviteFor. rewrite Hkey, Hsecret. cbn [negb].
    rewrite bind_gets. cbn [m_invites set_invites].
    rewrite lookup_insert_eq. cbn [uses Invite_set_uses].
    rewrite lookup_insert_eq. cbn [iu_name].
    by rewrite String.eqb_refl, orb_true_r.
Qed.


(** X17. An invite that was just created can be used: a client with a
    key, probing with the secret of the new invite, gets [InviteOk] and
    changes nothing, and using it gets [InviteUsed]. *)
Theorem created_invite_is_usable identifiers createdBy wanted trusted isOp
    nowIso clientKey name later s invite :
  let r := createInvite identifiers createdBy wanted trusted isOp nowIso s in
  r.1 = Some (Some invite) ->
  clientKey <> ""%string -> secret invite <> ""%string ->
  checkInviteFor clientKey name (secret invite) false later r.2
  = (CheckInviteResult.InviteOk, r.2)
  /\ (checkInviteFor clientKey name (secret invite) true later r.2).1
     = CheckInviteResult.InviteUsed.
Proof.
  intros r. subst r. rewrite createInvite_run.
  destruct (_ <? _); [| discriminate].
  destruct (generateInviteSecret identifiers s).1 as [fresh|]; [| discriminate].
  cbn. intros [= <-]. cbn. intros Hkey Hsecret.
  assert (Hk : isEmpty clientKey = false).
  { apply not_true_is_false. by rewrite isEmpty_true. }
  assert (Hs : isEmpty fresh = false).
  { apply not_true_is_false. by rewrite isEmpty_true. }
  assert (Hroom : hasUsesRemaining
                    (mkInvite fresh createdBy nowIso
                       (qBound 1 wanted MAX_INVITE_USES) trusted isOp ∅)
                  = true).
  { unfold hasUsesRemaining. cbn. rewrite map_size_empty.
    apply Z.ltb_lt. unfold qBound. lia. }
  unfold checkInviteFor. rewrite Hk, Hs. cbn [negb].
  rewrite !bind_gets. cbn [m_invites set_invites].
  rewrite lookup_insert_eq. cbn [uses]. rewrite lookup_empty, Hroom.
  split; [reflexivity | by rewrite bind_modify].
Qed.

(** X18. Removing an invite. [removeInvite] returns whether the secret
    was in the store; afterwards the secret is not in the store and every
    other invite is as before; a client with a key that presents the
    secret gets [NotFound], and that changes nothing. Removing a secret
    that was not in the store changes nothing. *)
Theorem removeInvite_forgets secret s :
  let r := removeInvite secret s in
  (r.1 = true <-> is_Some (m_invites s !! secret))
  /\ m_invites r.2 !! secret = None
  /\ (forall other, other <> secret ->
        m_invites r.2 !! other = m_invites s !! other)
  /\ (forall clientKey name use nowIso,
        clientKey <> ""%string ->
        checkInviteFor clientKey name secret use nowIso r.2
        = (CheckInviteResult.NotFound, r.2))
  /\ (r.1 = false -> r.2 = s).
Proof.
  intros r. subst r. rewrite removeInvite_run. cbn [fst snd].
  split; [| split; [| split; [| split]]].
  - by rewrite bool_decide_eq_true.
  - cbn. apply lookup_delete_eq.
  - intros other Hother. cbn. by rewrite lookup_delete_ne.
  - intros clientKey name use nowIso Hkey.
    assert (Hk : isEmpty clientKey = false).
    { apply not_true_is_false. by rewrite isEmpty_true. }
    unfold checkInviteFor. rewrite Hk.
    destruct (negb (isEmpty secret)); [| reflexivity].
    rewrite bind_gets. cbn [m_invites set_invites].
    by rewrite lookup_delete_eq.
  - rewrite bool_decide_eq_false. intros Hnone.
    apply eq_None_not_Some in Hnone.
    rewrite delete_id by exact Hnone. by destruct s.
Qed.

(** The order of [QString] on the bytes of two strings is transitive and
    not reflexive. *)
Lemma ascii_compare_refl a : Ascii.compare a a = Eq.
Proof. unfold Ascii.compare. apply N.compare_refl. Qed.

Lemma string_compare_refl q : String.compare q q = Eq.
Proof.
  induction q as [|a q IH]; [reflexivity|].
  cbn. by rewrite ascii_compare_refl.
Qed.

Lemma string_ltb_irrefl q : String.ltb q q = false.
Proof. unfold String.ltb. by rewrite string_compare_refl. Qed.

Lemma string_compare_trans a b c :
  String.compare a b = Lt -> String.compare b c = Lt ->
  String.compare a c = Lt.
Proof.
  revert b c. induction a as [|x a IH]; intros [|y b] [|z c]; cbn;
    try discriminate; try reflexivity.
  unfold Ascii.compare.
  destruct (N.compare_spec (Ascii.N_of_ascii x) (Ascii.N_of_ascii y))
    as [Hxy | Hxy | Hxy]; try discriminate;
    destruct (N.compare_spec (Ascii.N_of_ascii y) (Ascii.N_of_ascii z))
      as [Hyz | Hyz | Hyz]; try discriminate.
  - rewrite Hxy, Hyz, N.compare_refl. apply IH.
  - intros _ _.
    by rewrite (proj2 (N.compare_lt_iff _ _)) by (rewrite Hxy; exact Hyz).
  - intros _ _.
    by rewrite (proj2 (N.compare_lt_iff _ _)) by (rewrite <- Hyz; exact Hxy).
  - intros _ _.
    by rewrite (proj2 (N.compare_lt_iff _ _)) by (by etrans).
Qed.

Lemma string_ltb_trans a b c :
  String.ltb a b = true -> String.ltb b c = true -> String.ltb a c = true.
Proof.
  unfold String.ltb. intros Hab Hbc.
  rewrite (string_compare_trans a b c); [reflexivity | |].
  - by destruct (String.compare a b).
  - by destruct (String.compare b c).
Qed.

(** The loop of [removeOldestInvite] over invites whose secrets are not
    empty: nothing was chosen yet and nothing was seen, or the choice is
    one of the invites seen and none of them is older. *)
Lemma foldl_olderOf (seen rest : list Invite) (acc : string * string) :
  Forall (fun invite => secret invite <> ""%string) rest ->
  (seen = [] /\ acc = (""%string, ""%string))
  \/ (exists x, x ∈ seen /\ acc = (secret x, at_ x)
                /\ secret x <> ""%string
                /\ forall y, y ∈ seen -> String.ltb (at_ y) (at_ x) = false) ->
  let acc' := foldl olderOf acc rest in
  (seen ++ rest = [] /\ acc' = (""%string, ""%string))
  \/ (exists x, x ∈ seen ++ rest /\ acc' = (secret x, at_ x)
                /\ secret x <> ""%string
                /\ forall y, y ∈ seen ++ rest ->
                     String.ltb (at_ y) (at_ x) = false).
Proof.
  intros Hrest. revert seen acc.
  induction Hrest as [|y rest Hy Hrest IH]; intros seen acc Hinv acc'; subst acc'.
  - rewrite app_nil_r. exact Hinv.
  - cbn [foldl].
    replace (seen ++ y :: rest) with ((seen ++ [y]) ++ rest)
      by (by rewrite <- app_assoc).
    apply IH. right. unfold olderOf.
    destruct Hinv as [(-> & ->) | (x & Hx & -> & Hsx & Hmin)].
    + cbn. exists y. repeat split; [set_solver | exact Hy |].
      intros y' Hy'. apply list_elem_of_singleton in Hy' as ->.
      apply string_ltb_irrefl.
    + cbn [fst snd].
      assert (Hne : isEmpty (secret x) = false).
      { apply not_true_is_false. by rewrite isEmpty_true. }
      rewrite Hne. cbn [orb].
      destruct (String.ltb (at_ y) (at_ x)) eqn:Hlt.
      * exists y. repeat split; [set_solver | exact Hy |].
        intros z Hz. apply elem_of_app in Hz as [Hz | Hz].
        -- destruct (String.ltb (at_ z) (at_ y)) eqn:Hzy; [| reflexivity].
           rewrite <- (Hmin z Hz). symmetry.
           by apply (string_ltb_trans _ (at_ y)).
        -- apply list_elem_of_singleton in Hz as ->. apply string_ltb_irrefl.
      * exists x. repeat split; [set_solver | exact Hsx |].
        intros z Hz. apply elem_of_app in Hz as [Hz | Hz]; [by apply Hmin|].
        by apply list_elem_of_singleton in Hz as ->.
Qed.

(** X19. [removeOldestInvite] removes an invite that no invite of the
    store is older than. For a store in which every invite is kept under
    its secret and no secret is empty, and for any order in which the hash
    is traversed: when the store is empty the call returns false, hands out
    an empty secret and changes nothing; otherwise it returns true, hands
    out the secret of an invite of the store whose creation time no other
    invite's time is less than, and removes that invite and no other. *)
Theorem removeOldestInvite_removes_oldest traversal s :
  keyedBySecret (m_invites s) ->
  traverses traversal (m_invites s) ->
  let r := removeOldestInvite traversal s in
  (m_invites s = ∅ -> r = (false, ""%string, s))
  /\ (m_invites s <> ∅ ->
      r.1.1 = true
      /\ exists oldest,
           m_invites s !! r.1.2 = Some oldest
           /\ m_invites r.2 = delete r.1.2 (m_invites s)
           /\ forall key invite,
                m_invites s !! key = Some invite ->
                String.ltb (at_ invite) (at_ oldest) = false).
Proof.
  intros Hkeyed Htrav r. subst r. unfold traverses in Htrav.
  assert (Hmem : forall x, x ∈ traversal <->
                           exists key, m_invites s !! key = Some x).
  { intros x. rewrite Htrav, list_elem_of_fmap. split.
    - intros ([key x'] & -> & Hin). exists key.
      by apply elem_of_map_to_list in Hin.
    - intros (key & Hin). exists (key, x). split; [reflexivity|].
      by apply elem_of_map_to_list. }
  assert (Hsecrets : Forall (fun invite => secret invite <> ""%string)
                            traversal).
  { apply Forall_forall. intros x Hx. apply Hmem in Hx as (key & Hin).
    destruct (Hkeyed _ _ Hin) as (-> & Hne). exact Hne. }
  pose proof (foldl_olderOf [] traversal (""%string, ""%string) Hsecrets
                (or_introl (conj eq_refl eq_refl))) as Hfold.
  cbv zeta in Hfold. rewrite app_nil_l in Hfold.
  unfold removeOldestInvite.
  split.
  - intros Hempty.
    assert (traversal = []) as ->.
    { apply Permutation_nil_r. by rewrite Htrav, Hempty, map_to_list_empty. }
    reflexivity.
  - intros Hne.
    destruct Hfold as [(-> & _) | (x & Hx & Hacc & Hsx & Hmin)].
    { exfalso. apply Hne. apply map_to_list_empty_iff.
      symmetry in Htrav. apply Permutation_nil_r in Htrav.
      by apply fmap_nil_inv in Htrav. }
    rewrite Hacc. cbn [fst snd].
    assert (Hnonempty : isEmpty (secret x) = false).
    { apply not_true_is_false. by rewrite isEmpty_true. }
    rewrite Hnonempty. cbn [negb].
    rewrite (bind_known _ _ _ _ _ (removeInvite_run _ _)). cbn.
    apply Hmem in Hx as (key & Hin).
    destruct (Hkeyed _ _ Hin) as (Hsecret & _).
    rewrite Hsecret, Hin. split; [by apply bool_decide_eq_true|].
    exists x. split; [reflexivity | split; [reflexivity|]].
    intros key' invite Hin'. apply Hmin. apply Hmem. by exists key'.
Qed.

End InviteStore.

(** A second client uses the invite that one client has used: two uses,
    of the two that the invite allows. *)
Lemma invite_capacity_kept_witness :
  withinCapacity
    (SessionHistory.m_invites
       (SessionHistory.checkInviteFor "k2" "carol" "s3cr3t" true
          "2026-01-02T00:00:00Z" invitedSession).2).
Proof.
  assert (Hcap : withinCapacity (SessionHistory.m_invites invitedSession)).
  { apply map_Forall_singleton. vm_compute. discriminate. }
  exact (proj1 (invite_capacity_kept (H:=SmallLimits) invitedSession Hcap)
           "k2" "carol" "s3cr3t" true "2026-01-02T00:00:00Z")%string.
Defined.

(** The client with key [k1] uses the open invite as [bob] and asks
    again. *)
Lemma invite_use_then_recheck_witness :
  let first :=
    SessionHistory.checkInviteFor "k1" "bob" "s3cr3t" true
      "2026-01-02T00:00:00Z" openInviteSession in
  SessionHistory.checkInviteFor "k1" "bob" "s3cr3t" true
    "2026-01-03T00:00:00Z" first.2
  = (CheckInviteResult.AlreadyInvited, first.2).
Proof.
  intros first.
  assert (Hused : first.1 = CheckInviteResult.InviteUsed) by reflexivity.
  exact (proj2 (proj2 (invite_use_then_recheck "k1" "bob" "s3cr3t"
                         "2026-01-02T00:00:00Z" "2026-01-03T00:00:00Z" true
                         openInviteSession Hused)))%string.
Defined.


(** The invite that was just created is probed by a client. *)
Lemma created_invite_is_usable_witness :
  let r :=
    SessionHistory.createInvite ["s3cr3t"; "n3w"]%string "alice" 99 false
      false "2026-02-01T00:00:00Z" openInviteSession in
  SessionHistory.checkInviteFor "k9" "dave" "n3w" false
    "2026-02-02T00:00:00Z" r.2
  = (CheckInviteResult.InviteOk, r.2).
Proof.
  intros r.
  assert (Hr : r.1 = Some (Some (mkInvite "n3w" "alice" "2026-02-01T00:00:00Z"
                                          50 false false ∅)))
    by reflexivity.
  assert (Hkey : "k9"%string <> ""%string) by discriminate.
  assert (Hsecret : "n3w"%string <> ""%string) by discriminate.
  exact (proj1 (created_invite_is_usable ["s3cr3t"; "n3w"]%string "alice" 99
                  false false "2026-02-01T00:00:00Z" "k9" "dave"
                  "2026-02-02T00:00:00Z" openInviteSession _ Hr Hkey Hsecret)).
Defined.

(** Of two invites the one of 2025 is removed, whichever way the hash is
    traversed. *)
Lemma removeOldestInvite_removes_oldest_witness :
  let traversal :=
    (map_to_list (SessionHistory.m_invites twoInviteSession)).*2 in
  (SessionHistory.removeOldestInvite traversal twoInviteSession).1.1 = true.
Proof.
  intros traversal.
  assert (Hkeyed : keyedBySecret (SessionHistory.m_invites twoInviteSession)).
  { apply map_Forall_insert_2; [split; [reflexivity | discriminate]|].
    apply map_Forall_singleton. split; [reflexivity | discriminate]. }
  assert (Htrav : traverses traversal
                    (SessionHistory.m_invites twoInviteSession))
    by (unfold traverses; reflexivity).
  assert (Hne : SessionHistory.m_invites twoInviteSession <> ∅).
  { intros Hempty.
    assert (Hin : SessionHistory.m_invites twoInviteSession !! "0ld"%string
                  = None) by (rewrite Hempty; apply lookup_empty).
    discriminate Hin. }
  exact (proj1 (proj2 (removeOldestInvite_removes_oldest traversal
                         twoInviteSession Hkeyed Htrav) Hne)).
Defined.

(** ** Building and parsing replies *)

Create HintDb builders.

Section ReplyBuilding.
Context {double : Type} `{!Codec double} `{!Numbers double}.

(** A document that fits in a message and is read back as it was
    written, through [makeServerCommandMessage] and the two parsers. *)
Lemma makeServerCommandMessage_parsed contextId (doc : QJsonDocument double) :
  fitsInMessage doc -> readsBack doc ->
  let msg := makeServerCommandMessage contextId doc in
  Message.isNull msg = false
  /\ Message.contextId msg = contextId
  /\ ServerReply_fromMessage msg = ServerReply_fromJson doc
  /\ ServerCommand_fromMessage msg = ServerCommand_fromJson doc.
Proof.
  intros Hfits Hreads msg. subst msg.
  unfold makeServerCommandMessage, fitsInMessage in *.
  apply Z.leb_le in Hfits. rewrite Hfits.
  unfold ServerReply_fromMessage, ServerCommand_fromMessage.
  cbn [Message.isNull Message.type Message.payload Message.contextId].
  rewrite Z.eqb_refl. cbn [negb orb].
  unfold readsBack in Hreads. by rewrite Hreads.
Qed.

(** X22. A reply comes back from its message. When the object that
    [ServerReply::make] is given fits in a message and is read back by the
    JSON parser as it was written, [fromMessage] gives the reply whose
    object is that object, whose message is the string under [message] and
    whose type is the one that the tag under [type] stands for. The two
    builders of the streamed reset address their message to the context id
    they are given and come back in the same way. *)
Theorem ServerReply_make_roundtrip (data : QJsonObject double) :
  fitsInMessage (DocObject data) -> readsBack (DocObject data) ->
  (let r := ServerReply_fromMessage (ServerReply_make data) in
   reply r = data
   /\ message r = toString (value "message" data)
   /\ type r = tagType knownTags (toString (value "type" data)))
  /\ (forall contextId,
        let msg := makeServerCommandMessage contextId (DocObject data) in
        Message.contextId msg = contextId
        /\ reply (ServerReply_fromMessage msg) = data).
Proof.
  intros Hfits Hreads. split.
  - destruct (makeServerCommandMessage_parsed 0 _ Hfits Hreads)
      as (_ & _ & Hparsed & _).
    unfold ServerReply_make. rewrite Hparsed. by repeat split.
  - intros contextId.
    destruct (makeServerCommandMessage_parsed contextId _ Hfits Hreads)
      as (_ & Hctx & Hparsed & _).
    cbv zeta. rewrite Hparsed. by split.
Qed.

(** The objects of the builders, for unfolding. *)
#[local] Hint Unfold makeError_data makeCommandError_data
  makeBanExportResult_data makeBanImportResult_data makeBanImpExError_data
  makeMessage_data makeAlert_data makeKeyMessage_data makeKeyAlert_data
  makeKeyAlertReset_data makeCatchup_data makeCaughtUp_data makeLog_data
  makeLoginGreeting_data makeLoginWelcome_data makeLoginTitle_data
  makeLoginSessions_data makeLoginRemoveSessions_data makeReset_data
  makeResetQuery_data makeResetRequest_data makeStreamedResetRequest_data
  makeStreamedResetStart_data makeStreamedResetProgress_data
  makeResultClientInfo_data makeResultHostLookup_data
  makeResultJoinLookup_data makeResultPasswordNeeded_data
  makeResultLoginOk_data makeResultExtAuthNeeded_data makeResultJoinHost_data
  makeResultStartTls_data makeResultIdentIntentMismatch_data
  makeResultGarbage_data makeSessionConf_data makePasswordChange_data
  makeSizeLimitWarning_data makeOutOfSpace_data makeStatusUpdate_data
  makeInviteCreated_data makeThumbnailQuery_data makeThumbnail_data
  withParams QJsonObject_of : builders.

(** Looks a key up in the object of a builder. *)
Ltac lookup_built :=
  autounfold with builders; unfold value; cbn [foldl fst snd];
  repeat match goal with
         | |- context [if ?c then _ else _] => destruct c
         end;
  simplify_map_eq; reflexivity.

(** X23. Every builder of [ServerReply] is understood by the parser: the
    object that a builder makes is read by [fromJson] as a reply of the
    type that the builder is named after, which is never [Unknown], and
    with the message that the builder was given (the empty message for
    the builders that take none). *)
Theorem ServerReply_builders_parse (b : ReplyBuilder double) :
  let r := ServerReply_fromJson (DocObject (builtData b)) in
  type r = builtType b
  /\ builtType b <> ReplyType.Unknown
  /\ message r = builtMessage b
  /\ reply r = builtData b.
Proof.
  intros r. subst r.
  split; [| split; [by destruct b | split; [| reflexivity]]].
  - rewrite ServerReply_fromJson_type. cbn [object].
    destruct b; cbn [builtData builtType]; lookup_built.
  - unfold ServerReply_fromJson. cbn [message object].
    destruct b; cbn [builtData builtMessage]; lookup_built.
Qed.

End ReplyBuilding.

(** The reply [hello] of type [msg], through the codec of such replies. *)
Lemma ServerReply_make_roundtrip_witness :
  let data := makeMessage_data (double:=Z) "hello" in
  let r := @ServerReply_fromMessage Z MsgCodec
             (@ServerReply_make Z MsgCodec data) in
  reply r = data /\ message r = "hello"%string /\ type r = ReplyType.Message.
Proof.
  intros data r.
  assert (Hfits : @fitsInMessage Z MsgCodec (DocObject data))
    by (vm_compute; discriminate).
  assert (Hreads : @readsBack Z MsgCodec (DocObject data))
    by (vm_compute; reflexivity).
  destruct (proj1 (@ServerReply_make_roundtrip Z MsgCodec data Hfits Hreads))
    as (Hreply & Hmessage & Htype).
  split; [exact Hreply | split].
  - fold r in Hmessage. rewrite Hmessage. reflexivity.
  - fold r in Htype. rewrite Htype. reflexivity.
Defined.

(** ** Catch-up keys, the JSON of an invite, the base size limit *)

Section CatchupKeys.
Context `{!Limits}.

Lemma incrementNextCatchupKey_closed key :
  MIN_CATCHUP_KEY <= key <= MAX_CATCHUP_KEY ->
  SessionHistory.incrementNextCatchupKey key
  = (key,
     MIN_CATCHUP_KEY
     + (key - MIN_CATCHUP_KEY + 1) mod (MAX_CATCHUP_KEY - MIN_CATCHUP_KEY + 1)).
Proof.
  intros Hrange. unfold SessionHistory.incrementNextCatchupKey. f_equal.
  destruct (key <? MAX_CATCHUP_KEY) eqn:Hlt.
  - apply Z.ltb_lt in Hlt. rewrite Z.mod_small; lia.
  - apply Z.ltb_ge in Hlt. assert (key = MAX_CATCHUP_KEY) as -> by lia.
    rewrite Z_mod_same_full. lia.
Qed.

Lemma catchupKeys_closed n key :
  MIN_CATCHUP_KEY <= key <= MAX_CATCHUP_KEY ->
  let span := MAX_CATCHUP_KEY - MIN_CATCHUP_KEY + 1 in
  (catchupKeys n key).1
  = (fun i => MIN_CATCHUP_KEY + (key - MIN_CATCHUP_KEY + Z.of_nat i) mod span)
    <$> seq 0 n
  /\ (catchupKeys n key).2
     = MIN_CATCHUP_KEY + (key - MIN_CATCHUP_KEY + Z.of_nat n) mod span.
Proof.
  intros Hrange span. revert key Hrange.
  induction n as [|n IH]; intros key Hrange.
  - cbn. split; [reflexivity|]. rewrite Z.add_0_r, Z.mod_small; lia.
  - cbn [catchupKeys]. rewrite (incrementNextCatchupKey_closed key Hrange).
    cbn [fst snd]. fold span.
    assert (Hspan : 0 < span) by (unfold span; lia).
    pose proof (Z.mod_pos_bound (key - MIN_CATCHUP_KEY + 1) span Hspan) as Hb.
    destruct (IH (MIN_CATCHUP_KEY + (key - MIN_CATCHUP_KEY + 1) mod span))
      as (Hkeys & Hnext); [unfold span in *; lia|].
    assert (Hshift : forall i : Z,
              (MIN_CATCHUP_KEY + (key - MIN_CATCHUP_KEY + 1) mod span
               - MIN_CATCHUP_KEY + i) mod span
              = (key - MIN_CATCHUP_KEY + (1 + i)) mod span).
    { intros i.
      replace (MIN_CATCHUP_KEY + (key - MIN_CATCHUP_KEY + 1) mod span
               - MIN_CATCHUP_KEY + i)
        with ((key - MIN_CATCHUP_KEY + 1) mod span + i) by lia.
      rewrite Zplus_mod_idemp_l. f_equal. lia. }
    split.
    + rewrite Hkeys. cbn [seq fmap list_fmap]. f_equal.
      * rewrite Z.add_0_r, Z.mod_small; lia.
      * rewrite <- fmap_S_seq, <- list_fmap_compose.
        apply list_fmap_ext. intros i x _. cbn. rewrite Hshift.
        do 2 f_equal. lia.
    + rewrite Hnext, Hshift. do 2 f_equal. lia.
Qed.

(** X20. The catch-up keys do not repeat before they have all been
    handed out. Starting from a key between [MIN_CATCHUP_KEY] and
    [MAX_CATCHUP_KEY], a run of calls of [incrementNextCatchupKey] that is
    not longer than the number of keys hands out keys in that range that
    are all different, the first being the key it started from; and after
    as many calls as there are keys the next key is the first one again. *)
Theorem catchup_keys_cycle n key :
  MIN_CATCHUP_KEY <= key <= MAX_CATCHUP_KEY ->
  Z.of_nat n <= MAX_CATCHUP_KEY - MIN_CATCHUP_KEY + 1 ->
  let r := catchupKeys n key in
  NoDup r.1
  /\ length r.1 = n
  /\ Forall (fun k => MIN_CATCHUP_KEY <= k <= MAX_CATCHUP_KEY) r.1
  /\ ((0 < n)%nat -> head r.1 = Some key)
  /\ MIN_CATCHUP_KEY <= r.2 <= MAX_CATCHUP_KEY
  /\ (Z.of_nat n = MAX_CATCHUP_KEY - MIN_CATCHUP_KEY + 1 -> r.2 = key).
Proof.
  intros Hrange Hn r. subst r.
  destruct (catchupKeys_closed n key Hrange) as (Hkeys & Hnext).
  set (span := MAX_CATCHUP_KEY - MIN_CATCHUP_KEY + 1) in *.
  assert (Hspan : 0 < span) by (unfold span; lia).
  rewrite Hkeys, Hnext.
  split; [| split; [| split; [| split; [| split]]]].
  - apply NoDup_fmap_2_strong; [| apply NoDup_seq].
    intros i j Hi Hj Heq.
    apply elem_of_seq in Hi, Hj.
    assert (Hmod : (key - MIN_CATCHUP_KEY + Z.of_nat i) mod span
                   = (key - MIN_CATCHUP_KEY + Z.of_nat j) mod span) by lia.
    pose proof (Z.div_mod (key - MIN_CATCHUP_KEY + Z.of_nat i) span) as Hdi.
    pose proof (Z.div_mod (key - MIN_CATCHUP_KEY + Z.of_nat j) span) as Hdj.
    rewrite Hmod in Hdi.
    assert (Hq : (key - MIN_CATCHUP_KEY + Z.of_nat i) / span
                 = (key - MIN_CATCHUP_KEY + Z.of_nat j) / span) by nia.
    rewrite Hq in Hdi. lia.
  - by rewrite length_fmap, length_seq.
  - apply Forall_fmap, Forall_forall. intros i _. cbn.
    pose proof (Z.mod_pos_bound (key - MIN_CATCHUP_KEY + Z.of_nat i) span
                  Hspan).
    unfold span in *. lia.
  - intros Hpos. destruct n; [lia|]. cbn.
    rewrite Z.add_0_r, Z.mod_small by (unfold span; lia). f_equal. lia.
  - pose proof (Z.mod_pos_bound (key - MIN_CATCHUP_KEY + Z.of_nat n) span
                  Hspan).
    unfold span in *. lia.
  - intros Hall. rewrite Hall.
    replace (key - MIN_CATCHUP_KEY + span)
      with (key - MIN_CATCHUP_KEY + 1 * span) by lia.
    rewrite Z.mod_add, Z.mod_small by (unfold span; lia). lia.
Qed.

End CatchupKeys.

Section InviteJson.
Context {double : Type}.

(** X21. What the list of the uses of an invite discloses. Each use is
    listed with the name and the time of the use. The key of a client is
    in no entry: with [full] set the entry of a client whose key is not
    empty has no [s] at all, and in every other case the [s] of the entry
    is the empty string. *)
Theorem usesToJson_discloses_no_key
    (traversal : list (string * InviteUse)) full i key use :
  traversal !! i = Some (key, use) ->
  exists o : QJsonObject double,
    Invite_usesToJson traversal full !! i = Some (JObject o)
    /\ o !! "name"%string = Some (JString (iu_name use))
    /\ o !! "at"%string = Some (JString (iu_at use))
    /\ o !! "s"%string
       = (if full && negb (SessionHistory.isEmpty key) then None
          else Some (JString ""%string))
    /\ (key <> ""%string -> o !! "s"%string <> Some (JString key)).
Proof.
  revert i. induction traversal as [|entry rest IH]; intros i Hi;
    [discriminate|].
  destruct i as [|i]; [| by apply IH].
  cbn in Hi. injection Hi as ->. cbn [Invite_usesToJson map fst snd].
  eexists. split; [reflexivity|].
  unfold InviteUse_toJson, QJsonObject_of. cbn [foldl fst snd].
  assert (Hempty : SessionHistory.isEmpty ""%string = true) by reflexivity.
  destruct full; cbn [andb].
  - destruct (SessionHistory.isEmpty key) eqn:Hkey; cbn [negb].
    + apply String.eqb_eq in Hkey. subst key.
      simplify_map_eq. repeat split; congruence.
    + simplify_map_eq. repeat split; congruence.
  - rewrite Hempty. simplify_map_eq. repeat split; congruence.
Qed.

End InviteJson.

Section SizeLimit.
Context {W C : Type} `{!Env W C}.
Import SessionHistory.

Implicit Types (s : SessionHistory.t (W:=W) (C:=C)).

(** X24. What setting the base size limit does. The limit is stored
    clamped to the largest [int], and nothing else changes. It is the
    size limit in force only while the backend overrides none: an override
    other than zero stays in force whatever base limit is set. And a base
    limit of zero with no override is no limit: every message is then
    admitted, as a regular and as an emergency message. *)
Theorem setBaseSizeLimit_effect baseSizeLimit s :
  let s' := (setBaseSizeLimit baseSizeLimit s).2 in
  s' = set_baseSizeLimit (Z.min baseSizeLimit INT_MAX) s
  /\ (overrideSizeLimit (backend s) = 0 ->
      (currentSizeLimit s').1 = Z.min baseSizeLimit INT_MAX)
  /\ (overrideSizeLimit (backend s) <> 0 ->
      (currentSizeLimit s').1 = overrideSizeLimit (backend s)
      /\ (currentSizeLimit s').1 = (currentSizeLimit s).1)
  /\ (baseSizeLimit = 0 -> overrideSizeLimit (backend s) = 0 ->
      forall msg,
        (addMessage msg s').1 = true /\ (addEmergencyMessage msg s').1 = true).
Proof.
  intros s'. subst s'. unfold setBaseSizeLimit, clampSizeLimit.
  rewrite run_modify. cbn [snd].
  split; [reflexivity | split; [| split]].
  - intros Hover. rewrite currentSizeLimit_eq. cbn. by rewrite Hover.
  - intros Hover. rewrite !currentSizeLimit_eq. cbn.
    apply Z.eqb_neq in Hover. by rewrite Hover.
  - intros -> Hover msg.
    assert (Hlimit : (currentSizeLimit
                        (set_baseSizeLimit (Z.min 0 INT_MAX) s)).1 = 0).
    { rewrite currentSizeLimit_eq. cbn. by rewrite Hover. }
    unfold addMessage, addEmergencyMessage, hasRegularSpaceFor,
      hasEmergencySpaceFor.
    rewrite !(bind_known _ _ _ _ _ (hasSpaceFor_eq _ _ _)), Hlimit.
    cbn [Z.leb orb]. unfold addMessageInternal. repeat mstep. by split.
Qed.

End SizeLimit.

(** Five keys from 1 to 5: a run of five calls that starts at 3. *)
Lemma catchup_keys_cycle_witness :
  let r := catchupKeys 5 3 in
  NoDup r.1 /\ r.1 = [3; 4; 5; 1; 2] /\ r.2 = 3.
Proof.
  intros r.
  assert (Hrange : MIN_CATCHUP_KEY <= 3 <= MAX_CATCHUP_KEY)
    by (split; discriminate).
  assert (Hn : Z.of_nat 5 <= MAX_CATCHUP_KEY - MIN_CATCHUP_KEY + 1)
    by discriminate.
  destruct (catchup_keys_cycle 5 3 Hrange Hn) as (Hnodup & _).
  split; [exact Hnodup | split; reflexivity].
Defined.

(** An invite used by the client with key [k1]: the full list has the
    name and the time of the use and no key. *)
Lemma usesToJson_discloses_no_key_witness :
  exists o : QJsonObject unit,
    Invite_usesToJson [("k1", mkInviteUse "bob" "2026-01-01T00:00:05Z")]%string
      true !! 0%nat = Some (JObject o)
    /\ o !! "name"%string = Some (JString "bob")
    /\ o !! "s"%string = None.
Proof.
  destruct (usesToJson_discloses_no_key (double:=unit)
              [("k1", mkInviteUse "bob" "2026-01-01T00:00:05Z")]%string
              true 0 "k1" (mkInviteUse "bob" "2026-01-01T00:00:05Z") eq_refl)
    as (o & Hentry & Hname & _ & Hs & _).
  exists o. split; [exact Hentry | split; [exact Hname | exact Hs]].
Defined.

(** ** Parsing commands *)

Section CommandParsing.
Context {double : Type} `{!Codec double}.

(** X25. [ServerCommand::fromMessage] answers on every message. For a
    null message, a message of another type or a payload that is not JSON
    the answer is the command with an empty name, no arguments and no
    keyword arguments. For a document that is not an object the answer is
    the same. For an object, each of the three fields is the value under
    its key when that value has the type of the field, and is empty when
    the key is missing or holds a value of another type. *)
Theorem ServerCommand_fromMessage_tolerant (msg : Message.t) :
  let x := ServerCommand_fromMessage (double:=double) msg in
  (Message.isNull msg = true
   \/ Message.type msg <> DP_MSG_SERVER_COMMAND
   \/ QJsonDocument_fromJson (Message.payload msg) = None ->
   x = mkServerCommand "" [] ∅)
  /\ (forall doc,
        Message.isNull msg = false ->
        Message.type msg = DP_MSG_SERVER_COMMAND ->
        QJsonDocument_fromJson (Message.payload msg) = Some doc ->
        (forall o, doc <> DocObject o) ->
        x = mkServerCommand "" [] ∅)
  /\ (forall o,
        Message.isNull msg = false ->
        Message.type msg = DP_MSG_SERVER_COMMAND ->
        QJsonDocument_fromJson (Message.payload msg) = Some (DocObject o) ->
        cmd x = match o !! "cmd"%string with
                | Some (JString q) => q
                | _ => ""%string
                end
        /\ args x = match o !! "args"%string with
                    | Some (JArray a) => a
                    | _ => []
                    end
        /\ kwargs x = match o !! "kwargs"%string with
                      | Some (JObject k) => k
                      | _ => ∅
                      end).
Proof.
  intros x. subst x. unfold ServerCommand_fromMessage.
  split; [| split].
  - intros [Hnull | [Hty | Hbad]].
    + by rewrite Hnull.
    + apply Z.eqb_neq in Hty. rewrite Hty. cbn [negb]. by rewrite orb_true_r.
    + rewrite Hbad. by destruct (_ || _).
  - intros doc Hnull Hty Hdoc Hshape.
    rewrite Hnull, Hty, Z.eqb_refl, Hdoc. cbn [negb orb].
    destruct doc as [| a | o]; try reflexivity. by destruct (Hshape o).
  - intros o Hnull Hty Hdoc.
    rewrite Hnull, Hty, Z.eqb_refl, Hdoc. cbn [negb orb].
    unfold ServerCommand_fromJson, value. cbn [object cmd args kwargs].
    repeat split.
    + by destruct (o !! "cmd"%string) as [[]|].
    + by destruct (o !! "args"%string) as [[]|].
    + by destruct (o !! "kwargs"%string) as [[]|].
Qed.

End CommandParsing.
